(** * fb-jwt-client-node: a shallow embedding of the JWT client and its cipher

    The development follows the two modules of the package:
    - [lib/fb-jwt-client.js]: the client class [FBJWTClient] (constructor,
      [throwRequestError], [handleRequestError], [createRequestOptions],
      [encrypt]/[decrypt] and the dispatch pipeline [send]);
    - [lib/fb-jwt-aes256.js]: [encrypt]/[decrypt] with AES-256-CTR.

    JavaScript values are modelled with a heap of objects, so that object
    identity, aliasing and in-place mutation are those of the source.
    What the model leaves out:
    - numbers are integers (the doubles they stand for where the code
      writes or compares them), and a string is identified with its UTF-8
      bytes (so it is well formed);
    - the only functions that are values are those that end a timer;
    - the arguments documented as strings or objects and not tested by the
      code are typed: the seed of the vector, the user id and token, the
      payload and the context;
    - the libraries (Node's [crypto], [JSON], [jsonwebtoken],
      [path-to-regexp], [got]) are parameters, given as classes with the laws
      used of them; the stand-ins at the end of the definitions are instances
      on which the examples are evaluated;
    - the text of the message handed to the logger. *)

From Stdlib Require Import ZArith String Ascii List Bool Lia DecimalString.
From stdpp Require Import gmap strings list fin_maps.

Local Open Scope Z_scope.
Local Open Scope string_scope.
Local Set Warnings "-register-all".

(** ** JavaScript values, objects and the heap *)

(** The two histograms of the metrics collaborators. *)
Inductive histogram := ApiMetrics | RequestMetrics.

Global Instance histogram_eq_dec : EqDecision histogram.
Proof. solve_decision. Defined.

(** The only functions that are values of the model are the functions
    [startTimer] returns, which end the timer with the given handle. *)
Inductive value :=
| VUndefined
| VNull
| VBool (b : bool)
| VNum (n : Z)
| VStr (s : string)
| VRef (l : positive)
| VEndTimer (hg : histogram) (handle : nat).

Global Instance value_eq_dec : EqDecision value.
Proof. solve_decision. Defined.

(** [x === y] on the values above. *)
Definition strict_eq (x y : value) : bool := bool_decide (x = y).

(** [ToBoolean]: what [if (v)], [!v] and [a || b] look at. *)
Definition truthy (v : value) : bool :=
  match v with
  | VUndefined | VNull => false
  | VBool b => b
  | VNum n => negb (Z.eqb n 0)
  | VStr s => negb (String.eqb s "")
  | VRef _ => true
  | VEndTimer _ _ => true
  end.

(** [a || b] *)
Definition js_or (a b : value) : value := if truthy a then a else b.

(** [typeof v] *)
Definition typeof (v : value) : string :=
  match v with
  | VUndefined => "undefined"
  | VNull => "object"
  | VBool _ => "boolean"
  | VNum _ => "number"
  | VStr _ => "string"
  | VRef _ => "object"
  | VEndTimer _ _ => "function"
  end.

Record responseLabels := {
  status_code : value;
  status_message : option value;
  error_name : option value
}.

Record requestLabels := {
  client_name : string;
  base_url : value;
  label_url : string;
  label_method : string
}.

(** A metrics event: a timer of a histogram is started (and gets the next
    free handle) or the function that ends it is called with the response
    labels. *)
Inductive metric_event :=
| StartTimer (hg : histogram) (handle : nat) (labels : requestLabels)
| EndTimer (hg : histogram) (handle : nat) (labels : responseLabels).

(** What [logger.error] receives: the labels with the [name] of the kind
    of error, and the error object (the text of the message is not
    modelled). *)
Record log_entry := {
  log_name : string;
  log_labels : requestLabels;
  log_error : value
}.

(** The world a call runs in: the heap of objects, the calls made so far to
    the metrics collaborators and to the logger (oldest first), and the two
    variables of the running [send] that its hooks share. *)
Record world := {
  heap : gmap positive (gmap string value);
  metrics : list metric_event;
  logged : list log_entry;
  requestMetricsEnd : value;
  retryCounter : value
}.

Definition with_heap (w : world) (h : gmap positive (gmap string value)) : world :=
  {| heap := h; metrics := metrics w; logged := logged w;
     requestMetricsEnd := requestMetricsEnd w; retryCounter := retryCounter w |}.

Definition with_metrics (w : world) (m : list metric_event) : world :=
  {| heap := heap w; metrics := m; logged := logged w;
     requestMetricsEnd := requestMetricsEnd w; retryCounter := retryCounter w |}.

Definition with_logged (w : world) (l : list log_entry) : world :=
  {| heap := heap w; metrics := metrics w; logged := l;
     requestMetricsEnd := requestMetricsEnd w; retryCounter := retryCounter w |}.

Definition with_requestMetricsEnd (w : world) (v : value) : world :=
  {| heap := heap w; metrics := metrics w; logged := logged w;
     requestMetricsEnd := v; retryCounter := retryCounter w |}.

Definition with_retryCounter (w : world) (v : value) : world :=
  {| heap := heap w; metrics := metrics w; logged := logged w;
     requestMetricsEnd := requestMetricsEnd w; retryCounter := v |}.

(** A world with this heap in which nothing has happened yet. *)
Definition world_of (h : gmap positive (gmap string value)) : world :=
  {| heap := h; metrics := []; logged := [];
     requestMetricsEnd := VUndefined; retryCounter := VUndefined |}.

(** ** Completions and the state-and-exception monad *)

(** An exception is a thrown value, or a [TypeError] raised by the runtime
    itself (a property read on [undefined], a call of a non-function). *)
Inductive exn :=
| Exn (v : value)
| NativeTypeError.

Inductive completion (A : Type) :=
| Normal (a : A)
| Throw (e : exn).
Arguments Normal {A} a.
Arguments Throw {A} e.

Definition js (A : Type) : Type := world -> world * completion A.

Definition ret {A} (a : A) : js A := fun w => (w, Normal a).
Definition throw {A} (e : exn) : js A := fun w => (w, Throw e).
Definition bind {A B} (m : js A) (k : A -> js B) : js B :=
  fun w => match m w with
           | (w', Normal a) => k a w'
           | (w', Throw e) => (w', Throw e)
           end.

Notation "x <- m ;; k" := (bind m (fun x => k))
  (at level 100, m at next level, right associativity).
Notation "m ;;; k" := (bind m (fun _ => k))
  (at level 100, right associativity).

(** [try { m } catch (e) { handler e }] *)
Definition try_catch {A} (m : js A) (handler : exn -> js A) : js A :=
  fun w => match m w with
           | (w', Normal a) => (w', Normal a)
           | (w', Throw e) => handler e w'
           end.

(** The own properties of the object at [l]. *)
Definition object_at (w : world) (l : positive) : gmap string value :=
  default ∅ (heap w !! l).

(** The value of property [f] of [v] in world [w]: [undefined] when the
    property is missing, and on the primitives (none of the properties read
    by this package exists on them). *)
Definition prop (w : world) (v : value) (f : string) : value :=
  match v with
  | VRef l => default VUndefined (object_at w l !! f)
  | _ => VUndefined
  end.

(** [v.f]: a [TypeError] on [undefined] and [null]. *)
Definition get (v : value) (f : string) : js value :=
  fun w => match v with
           | VUndefined | VNull => (w, Throw NativeTypeError)
           | _ => (w, Normal (prop w v f))
           end.

(** [v.f = x] in strict mode (class bodies are strict). *)
Definition set (v : value) (f : string) (x : value) : js unit :=
  fun w => match v with
           | VRef l => (with_heap w (<[l := <[f := x]> (object_at w l)]> (heap w)), Normal tt)
           | _ => (w, Throw NativeTypeError)
           end.

(** [new C(...)] / an object literal: a fresh location holding [o]. *)
Definition alloc (o : gmap string value) : js value :=
  fun w => let l := fresh (dom (heap w)) in
           (with_heap w (<[l := o]> (heap w)), Normal (VRef l)).

(** ** The client *)

(** [ErrorClass]: a subclass of [FBError], known by its [name]. *)
Record errorClass := { class_name : string }.

Definition FBJWTClientError : errorClass := {| class_name := "FBJWTClientError" |}.

Record FBJWTClient := {
  ErrorClass : errorClass;
  serviceSecret : value;
  serviceToken : value;
  serviceUrl : value;
  serviceSlug : value
}.

(** Modelled from the spec: the constructor of [FBError] (package
    [@solidgoldpig/fb-utils-node]) is not part of the sources. The spec gives
    the error it builds as [NormalizedError: {name: ErrorClassName, code,
    message}], with [code] and [message] those of the [error] object passed
    in, which is also what the unit tests read back. *)
Definition new_ErrorClass (C : errorClass) (code message : value) : js value :=
  alloc {[ "name" := VStr (class_name C); "code" := code; "message" := message ]}.

(** [throwRequestError (code, message)] *)
Definition throwRequestError {A} (C : errorClass) (code message : value) : js A :=
  let message := js_or message code in
  e <- new_ErrorClass C code message ;;
  throw (Exn e).

(** [getErrorStatusCode (message)] *)
Definition getErrorStatusCode (message : value) : value :=
  let statusCode := VNum 500 in
  if strict_eq message (VStr "ENOTFOUND") then
    VNum 502
  else if strict_eq message (VStr "ECONNREFUSED") then
    VNum 503
  else statusCode.

(** [handleRequestError (err)] *)
Definition handleRequestError {A} (C : errorClass) (err : value) : js A :=
  name <- get err "name" ;;
  if strict_eq name (VStr (class_name C)) then
    throw (Exn err)
  else
    body <- get err "body" ;;
    (if truthy body then
       if String.eqb (typeof body) "object" then set err "error" body else ret tt
     else ret tt) ;;;
    statusCode <- get err "statusCode" ;;
    if truthy statusCode then
      if strict_eq statusCode (VNum 404) then
        throwRequestError C (VNum 404) VUndefined
      else
        error <- get err "error" ;;
        message <-
          (if truthy error then
             name <- get error "name" ;;
             code <- get error "code" ;;
             ret (js_or (js_or name code) (VStr "EUNSPECIFIED"))
           else ret VUndefined) ;;
        throwRequestError C statusCode message
    else
      error <- get err "error" ;;
      if truthy error then
        let errorObj := error in
        name <- get errorObj "name" ;;
        code <- get errorObj "code" ;;
        let message := js_or (js_or name code) (VStr "EUNSPECIFIED") in
        let statusCode := getErrorStatusCode message in
        throwRequestError C statusCode message
      else
        code <- get err "code" ;;
        let message := js_or code (VStr "ENOERROR") in
        let statusCode := getErrorStatusCode message in
        throwRequestError C statusCode message.

(** [new FBJWTClient (serviceSecret, serviceToken, serviceSlug,
    microserviceUrl, errorClass)]; [FBJWTClient.prototype.ErrorClass] is
    [FBJWTClientError]. The default no-op metrics objects are the
    collaborators whose calls the world records. *)
Definition constructor (serviceSecret serviceToken serviceSlug microserviceUrl : value)
    (errorClass : option errorClass) : js FBJWTClient :=
  let this_ErrorClass := match errorClass with Some C => C | None => FBJWTClientError end in
  (if negb (truthy serviceSecret) then
     throwRequestError this_ErrorClass (VStr "ENOSERVICESECRET") (VStr "No service secret passed to client")
   else ret tt) ;;;
  (if negb (truthy serviceToken) then
     throwRequestError this_ErrorClass (VStr "ENOSERVICETOKEN") (VStr "No service token passed to client")
   else ret tt) ;;;
  (if negb (truthy serviceSlug) then
     throwRequestError this_ErrorClass (VStr "ENOSERVICESLUG") (VStr "No service slug passed to client")
   else ret tt) ;;;
  (if negb (truthy microserviceUrl) then
     throwRequestError this_ErrorClass (VStr "ENOMICROSERVICEURL") (VStr "No microservice url passed to client")
   else ret tt) ;;;
  ret {| ErrorClass := this_ErrorClass;
         serviceSecret := serviceSecret;
         serviceToken := serviceToken;
         serviceUrl := microserviceUrl;
         serviceSlug := serviceSlug |}.

(** ** Buffers and base64 *)

(** A [Buffer] is a list of bytes; a string is identified with its UTF-8
    bytes, so that [Buffer.from (s)] only changes the type. *)
Definition Buffer_from (s : string) : list ascii := list_ascii_of_string s.

(** [buf.toString ()] reads the bytes as UTF-8 and puts U+FFFD for what is
    not. It is a parameter. A string of the model is the UTF-8 text of a
    string of JavaScript, and from that text [toString] gives the string
    back; nothing is said of what it gives from other bytes. *)
Class Utf8 := {
  Buffer_toString : list ascii -> string;
  Buffer_toString_from : forall s, Buffer_toString (Buffer_from s) = s
}.

(** The character of a 6-bit group and back; decoding also takes the
    URL-safe [-] and [_], as Node does. *)
Definition base64_char (n : N) : ascii :=
  if (n <? 26)%N then ascii_of_N (n + 65)
  else if (n <? 52)%N then ascii_of_N (n - 26 + 97)
  else if (n <? 62)%N then ascii_of_N (n - 52 + 48)
  else if (n =? 62)%N then "+"%char
  else "/"%char.

Definition base64_index (c : ascii) : option N :=
  let n := N_of_ascii c in
  if ((65 <=? n) && (n <=? 90))%N then Some (n - 65)%N
  else if ((97 <=? n) && (n <=? 122))%N then Some (n - 97 + 26)%N
  else if ((48 <=? n) && (n <=? 57))%N then Some (n - 48 + 52)%N
  else if ((n =? 43) || (n =? 45))%N then Some 62%N
  else if ((n =? 47) || (n =? 95))%N then Some 63%N
  else None.

(** [buf.toString ('base64')]: three bytes give four characters, the last
    group is padded with [=]. *)
Fixpoint base64_encode (b : list ascii) : string :=
  match b with
  | [] => ""
  | [x] =>
      let x := N_of_ascii x in
      String (base64_char (x / 4)) (String (base64_char (x mod 4 * 16)) "==")
  | [x; y] =>
      let x := N_of_ascii x in
      let y := N_of_ascii y in
      String (base64_char (x / 4))
        (String (base64_char (x mod 4 * 16 + y / 16))
           (String (base64_char (y mod 16 * 4)) "="))
  | x :: y :: z :: rest =>
      let x := N_of_ascii x in
      let y := N_of_ascii y in
      let z := N_of_ascii z in
      String (base64_char (x / 4))
        (String (base64_char (x mod 4 * 16 + y / 16))
           (String (base64_char (y mod 16 * 4 + z / 64))
              (String (base64_char (z mod 64)) (base64_encode rest))))
  end.

(** The 6-bit groups of a base64 text: decoding stops at the first [=],
    and every other character outside the alphabet is skipped. *)
Fixpoint base64_groups (s : string) : list N :=
  match s with
  | EmptyString => []
  | String c s' =>
      if Ascii.eqb c "=" then []
      else
        match base64_index c with
        | Some n => n :: base64_groups s'
        | None => base64_groups s'
        end
  end.

Fixpoint base64_bytes (g : list N) : list ascii :=
  match g with
  | a :: b :: c :: d :: rest =>
      ascii_of_N (a * 4 + b / 16)
      :: ascii_of_N (b mod 16 * 16 + c / 4)
      :: ascii_of_N (c mod 4 * 64 + d)
      :: base64_bytes rest
  | [a; b; c] =>
      [ascii_of_N (a * 4 + b / 16); ascii_of_N (b mod 16 * 16 + c / 4)]
  | [a; b] => [ascii_of_N (a * 4 + b / 16)]
  | _ => []
  end.

(** [Buffer.from (s, 'base64')] *)
Definition base64_decode (s : string) : list ascii := base64_bytes (base64_groups s).

(** ** Node's [crypto], as far as the package uses it *)

(** The hash functions and the block cipher are parameters. AES-256-CTR is
    a stream cipher: the cipher and the decipher created with a key and an
    initialization vector both combine their input, byte by byte, with the key
    stream of that key and vector. An MD5 digest has 16 bytes. *)
Class Crypto := {
  sha256 : list ascii -> list ascii;
  md5 : list ascii -> list ascii;
  md5_digest_length : forall data, List.length (md5 data) = 16%nat;
  aes_256_ctr_keystream : list ascii -> list ascii -> nat -> ascii
}.

Definition xor_ascii (a b : ascii) : ascii :=
  match a, b with
  | Ascii a0 a1 a2 a3 a4 a5 a6 a7, Ascii b0 b1 b2 b3 b4 b5 b6 b7 =>
      Ascii (xorb a0 b0) (xorb a1 b1) (xorb a2 b2) (xorb a3 b3)
            (xorb a4 b4) (xorb a5 b5) (xorb a6 b6) (xorb a7 b7)
  end.

(** [cipher.update (data)] of a cipher that has consumed [pos] bytes. *)
Fixpoint ctr_update (keystream : nat -> ascii) (pos : nat) (data : list ascii) : list ascii :=
  match data with
  | [] => []
  | x :: data' => xor_ascii x (keystream pos) :: ctr_update keystream (S pos) data'
  end.

(** ** [fb-jwt-aes256] *)

Module aes256.

Inductive thrown :=
| FBJWTAES256Error (message : string) (code : string)
| TypeError (message : string).

Inductive result (A : Type) :=
| Returned (a : A)
| Threw (t : thrown).
Arguments Returned {A} a.
Arguments Threw {A} t.

Definition string_of (v : value) : string :=
  match v with VStr s => s | _ => "" end.

(** [encrypt (key, plaintext, ivSeed)]; [randomBytes] is what
    [crypto.randomBytes (16)] returns when it is called. *)
Definition encrypt `{Crypto} (randomBytes : list ascii)
    (key plaintext : value) (ivSeed : option string) : result string :=
  if negb (String.eqb (typeof key) "string") || negb (truthy key) then
    Threw (FBJWTAES256Error "Key must be a non-empty string" "ENOENCRYPTKEY")
  else if negb (String.eqb (typeof plaintext) "string") || negb (truthy plaintext) then
    Threw (FBJWTAES256Error "Plaintext value must be a non-empty string" "ENOENCRYPTVALUE")
  else
    let sha256_digest := sha256 (Buffer_from (string_of key)) in
    let iv :=
      match ivSeed with
      | Some seed =>
          if negb (String.eqb seed "") then md5 (Buffer_from seed) else randomBytes
      | None => randomBytes
      end in
    let cipher := aes_256_ctr_keystream sha256_digest iv in
    let ciphertext := ctr_update cipher 0 (Buffer_from (string_of plaintext)) in
    let final := [] in
    let encrypted := base64_encode (iv ++ ciphertext ++ final) in
    Returned encrypted.

(** [decrypt (key, encrypted)] *)
Definition decrypt `{Crypto} `{Utf8} (key encrypted : value) : result string :=
  if negb (String.eqb (typeof key) "string") || negb (truthy key) then
    Threw (FBJWTAES256Error "Key must be a non-empty string" "ENODECRYPTKEY")
  else if negb (String.eqb (typeof encrypted) "string") || negb (truthy encrypted) then
    Threw (FBJWTAES256Error "Encrypted value must be a non-empty string" "ENODECRYPTVALUE")
  else
    let sha256_digest := sha256 (Buffer_from (string_of key)) in
    let input := base64_decode (string_of encrypted) in
    if (List.length input <? 17)%nat then
      Threw (TypeError
               (String.append "Provided "
                  (String "034"%char
                     (String.append "encrypted"
                        (String "034"%char " must decrypt to a non-empty string")))))
    else
      let iv := firstn 16 input in
      let decipher := aes_256_ctr_keystream sha256_digest iv in
      let ciphertext := skipn 16 input in
      let plaintext :=
        String.append (Buffer_toString (ctr_update decipher 0 ciphertext)) (Buffer_toString []) in
      Returned plaintext.

End aes256.

(** ** JSON data and the libraries around the client *)

(** The data a caller hands over as payload or context, and what
    [JSON.parse] builds. An object keeps its properties in order. *)
Inductive jsonValue :=
| JNull
| JBool (b : bool)
| JNum (n : Z)
| JStr (s : string)
| JArr (items : list jsonValue)
| JObj (fields : list (string * jsonValue)).

(** The keys of an object are distinct and none starts with a digit (so
    that none is an array index, which would be enumerated first), and its
    values are strings. *)
Definition starts_with_digit (k : string) : bool :=
  match k with
  | String c _ => (48 <=? N_of_ascii c)%N && (N_of_ascii c <=? 57)%N
  | EmptyString => false
  end.

Definition string_record (fields : list (string * jsonValue)) : Prop :=
  NoDup (List.map fst fields) /\
  Forall (fun kv => starts_with_digit (fst kv) = false /\ exists s, snd kv = JStr s) fields.

(** [JSON.stringify] and [JSON.parse] ([None]: a [SyntaxError]) are
    built-ins; what is used of them is that the text of an object is not
    empty and that an object of strings is parsed back from its text. *)
Class JSON := {
  JSON_stringify : jsonValue -> string;
  JSON_parse : string -> option jsonValue;
  JSON_stringify_object : forall fields, JSON_stringify (JObj fields) <> "";
  JSON_parse_stringify : forall fields,
    string_record fields -> JSON_parse (JSON_stringify (JObj fields)) = Some (JObj fields)
}.

(** [jwt.sign (payload, secret, {algorithm})] of [jsonwebtoken], which
    stamps the token with the time of the call ([iat], in seconds). *)
Class JWT := {
  jwt_sign : jsonValue -> value -> string -> Z -> string
}.

(** [pathToRegexp.compile (urlPattern) (context)]: the path, or [None] when
    the library throws (a placeholder without value). *)
Class PathToRegexp := {
  pathToRegexp_compile : string -> jsonValue -> option string
}.

(** [digest ('hex')] *)
Definition hex_digit (n : N) : ascii :=
  if (n <? 10)%N then ascii_of_N (n + 48) else ascii_of_N (n - 10 + 97).

Fixpoint hex (b : list ascii) : string :=
  match b with
  | [] => ""
  | x :: b' =>
      String (hex_digit (N_of_ascii x / 16)) (String (hex_digit (N_of_ascii x mod 16)) (hex b'))
  end.

(** The numbers of the model are integers. As a number of JavaScript an
    integer is the double nearest to it (ties go to the even one), which is
    the integer itself up to 2 ^ 53; here for an integer from 0. *)
Definition to_double (n : Z) : Z :=
  let e := Z.log2 n in
  if Z.ltb e 53 then n
  else
    let u := 2 ^ (e - 52) in
    let q := n / u in
    let r := n mod u in
    let q' :=
      if Z.ltb (2 * r) u then q
      else if Z.ltb u (2 * r) then q + 1
      else if Z.even q then q else q + 1 in
    q' * u.

Definition decimal_digits (n : Z) : string := NilZero.string_of_int (Z.to_int n).

(** [Number::toString] looks for the fewest digits [k] and the integers
    [s] and [n] with [10 ^ (k - 1) <= s < 10 ^ k] such that the number
    [s * 10 ^ (n - k)] is the double [x]. These are the candidates with [k]
    digits, for an integer [x]: [s] is one of the two integers around
    [x / 10 ^ (n - k)], for [n] the number of digits of [x] or one more. *)
Definition shortest_candidates (x k : Z) : list (Z * Z) :=
  let nd := Z.of_nat (String.length (decimal_digits x)) in
  List.filter
    (fun c : Z * Z =>
       let (s, n) := c in
       Z.leb (10 ^ (k - 1)) s && Z.ltb s (10 ^ k) && Z.leb k n
       && Z.eqb (to_double (s * 10 ^ (n - k))) x)
    (flat_map (fun n => let u := 10 ^ (n - k) in [(x / u, n); (x / u + 1, n)])
       [nd; nd + 1]).

(** Of two candidates the one nearer to [x], and the even one of two that
    are as near. *)
Definition closer (x k : Z) (a b : Z * Z) : Z * Z :=
  let da := Z.abs (fst a * 10 ^ (snd a - k) - x) in
  let db := Z.abs (fst b * 10 ^ (snd b - k) - x) in
  if Z.ltb da db then a
  else if Z.ltb db da then b
  else if Z.even (fst a) then a else b.

(** The search, from [k] digits on: [(s, n, k)]. A double has a candidate
    of 17 digits or less. *)
Fixpoint shortest (fuel : nat) (x k : Z) : Z * Z * Z :=
  match shortest_candidates x k with
  | c :: cs => (fold_left (closer x k) cs c, k)
  | [] =>
      match fuel with
      | O => (x, Z.of_nat (String.length (decimal_digits x)),
              Z.of_nat (String.length (decimal_digits x)))
      | S fuel' => shortest fuel' x (k + 1)
      end
  end.

(** [Number::toString (n)]: the digits and zeros up to 21 digits, the
    exponent form from there on. *)
Definition Number_toString (n : Z) : string :=
  if Z.eqb n 0 then "0"
  else
    let sign := if Z.ltb n 0 then "-" else "" in
    let x := to_double (Z.abs n) in
    if Z.leb (2 ^ 1024) x then String.append sign "Infinity"
    else
      let '(s, n', k) := shortest 17 x 1 in
      let digits := decimal_digits s in
      if Z.leb n' 21 then
        String.append sign
          (String.append digits (string_of_list_ascii (repeat "0"%char (Z.to_nat (n' - k)))))
      else
        let exponent := String.append "e+" (decimal_digits (n' - 1)) in
        match digits with
        | EmptyString => ""
        | String d EmptyString => String.append sign (String d exponent)
        | String d rest =>
            String.append sign (String d (String "." (String.append rest exponent)))
        end.

(** [String (v)], for [v + s] *)
Definition ToString (v : value) : string :=
  match v with
  | VUndefined => "undefined"
  | VNull => "null"
  | VBool true => "true"
  | VBool false => "false"
  | VNum n => Number_toString n
  | VStr s => s
  | VRef _ => "[object Object]"
  | VEndTimer _ _ => "() => {}"
  end.

(** algo to encrypt user data with *)
Definition algorithm : string := "HS256".

(** ** The client's methods on data *)

(** [generateAccessToken (data)]; [now] is the clock [jwt.sign] reads. *)
Definition generateAccessToken `{Crypto} `{JSON} `{JWT}
    (this : FBJWTClient) (now : Z) (data : jsonValue) : string :=
  let checksum := hex (sha256 (Buffer_from (JSON_stringify data))) in
  let payload := JObj [("checksum", JStr checksum)] in
  let accessToken := jwt_sign payload (serviceToken this) algorithm now in
  accessToken.

(** [encrypt (token, data, ivSeed)] *)
Definition encrypt `{Crypto} `{JSON} (randomBytes : list ascii)
    (token : value) (data : jsonValue) (ivSeed : option string) : aes256.result string :=
  let dataString := JSON_stringify data in
  let encryptedData := aes256.encrypt randomBytes token (VStr dataString) ivSeed in
  encryptedData.

(** [decrypt (token, encryptedData)]: whatever is thrown inside the [try]
    block is replaced by the client's [EINVALIDPAYLOAD]. *)
Definition decrypt `{Crypto} `{JSON} `{Utf8} (this : FBJWTClient)
    (token encryptedData : value) : js jsonValue :=
  let tried :=
    match aes256.decrypt token encryptedData with
    | aes256.Returned data => JSON_parse data
    | aes256.Threw e => None
    end in
  match tried with
  | Some data => ret data
  | None => throwRequestError (ErrorClass this) (VNum 500) (VStr "EINVALIDPAYLOAD")
  end.

(** [encryptUserIdAndToken (userId, userToken)] *)
Definition encryptUserIdAndToken `{Crypto} `{JSON} (this : FBJWTClient)
    (randomBytes : list ascii) (userId userToken : string) : aes256.result string :=
  let serviceSecret := serviceSecret this in
  let ivSeed := String.append userId userToken in
  encrypt randomBytes serviceSecret
    (JObj [("userId", JStr userId); ("userToken", JStr userToken)]) (Some ivSeed).

(** [decryptUserIdAndToken (encryptedData)] *)
Definition decryptUserIdAndToken `{Crypto} `{JSON} `{Utf8} (this : FBJWTClient)
    (encryptedData : value) : js jsonValue :=
  let serviceSecret := serviceSecret this in
  decrypt this serviceSecret encryptedData.

(** [createEndpointUrl (urlPattern, context = {})]; [None] when the
    compiled pattern throws. *)
Definition createEndpointUrl `{PathToRegexp} (this : FBJWTClient)
    (urlPattern : string) (context : option jsonValue) : option string :=
  let context := default (JObj []) context in
  match pathToRegexp_compile urlPattern context with
  | Some path =>
      let endpointUrl := String.append (ToString (serviceUrl this)) path in
      Some endpointUrl
  | None => None
  end.

Record Headers := { x_access_token : string }.

Record SearchParams := { payload : string }.

Record RequestOptions := {
  url : string;
  headers : Headers;
  body : option jsonValue;
  searchParams : option SearchParams;
  json : bool
}.

(** Assignments to the properties of the options object; [json] is
    [false] as long as the property is not set. *)
Definition set_body (o : RequestOptions) (b : jsonValue) : RequestOptions :=
  {| url := url o; headers := headers o; body := Some b;
     searchParams := searchParams o; json := json o |}.

Definition set_searchParams (o : RequestOptions) (sp : SearchParams) : RequestOptions :=
  {| url := url o; headers := headers o; body := body o;
     searchParams := Some sp; json := json o |}.

Definition set_json (o : RequestOptions) (b : bool) : RequestOptions :=
  {| url := url o; headers := headers o; body := body o;
     searchParams := searchParams o; json := b |}.

(** [createRequestOptions (urlPattern, context, data = {}, searchParams)].
    The payload is an object, as documented, given by its properties. The
    local constant [json] of the source is [json_or_true] here. *)
Definition createRequestOptions `{Crypto} `{JSON} `{JWT} `{PathToRegexp}
    (this : FBJWTClient) (now : Z) (urlPattern : string) (context : option jsonValue)
    (data : option (list (string * jsonValue))) (searchParams : value)
    : completion RequestOptions :=
  let data := default [] data in
  let accessToken := generateAccessToken this now (JObj data) in
  match createEndpointUrl this urlPattern context with
  | None => Throw NativeTypeError
  | Some url =>
      let hasData := List.length (List.map fst data) in
      let json_or_true :=
        if negb (hasData =? 0)%nat && negb (truthy searchParams) then JObj data else JBool true in
      let requestOptions :=
        {| url := url; headers := {| x_access_token := accessToken |};
           body := None; searchParams := None; json := false |} in
      let requestOptions :=
        if negb (hasData =? 0)%nat && negb (truthy searchParams) then
          set_body requestOptions json_or_true
        else requestOptions in
      let requestOptions :=
        if truthy searchParams && negb (hasData =? 0)%nat then
          set_searchParams requestOptions
            {| payload := base64_encode (Buffer_from (JSON_stringify (JObj data))) |}
        else requestOptions in
      let requestOptions := set_json requestOptions true in
      Normal requestOptions
  end.

(** ** The dispatch pipeline *)

(** White space and line terminators, which [trim] and the conversion of
    a string to a number strip, in UTF-8: U+0009 to U+000D and U+0020 of
    one byte; U+00A0 of two bytes; U+1680, U+2000 to U+200A, U+2028, U+2029,
    U+202F, U+205F, U+3000 and U+FEFF of three bytes. *)
Definition is_white_space (c : ascii) : bool :=
  let n := N_of_ascii c in
  ((9 <=? n) && (n <=? 13))%N || (n =? 32)%N.

Definition is_white_space2 (c1 c2 : ascii) : bool :=
  ((N_of_ascii c1 =? 194) && (N_of_ascii c2 =? 160))%N.

Definition is_white_space3 (c1 c2 c3 : ascii) : bool :=
  let a := N_of_ascii c1 in
  let b := N_of_ascii c2 in
  let c := N_of_ascii c3 in
  (((a =? 225) && (b =? 154) && (c =? 128))
   || ((a =? 226) && (b =? 128)
       && (((128 <=? c) && (c <=? 138)) || (c =? 168) || (c =? 169) || (c =? 175)))
   || ((a =? 226) && (b =? 129) && (c =? 159))
   || ((a =? 227) && (b =? 128) && (c =? 128))
   || ((a =? 239) && (b =? 187) && (c =? 191)))%N.

Fixpoint trim_start (s : string) : string :=
  match s with
  | EmptyString => ""
  | String c1 s1 =>
      if is_white_space c1 then trim_start s1
      else
        match s1 with
        | String c2 s2 =>
            if is_white_space2 c1 c2 then trim_start s2
            else
              match s2 with
              | String c3 s3 => if is_white_space3 c1 c2 c3 then trim_start s3 else s
              | EmptyString => s
              end
        | EmptyString => s
        end
  end.

(** The same from the end, on the bytes in reverse order. *)
Fixpoint trim_end_reversed (b : list ascii) : list ascii :=
  match b with
  | [] => []
  | c1 :: b1 =>
      if is_white_space c1 then trim_end_reversed b1
      else
        match b1 with
        | c2 :: b2 =>
            if is_white_space2 c2 c1 then trim_end_reversed b2
            else
              match b2 with
              | c3 :: b3 => if is_white_space3 c3 c2 c1 then trim_end_reversed b3 else b
              | [] => b
              end
        | [] => b
        end
  end.

Definition trim_end (s : string) : string :=
  string_of_list_ascii (rev (trim_end_reversed (rev (list_ascii_of_string s)))).

(** What [ToNumber] gives: [NaN]; an integer, as the numbers of the model
    are; the decimal [digits * 10 ^ exponent] written in a string, which
    JavaScript then rounds to the nearest double; an infinity. *)
Inductive number :=
| NaN
| Integer (n : Z)
| Decimal (negative : bool) (digits : Z) (exponent : Z)
| Infinity (negative : bool).

Definition digit_of (c : ascii) : option N :=
  let n := N_of_ascii c in
  if ((48 <=? n) && (n <=? 57))%N then Some (n - 48)%N
  else if ((97 <=? n) && (n <=? 102))%N then Some (n - 97 + 10)%N
  else if ((65 <=? n) && (n <=? 70))%N then Some (n - 65 + 10)%N
  else None.

(** The number the whole of [s] writes in the given base, after the
    digits read so far; [None] when a character is no digit of the base. *)
Fixpoint digits_in (base : Z) (acc : Z) (s : string) : option Z :=
  match s with
  | EmptyString => Some acc
  | String c s' =>
      match digit_of c with
      | Some d =>
          if Z.ltb (Z.of_N d) base then digits_in base (acc * base + Z.of_N d) s' else None
      | None => None
      end
  end.

(** The decimal digits [s] starts with: their number after those read so
    far, how many they are, and the rest of [s]. *)
Fixpoint leading_digits (acc : Z) (count : Z) (s : string) : Z * Z * string :=
  match s with
  | EmptyString => (acc, count, s)
  | String c s' =>
      let n := N_of_ascii c in
      if ((48 <=? n) && (n <=? 57))%N then
        leading_digits (acc * 10 + Z.of_N (n - 48)) (count + 1) s'
      else (acc, count, s)
  end.

(** [ExponentPart], or nothing: the exponent, if [s] is that. *)
Definition exponent_part (s : string) : option Z :=
  match s with
  | EmptyString => Some 0
  | String c s1 =>
      if Ascii.eqb c "e" || Ascii.eqb c "E" then
        let '(negative, s2) :=
          match s1 with
          | String "+" r => (false, r)
          | String "-" r => (true, r)
          | _ => (false, s1)
          end in
        match leading_digits 0 0 s2 with
        | (e, count, EmptyString) =>
            if Z.eqb count 0 then None else Some (if negative then - e else e)
        | _ => None
        end
      else None
  end.

(** [StrUnsignedDecimalLiteral] other than [Infinity]: digits, a point
    and digits, an exponent, with a digit before or after the point. *)
Definition unsigned_decimal (s : string) : option (Z * Z) :=
  let '(whole, count, s1) := leading_digits 0 0 s in
  let '(digits, decimals, s2) :=
    match s1 with
    | String "." r => leading_digits whole 0 r
    | _ => (whole, 0, s1)
    end in
  if Z.eqb count 0 && Z.eqb decimals 0 then None
  else
    match exponent_part s2 with
    | Some e => Some (digits, e - decimals)
    | None => None
    end.

(** [StringToNumber]: white space around is stripped; the empty string is
    0; a binary, octal or hexadecimal integer has no sign; a decimal may
    have one. *)
Definition StringToNumber (s : string) : number :=
  let non_decimal (base : Z) (r : string) :=
    match r with
    | EmptyString => NaN
    | _ => match digits_in base 0 r with Some n => Integer n | None => NaN end
    end in
  let decimal (negative : bool) (r : string) :=
    if String.eqb r "Infinity" then Infinity negative
    else
      match unsigned_decimal r with
      | Some (digits, exponent) => Decimal negative digits exponent
      | None => NaN
      end in
  match trim_end (trim_start s) with
  | EmptyString => Integer 0
  | String "0" (String "x" r) | String "0" (String "X" r) => non_decimal 16 r
  | String "0" (String "o" r) | String "0" (String "O" r) => non_decimal 8 r
  | String "0" (String "b" r) | String "0" (String "B" r) => non_decimal 2 r
  | String "+" r => decimal false r
  | String "-" r => decimal true r
  | t => decimal false t
  end.

(** [ToNumber]; an object of this package is a plain object, whose
    primitive value is no numeral, and so is that of a function. *)
Definition ToNumber (v : value) : number :=
  match v with
  | VUndefined => NaN
  | VNull => Integer 0
  | VBool true => Integer 1
  | VBool false => Integer 0
  | VNum n => Integer n
  | VStr s => StringToNumber s
  | VRef _ => NaN
  | VEndTimer _ _ => NaN
  end.

(** Whether [digits * 10 ^ exponent] is at least the integer [n]. *)
Definition decimal_ge (digits exponent n : Z) : bool :=
  if Z.leb 0 exponent then Z.leb n (digits * 10 ^ exponent)
  else Z.leb (n * 10 ^ (- exponent)) digits.

(** Whether the double nearest to [digits * 10 ^ exponent] is at least
    the integer [n], from 1 and below 2 ^ 52: the doubles just below [n]
    are [2 ^ - q] apart for [q] as below, half of which rounds up to [n]
    (ties go to the even one, and [n] is). *)
Definition rounded_ge (digits exponent n : Z) : bool :=
  let e := Z.log2 n in
  let q := if Z.eqb n (2 ^ e) then 53 - e else 52 - e in
  let bound := n * 2 ^ (q + 1) - 1 in
  if Z.leb 0 exponent then Z.leb bound (digits * 10 ^ exponent * 2 ^ (q + 1))
  else Z.leb (bound * 10 ^ (- exponent)) (digits * 2 ^ (q + 1)).

(** [x >= n] for a number [x] that is not [NaN] (the numbers compared
    with in this package are 300 and 400). *)
Definition number_ge (x : number) (n : Z) : bool :=
  match x with
  | NaN => false
  | Integer m => Z.leb n m
  | Decimal true digits exponent => decimal_ge (- digits) exponent n
  | Decimal false digits exponent =>
      if Z.leb 1 n && Z.ltb n (2 ^ 52) then rounded_ge digits exponent n
      else decimal_ge digits exponent n
  | Infinity negative => negb negative
  end.

(** [v >= n] and [v < n] *)
Definition js_ge (v : value) (n : Z) : bool := number_ge (ToNumber v) n.

Definition js_lt (v : value) (n : Z) : bool :=
  match ToNumber v with
  | NaN => false
  | x => negb (number_ge x n)
  end.

(** [v.trim ()]; only strings have the method. *)
Definition trim (v : value) : js value :=
  match v with
  | VStr s => ret (VStr (trim_end (trim_start s)))
  | _ => throw NativeTypeError
  end.

Fixpoint toLowerCase (s : string) : string :=
  match s with
  | EmptyString => ""
  | String c s' =>
      let n := N_of_ascii c in
      String (if ((65 <=? n) && (n <=? 90))%N then ascii_of_N (n + 32) else c) (toLowerCase s')
  end.

(** [getResponseLabels (response)] *)
Definition getResponseLabels (response : value) : js responseLabels :=
  statusCode <- get response "statusCode" ;;
  statusMessage <- get response "statusMessage" ;;
  name <- get response "name" ;;
  ret {| status_code := statusCode;
         status_message := if truthy statusMessage then Some statusMessage else None;
         error_name := if truthy name then Some name else None |}.

(** [metrics.startTimer (labels)]: the collaborator records the start and
    returns the function that ends this timer. *)
Definition startTimer (hg : histogram) (labels : requestLabels) : js value :=
  fun w => let handle := List.length (metrics w) in
           (with_metrics w (metrics w ++ [StartTimer hg handle labels]),
            Normal (VEndTimer hg handle)).

(** [f (labels)], for [f] one of the two timer variables. *)
Definition call_end (f : value) (labels : responseLabels) : js unit :=
  fun w => match f with
           | VEndTimer hg handle =>
               (with_metrics w (metrics w ++ [EndTimer hg handle labels]), Normal tt)
           | _ => (w, Throw NativeTypeError)
           end.

Definition read_requestMetricsEnd : js value := fun w => (w, Normal (requestMetricsEnd w)).
Definition write_requestMetricsEnd (v : value) : js unit :=
  fun w => (with_requestMetricsEnd w v, Normal tt).
Definition read_retryCounter : js value := fun w => (w, Normal (retryCounter w)).
Definition write_retryCounter (v : value) : js unit :=
  fun w => (with_retryCounter w v, Normal tt).

(** [logError (type, error, labels, logger)] of the client; the logger is
    given or [undefined]. The response object of the error is only read for
    the message. *)
Definition logError (type : string) (error : value) (labels : requestLabels)
    (name : string) (logger : bool) : js unit :=
  error_error <- get error "error" ;;
  error_body <- get error "body" ;;
  gotOptions <- get error "gotOptions" ;;
  (if truthy gotOptions then
     client_headers <- get gotOptions "headers" ;;
     set error "client_headers" client_headers
   else ret tt) ;;;
  if logger then
    fun w => (with_logged w (logged w ++ [{| log_name := name; log_labels := labels;
                                             log_error := error |}]), Normal tt)
  else throw NativeTypeError.

(** The [logError] of [send]. *)
Definition send_logError (labels : requestLabels) (logger : bool) (type : string) (e : value)
    : js unit :=
  let errorType :=
    String.append "jwt_" (String.append (toLowerCase type) "_request_error") in
  logError type e labels errorType logger.

(** The four hooks [send] hands to the transport. *)
Definition beforeRequest (labels : requestLabels) : js unit :=
  e <- startTimer RequestMetrics labels ;;
  write_requestMetricsEnd e.

Definition beforeRetry (labels : requestLabels) (logger : bool)
    (error retryCount : value) : js unit :=
  set error "retryCount" retryCount ;;;
  write_retryCounter retryCount ;;;
  send_logError labels logger "client" error ;;;
  (requestMetricsEnd <- read_requestMetricsEnd ;;
   if truthy requestMetricsEnd then
     l <- getResponseLabels error ;;
     call_end requestMetricsEnd l
   else ret tt) ;;;
  e <- startTimer RequestMetrics labels ;;
  write_requestMetricsEnd e.

Definition beforeError (error : value) : js value :=
  retryCounter <- read_retryCounter ;;
  set error "retryCount" retryCounter ;;;
  requestMetricsEnd <- read_requestMetricsEnd ;;
  l <- getResponseLabels error ;;
  call_end requestMetricsEnd l ;;;
  ret error.

Definition afterResponse (labels : requestLabels) (logger : bool) (response : value) : js value :=
  statusCode <- get response "statusCode" ;;
  (if js_ge statusCode 400 then
     statusMessage <- get response "statusMessage" ;;
     body <- get response "body" ;;
     retryCount <- get response "retryCount" ;;
     error <- alloc {[ "statusCode" := statusCode; "statusMessage" := statusMessage;
                       "body" := body; "retryCount" := retryCount ]} ;;
     send_logError labels logger "client" error
   else ret tt) ;;;
  requestMetricsEnd <- read_requestMetricsEnd ;;
  l <- getResponseLabels response ;;
  call_end requestMetricsEnd l ;;;
  body <- get response "body" ;;
  set response "body" (js_or body (VStr "{}")) ;;;
  ret response.

(** The transport is a black box that calls the hooks. What it does during
    one call is a tree: it ends by resolving with a response or rejecting
    with an error; before that it calls a hook and goes on (with what the
    hook returned, for the two hooks that return something), works on
    objects of its own (building a response, parsing a body), or looks at
    the heap to decide how to go on. *)
Inductive transport :=
| Resolve (response : value)
| Reject (error : value)
| CallBeforeRequest (next : transport)
| CallBeforeRetry (error retryCount : value) (next : transport)
| CallBeforeError (error : value) (next : value -> transport)
| CallAfterResponse (response : value) (next : value -> transport)
| Work (f : gmap positive (gmap string value) -> gmap positive (gmap string value))
    (next : transport)
| Look (next : gmap positive (gmap string value) -> transport).

(** [got[method] (gotOptions)], with the options that [send] merges: the
    caller's and the request options. *)
Class Got := {
  got : string -> option jsonValue -> RequestOptions -> transport
}.

(** The value [catch (error)] binds: a [TypeError] of the runtime is an
    object with that name. *)
Definition caught (e : exn) : js value :=
  match e with
  | Exn v => ret v
  | NativeTypeError => alloc {[ "name" := VStr "TypeError" ]}
  end.

(** What got 9.6.0 does with an exception of the code around a request or
    a retry ([emitError]): the [beforeError] hook gets the error, and the
    call rejects with what the hook returns, or with what the hook throws. *)
Definition emitError (e : exn) : js value :=
  error <- caught e ;;
  error' <- beforeError error ;;
  throw (Exn error').

(** A hook that got calls before a request or a retry: the call goes on
    when the hook returns, and what the hook throws goes to [emitError]. *)
Definition hooked (hook : js unit) (next : js value) : js value :=
  fun w => match hook w with
           | (w', Normal _) => next w'
           | (w', Throw e) => emitError e w'
           end.

(** [await got[method] (gotOptions)]: the hooks run where the transport
    calls them; an exception in [beforeRequest] or [beforeRetry] goes
    through [beforeError] before it rejects the call, one in [beforeError]
    or [afterResponse] rejects the call. *)
Fixpoint await (labels : requestLabels) (logger : bool) (t : transport) : js value :=
  match t with
  | Resolve response => ret response
  | Reject error => throw (Exn error)
  | CallBeforeRequest next =>
      hooked (beforeRequest labels) (await labels logger next)
  | CallBeforeRetry error retryCount next =>
      hooked (beforeRetry labels logger error retryCount) (await labels logger next)
  | CallBeforeError error next =>
      error' <- beforeError error ;; await labels logger (next error')
  | CallAfterResponse response next =>
      response' <- afterResponse labels logger response ;; await labels logger (next response')
  | Work f next =>
      (fun w => (with_heap w (f (heap w)), Normal tt)) ;;; await labels logger next
  | Look next =>
      fun w => await labels logger (next (heap w)) w
  end.

Record sendArgs := {
  args_url : string;
  args_context : option jsonValue;
  args_payload : option (list (string * jsonValue));
  args_sendOptions : option jsonValue
}.

(** The labels of a call. *)
Definition send_labels (this : FBJWTClient) (method : string) (args : sendArgs) : requestLabels :=
  {| client_name := "FBJWTClient";
     base_url := serviceUrl this;
     label_url := args_url args;
     label_method := method |}.

(** The [catch] block of [send]. *)
Definition send_catch (this : FBJWTClient) (labels : requestLabels) (logger : bool)
    (apiMetricsEnd : value) (e : exn) : js value :=
  error <- caught e ;;
  (* Horrible kludge to handle services returning ' ' as body *)
  response <- get error "response" ;;
  tolerated <-
    (if truthy response then
       statusCode <- get response "statusCode" ;;
       if js_lt statusCode 300 then
         body <- get response "body" ;;
         if truthy body then
           trimmed <- trim body ;;
           ret (negb (truthy trimmed))
         else ret false
       else ret false
     else ret false) ;;
  if (tolerated : bool) then
    requestMetricsEnd <- read_requestMetricsEnd ;;
    l <- getResponseLabels response ;;
    call_end requestMetricsEnd l ;;;
    alloc ∅
  else
    l <- getResponseLabels error ;;
    call_end apiMetricsEnd l ;;;
    (if logger then send_logError labels logger "API" error else ret tt) ;;;
    handleRequestError (ErrorClass this) error.

(** [send (method, args, logger)] *)
Definition send `{Crypto} `{JSON} `{JWT} `{PathToRegexp} `{Got}
    (this : FBJWTClient) (now : Z) (method : string) (args : sendArgs) (logger : bool)
    : js value :=
  let url := args_url args in
  let context := default (JObj []) (args_context args) in
  match createRequestOptions this now url (Some context) (args_payload args)
          (VBool (String.eqb method "get")) with
  | Throw e => throw e
  | Normal options =>
      let labels := send_labels this method args in
      write_requestMetricsEnd VUndefined ;;;
      write_retryCounter (VNum 1) ;;;
      let gotOptions := got method (args_sendOptions args) options in
      apiMetricsEnd <- startTimer ApiMetrics labels ;;
      try_catch
        (response <- await labels logger gotOptions ;;
         l <- getResponseLabels response ;;
         call_end apiMetricsEnd l ;;;
         get response "body")
        (send_catch this labels logger apiMetricsEnd)
  end.

(** [sendGet (args, logger)] and [sendPost (args, logger)] *)
Definition sendGet `{Crypto} `{JSON} `{JWT} `{PathToRegexp} `{Got}
    (this : FBJWTClient) (now : Z) (args : sendArgs) (logger : bool) : js value :=
  send this now "get" args logger.

Definition sendPost `{Crypto} `{JSON} `{JWT} `{PathToRegexp} `{Got}
    (this : FBJWTClient) (now : Z) (args : sendArgs) (logger : bool) : js value :=
  send this now "post" args logger.

(** How often the timer with this handle was ended, and whether it was
    started. *)
Definition ended (hg : histogram) (handle : nat) (m : list metric_event) : nat :=
  List.length (List.filter (fun ev => match ev with
                              | EndTimer hg' handle' _ =>
                                  bool_decide (hg' = hg) && Nat.eqb handle' handle
                              | StartTimer _ _ _ => false
                              end) m).

Definition started (hg : histogram) (handle : nat) (m : list metric_event) : bool :=
  existsb (fun ev => match ev with
                     | StartTimer hg' handle' _ =>
                         bool_decide (hg' = hg) && Nat.eqb handle' handle
                     | EndTimer _ _ _ => false
                     end) m.

(** ** Stand-ins for the libraries, on which the examples are evaluated *)

(** JSON texts: the serializer writes what [JSON.stringify] writes, for
    integers, strings, arrays and objects; the parser reads the objects of
    strings back (without white space) and refuses every other text. *)
Definition dquote : ascii := "034"%char.
Definition backslash : ascii := "092"%char.

Definition escape_char (c : ascii) : string :=
  let n := N_of_ascii c in
  if (n =? 34)%N then String backslash (String dquote "")
  else if (n =? 92)%N then String backslash (String backslash "")
  else if (n =? 8)%N then String backslash "b"
  else if (n =? 9)%N then String backslash "t"
  else if (n =? 10)%N then String backslash "n"
  else if (n =? 12)%N then String backslash "f"
  else if (n =? 13)%N then String backslash "r"
  else if (n <? 32)%N then
    String backslash
      (String "u" (String "0" (String "0"
         (String (hex_digit (n / 16)) (String (hex_digit (n mod 16)) "")))))
  else String c "".

Fixpoint escape (s : string) : string :=
  match s with
  | EmptyString => ""
  | String c s' => String.append (escape_char c) (escape s')
  end.

Definition quote (s : string) : string :=
  String dquote (String.append (escape s) (String dquote "")).

Fixpoint example_stringify (v : jsonValue) : string :=
  match v with
  | JNull => "null"
  | JBool true => "true"
  | JBool false => "false"
  | JNum n => Number_toString n
  | JStr s => quote s
  | JArr items =>
      String.append "[" (String.append (String.concat "," (List.map example_stringify items)) "]")
  | JObj fields =>
      String.append "{"
        (String.append
           (String.concat ","
              (List.map (fun kv => String.append (quote (fst kv))
                                     (String.append ":" (example_stringify (snd kv))))
                 fields))
           "}")
  end.

Definition hex_value (c : ascii) : option N :=
  let n := N_of_ascii c in
  if ((48 <=? n) && (n <=? 57))%N then Some (n - 48)%N
  else if ((97 <=? n) && (n <=? 102))%N then Some (n - 97 + 10)%N
  else if ((65 <=? n) && (n <=? 70))%N then Some (n - 65 + 10)%N
  else None.

Definition cons_char (c : ascii) (r : option (string * string)) : option (string * string) :=
  match r with
  | Some (s, rest) => Some (String c s, rest)
  | None => None
  end.

(** The characters of a string literal after its opening quote, and the
    text after its closing quote. *)
Fixpoint parse_string_body (s : string) : option (string * string) :=
  match s with
  | EmptyString => None
  | String c s' =>
      if Ascii.eqb c dquote then Some ("", s')
      else if Ascii.eqb c backslash then
        match s' with
        | String e s'' =>
            if Ascii.eqb e dquote || Ascii.eqb e backslash || Ascii.eqb e "/" then
              cons_char e (parse_string_body s'')
            else if Ascii.eqb e "b" then cons_char "008" (parse_string_body s'')
            else if Ascii.eqb e "t" then cons_char "009" (parse_string_body s'')
            else if Ascii.eqb e "n" then cons_char "010" (parse_string_body s'')
            else if Ascii.eqb e "f" then cons_char "012" (parse_string_body s'')
            else if Ascii.eqb e "r" then cons_char "013" (parse_string_body s'')
            else if Ascii.eqb e "u" then
              match s'' with
              | String "0" (String "0" (String h (String l s3))) =>
                  match hex_value h, hex_value l with
                  | Some h, Some l =>
                      if (h <? 8)%N then
                        cons_char (ascii_of_N (h * 16 + l)) (parse_string_body s3)
                      else None
                  | _, _ => None
                  end
              | _ => None
              end
            else None
        | EmptyString => None
        end
      else if (N_of_ascii c <? 32)%N then None
      else cons_char c (parse_string_body s')
  end.

Definition parse_member (s : string) : option ((string * jsonValue) * string) :=
  match s with
  | String c s1 =>
      if Ascii.eqb c dquote then
        match parse_string_body s1 with
        | Some (k, String ":" (String c' s2)) =>
            if Ascii.eqb c' dquote then
              match parse_string_body s2 with
              | Some (v, rest) => Some ((k, JStr v), rest)
              | None => None
              end
            else None
        | _ => None
        end
      else None
  | EmptyString => None
  end.

Fixpoint parse_members (fuel : nat) (s : string) : option (list (string * jsonValue)) :=
  match fuel with
  | O => None
  | S fuel' =>
      match parse_member s with
      | Some (kv, String "," rest) => option_map (cons kv) (parse_members fuel' rest)
      | Some (kv, String "}" EmptyString) => Some [kv]
      | _ => None
      end
  end.

Definition example_parse (s : string) : option jsonValue :=
  match s with
  | String "{" (String "}" EmptyString) => Some (JObj [])
  | String "{" rest => option_map JObj (parse_members (String.length rest) rest)
  | _ => None
  end.

(** A token that shows what was signed, with what and when. *)
Definition example_JWT : JWT := {|
  jwt_sign payload secret alg now :=
    String.append alg
      (String.append "." (String.append (example_stringify payload)
         (String.append "." (String.append (ToString secret)
            (String.append "." (NilZero.string_of_int (Z.to_int now)))))))
|}.

(** A pattern without placeholder is its own path; the others are not
    handled. *)
Definition has_placeholder (urlPattern : string) : bool :=
  existsb (Ascii.eqb ":") (list_ascii_of_string urlPattern).

Definition example_PathToRegexp : PathToRegexp := {|
  pathToRegexp_compile urlPattern context :=
    if has_placeholder urlPattern then None else Some urlPattern
|}.

(** A transport for the examples, which makes one attempt and receives
    the response with the given status and body. As the HTTP library of the
    package does under [json: true], it calls the request hook and the
    response hook, parses a non-empty body (an object of strings, with the
    stand-in parser), rejects with a [ParseError] that carries the response
    when a body with a 2xx status does not parse, rejects with an
    [HTTPError] that carries the response when the status is not 2xx or 3xx,
    and resolves with the response otherwise. Its objects are stored at
    fresh locations. *)
Definition object_of_fields (fields : list (string * jsonValue)) : gmap string value :=
  list_to_map (List.map (fun kv => (fst kv, match snd kv with
                                            | JStr s => VStr s
                                            | _ => VNull
                                            end)) fields).

Definition example_new (o : gmap string value) (next : value -> transport) : transport :=
  Look (fun h => let l := fresh (dom h) in Work (fun h => <[l := o]> h) (next (VRef l))).

Definition example_finish (statusCode : Z) (statusMessage : string) (response : value)
    : transport :=
  if Z.ltb statusCode 200 || Z.ltb 399 statusCode then
    example_new {[ "name" := VStr "HTTPError";
                   "statusCode" := VNum statusCode;
                   "statusMessage" := VStr statusMessage;
                   "response" := response ]} Reject
  else Resolve response.

Definition example_set_body (response body : value) (next : transport) : transport :=
  match response with
  | VRef r => Work (fun h => <[r := <["body" := body]> (default ∅ (h !! r))]> h) next
  | _ => next
  end.

Definition example_attempt `{JSON} (statusCode : Z) (statusMessage : string) (body : value)
    : transport :=
  example_new {[ "statusCode" := VNum statusCode; "body" := body ]} (fun response =>
    CallBeforeRequest
      (CallAfterResponse response (fun response =>
         Look (fun h =>
           match prop (world_of h) response "body" with
           | VStr text =>
               if String.eqb text "" then example_finish statusCode statusMessage response
               else
                 match JSON_parse text with
                 | Some (JObj fields) =>
                     example_new (object_of_fields fields) (fun parsed =>
                       example_set_body response parsed
                         (example_finish statusCode statusMessage response))
                 | _ =>
                     if Z.leb 200 statusCode && Z.ltb statusCode 300 then
                       example_new {[ "name" := VStr "ParseError"; "response" := response ]}
                         Reject
                     else example_finish statusCode statusMessage response
                 end
           | _ => example_finish statusCode statusMessage response
           end)))).

Definition example_Got `{JSON} (statusCode : Z) (statusMessage : string) (body : value) : Got :=
  {| got method sendOptions options := example_attempt statusCode statusMessage body |}.

Definition example_client : FBJWTClient :=
  {| ErrorClass := FBJWTClientError;
     serviceSecret := VStr "testServiceSecret";
     serviceToken := VStr "testServiceToken";
     serviceUrl := VStr "http://testdomain";
     serviceSlug := VStr "testServiceSlug" |}.

Definition example_args (url : string) : sendArgs :=
  {| args_url := url; args_context := None; args_payload := None; args_sendOptions := None |}.

(** ** Reading results *)

(** The object [new ErrorClass ({error: {code, message}})] holds. *)
Definition error_object (C : errorClass) (code message : value) : gmap string value :=
  {[ "name" := VStr (class_name C); "code" := code; "message" := message ]}.

(** [r] is the result of throwing, from world [w], a newly built error of
    class [C] with the given code and message: the error is a fresh object,
    nothing else in the world changes. *)
Definition throws_new {A} (C : errorClass) (code message : value) (w : world)
    (r : world * completion A) : Prop :=
  exists l, heap w !! l = None /\
    r = (with_heap w (<[l := error_object C code message]> (heap w)), Throw (Exn (VRef l))).

(** Rule 2 of [handleRequestError], as a function on worlds: an [err.body]
    that is an object becomes [err.error]. *)
Definition body_as_error (w : world) (err : value) : world :=
  match err, prop w err "body" with
  | VRef l, VRef b => with_heap w (<[l := <["error" := VRef b]> (object_at w l)]> (heap w))
  | _, _ => w
  end.

(** [message = err.error.name || err.error.code || 'EUNSPECIFIED'] *)
Definition error_message (w : world) (error : value) : value :=
  js_or (js_or (prop w error "name") (prop w error "code")) (VStr "EUNSPECIFIED").

(** The initialization vector [encrypt] uses. *)
Definition encrypt_iv `{Crypto} (randomBytes : list ascii) (ivSeed : option string) : list ascii :=
  match ivSeed with
  | Some seed => if negb (String.eqb seed "") then md5 (Buffer_from seed) else randomBytes
  | None => randomBytes
  end.

(** The world in which the transport is awaited: the two shared variables
    are initialized and the api timer is started. *)
Definition send_started (labels : requestLabels) (w : world) : world :=
  with_metrics (with_retryCounter (with_requestMetricsEnd w VUndefined) (VNum 1))
    (metrics w ++ [StartTimer ApiMetrics (List.length (metrics w)) labels]).

(** The response labels of an object. *)
Definition labels_of (w : world) (v : value) : responseLabels :=
  {| status_code := prop w v "statusCode";
     status_message :=
       if truthy (prop w v "statusMessage") then Some (prop w v "statusMessage") else None;
     error_name := if truthy (prop w v "name") then Some (prop w v "name") else None |}.

(** Every character of the string is white space. *)
Fixpoint all_white_space (s : string) : bool :=
  match s with
  | EmptyString => true
  | String c1 s1 =>
      if is_white_space c1 then all_white_space s1
      else
        match s1 with
        | String c2 s2 =>
            if is_white_space2 c1 c2 then all_white_space s2
            else
              match s2 with
              | String c3 s3 => is_white_space3 c1 c2 c3 && all_white_space s3
              | EmptyString => false
              end
        | EmptyString => false
        end
  end.

(** A value is a non-empty string. *)
Definition non_empty_string (v : value) : Prop :=
  exists s, v = VStr s /\ s <> "".

(** A stand-in for Node's [crypto] on which the examples are evaluated:
    digests pad or cut their input and the key stream repeats the bytes of
    the vector combined with those of the key. *)
Definition example_md5 (data : list ascii) : list ascii :=
  firstn 16 (data ++ repeat zero 16).

Definition example_crypto : Crypto.
Proof.
  refine {| sha256 data := firstn 32 (data ++ repeat zero 32);
            md5 := example_md5;
            md5_digest_length := _;
            aes_256_ctr_keystream key iv pos :=
              xor_ascii (nth (pos mod 32) key zero) (nth (pos mod 16) iv zero) |}.
  intros data. unfold example_md5.
  rewrite length_firstn, length_app, repeat_length. lia.
Defined.

(** A stand-in for [buf.toString ()] that keeps every byte. *)
Definition example_Utf8 : Utf8 :=
  {| Buffer_toString := string_of_list_ascii;
     Buffer_toString_from := string_of_list_ascii_of_string |}.

(** ** Timers on every run *)

(** An event that ends a timer of the api histogram. *)
Definition api_end (ev : metric_event) : bool :=
  match ev with
  | EndTimer ApiMetrics _ _ => true
  | _ => false
  end.

(** What the variable [requestMetricsEnd] holds: nothing yet, or the
    function that ends a timer of an attempt. *)
Definition request_timer (v : value) : Prop :=
  v = VUndefined \/ exists handle, v = VEndTimer RequestMetrics handle.

(** From [w] to [w']: the variable still holds such a value and the events
    recorded meanwhile end no api timer. *)
Definition quiet_step (w w' : world) : Prop :=
  request_timer (requestMetricsEnd w') /\
  exists evs, metrics w' = (metrics w ++ evs)%list /\ existsb api_end evs = false.

(** A computation whose every run is such a step, and whose result, if
    any, satisfies [P]. *)
Definition quiet {A} (P : A -> Prop) (m : js A) : Prop :=
  forall w w' c,
    request_timer (requestMetricsEnd w) -> m w = (w', c) ->
    quiet_step w w' /\ (forall a, c = Normal a -> P a).

Definition any {A} (a : A) : Prop := True.

(** ** Concrete error objects, from the unit tests *)

(** [new jwtClient.ErrorClass ('Boom', {error: {code: 'EBOOM'}})] *)
Definition world_own_error : world :=
  world_of {[ 1%positive := {[ "name" := VStr "FBJWTClientError";
                               "code" := VStr "EBOOM"; "message" := VStr "Boom" ]} ]}.

(** [{statusCode: 401}], the rejection of the test of an unauthorized request *)
Definition world_401 : world :=
  world_of {[ 1%positive := {[ "statusCode" := VNum 401 ]} ]}.

(** [{statusCode: 400, error: {code: 409}}] *)
Definition world_400_409 : world :=
  world_of {[ 1%positive := {[ "statusCode" := VNum 400; "error" := VRef 2 ]};
              2%positive := {[ "code" := VNum 409 ]} ]}.

(** [{name: 'FBJWTClientError', statusCode: 401}] *)
Definition world_own_401 : world :=
  world_of {[ 1%positive := {[ "name" := VStr "FBJWTClientError"; "statusCode" := VNum 401 ]} ]}.

(** [{body: {name: 'ECONNREFUSED'}}], the rejection of the test of an
    endpoint that cannot be reached *)
Definition world_ECONNREFUSED : world :=
  world_of {[ 1%positive := {[ "body" := VRef 2 ]};
              2%positive := {[ "name" := VStr "ECONNREFUSED" ]} ]}.

(** The error [decrypt] of this client throws on an invalid payload:
    [{name: 'FBJWTClientError', code: 500, message: 'EINVALIDPAYLOAD'}] *)
Definition world_EINVALIDPAYLOAD : world :=
  world_of {[ 1%positive := {[ "name" := VStr "FBJWTClientError";
                               "code" := VNum 500; "message" := VStr "EINVALIDPAYLOAD" ]} ]}.

(** ** Retried calls, failing hooks, and what else is read from a run *)

(** The bytes of two buffers combined position by position, as far as both
    go. *)
Fixpoint xor_bytes (a b : list ascii) : list ascii :=
  match a, b with
  | x :: a', y :: b' => xor_ascii x y :: xor_bytes a' b'
  | _, _ => []
  end.

(** From [w] to [w']: the events recorded end the api timer [handle] [n]
    times and no other api timer. *)
Definition api_step (handle n : nat) (w w' : world) : Prop :=
  request_timer (requestMetricsEnd w') /\
  exists evs, metrics w' = (metrics w ++ evs)%list /\
    ended ApiMetrics handle evs = n /\
    forall h, h <> handle -> ended ApiMetrics h evs = 0%nat.

(** The entry of the log for an error of the given type. *)
Definition log_entry_of (labels : requestLabels) (type : string) (error : value) : log_entry :=
  {| log_name := String.append "jwt_" (String.append type "_request_error");
     log_labels := labels; log_error := error |}.

(** A transport that is told to retry after each of the given errors, the
    retry count going up from [retryCount], and then goes on as [last]. *)
Fixpoint retrying (errors : list positive) (retryCount : Z) (last : transport) : transport :=
  match errors with
  | [] => last
  | e :: errors' =>
      CallBeforeRetry (VRef e) (VNum retryCount) (retrying errors' (retryCount + 1) last)
  end.

(** The metrics calls of the retry hook on successive retries: the running
    timer is ended, and the next one is started, whose handle is two
    further. *)
Fixpoint retry_events (labels : requestLabels) (running : nat) (ends : list responseLabels)
    : list metric_event :=
  match ends with
  | [] => []
  | l :: ends' =>
      EndTimer RequestMetrics running l
      :: StartTimer RequestMetrics (S (S running)) labels
      :: retry_events labels (S (S running)) ends'
  end.




(** The [TypeError] of the runtime, as [catch] binds it. *)
Definition native_TypeError : gmap string value := {[ "name" := VStr "TypeError" ]}.

(** A transport that behaves as the given tree, whatever the options. *)
Definition example_Got_of (t : transport) : Got :=
  {| got method sendOptions options := t |}.




(** Two errors of a request that could not connect, and a 200 response
    with an empty body. *)
Definition world_retried : world :=
  world_of {[ 1%positive := {[ "name" := VStr "RequestError"; "code" := VStr "ECONNREFUSED" ]};
              2%positive := {[ "name" := VStr "RequestError"; "code" := VStr "ECONNREFUSED" ]};
              3%positive := {[ "statusCode" := VNum 200; "body" := VStr "" ]} ]}.

(** A 404 response. *)
Definition world_404_response : world :=
  world_of {[ 1%positive := {[ "statusCode" := VNum 404; "statusMessage" := VStr "Not Found";
                               "body" := VStr "gone" ]} ]}.

(** * Properties *)

(** ** The error classifier *)

Lemma throwRequestError_throws_new {A} C code message w :
  throws_new C code (js_or message code) w (@throwRequestError A C code message w).
Proof.
  exists (fresh (dom (heap w))). split.
  - apply not_elem_of_dom, is_fresh.
  - reflexivity.
Qed.

Lemma strict_eq_true x y : strict_eq x y = true <-> x = y.
Proof. unfold strict_eq. apply bool_decide_eq_true. Qed.

Lemma strict_eq_false x y : strict_eq x y = false <-> x <> y.
Proof. unfold strict_eq. apply bool_decide_eq_false. Qed.

Lemma get_ref l f w : get (VRef l) f w = (w, Normal (prop w (VRef l) f)).
Proof. reflexivity. Qed.

Lemma get_truthy v f w : truthy v = true -> get v f w = (w, Normal (prop w v f)).
Proof. destruct v; simpl; intros; try discriminate; reflexivity. Qed.

Lemma get_object v f w :
  v <> VUndefined -> v <> VNull -> get v f w = (w, Normal (prop w v f)).
Proof. destruct v; simpl; intros; try congruence. Qed.

Lemma prop_body_as_error_other w err f :
  f <> "error" -> prop (body_as_error w err) err f = prop w err f.
Proof.
  intros Hf. unfold body_as_error.
  destruct err as [| | | | |l|]; try reflexivity.
  destruct (prop w (VRef l) "body"); try reflexivity.
  unfold prop, object_at. simpl.
  rewrite lookup_insert_eq. simpl.
  rewrite lookup_insert_ne by congruence. reflexivity.
Qed.

(** [handleRequestError] on an error that is not of the client's own
    error class, one equation per rule. *)
Lemma handleRequestError_rules {A} C err w :
  err <> VUndefined -> err <> VNull ->
  prop w err "name" <> VStr (class_name C) ->
  @handleRequestError A C err w =
    let w1 := body_as_error w err in
    let statusCode := prop w err "statusCode" in
    let error := prop w1 err "error" in
    if truthy statusCode then
      if strict_eq statusCode (VNum 404) then
        throwRequestError C (VNum 404) VUndefined w1
      else
        throwRequestError C statusCode
          (if truthy error then error_message w1 error else VUndefined) w1
    else if truthy error then
      throwRequestError C (getErrorStatusCode (error_message w1 error))
        (error_message w1 error) w1
    else
      let message := js_or (prop w err "code") (VStr "ENOERROR") in
      throwRequestError C (getErrorStatusCode message) message w1.
Proof.
  intros Hu Hn Hname. apply strict_eq_false in Hname.
  cbv zeta.
  rewrite <- (prop_body_as_error_other w err "statusCode") by discriminate.
  rewrite <- (prop_body_as_error_other w err "code") by discriminate.
  unfold handleRequestError, bind at 1. rewrite (get_object _ _ _ Hu Hn), Hname.
  unfold bind at 1. rewrite (get_object _ _ _ Hu Hn).
  assert (Hw1 : (if truthy (prop w err "body")
                 then if String.eqb (typeof (prop w err "body")) "object"
                      then set err "error" (prop w err "body") else ret tt
                 else ret tt) w = (body_as_error w err, Normal tt)).
  { unfold body_as_error. destruct err as [| |b0|n0|s0|l|]; try congruence; try reflexivity.
    destruct (prop w (VRef l) "body") as [| |b|n|s|b|]; try reflexivity.
    - destruct b; reflexivity.
    - simpl. destruct (Z.eqb n 0); reflexivity.
    - simpl. destruct (String.eqb s ""); reflexivity. }
  unfold bind at 1. rewrite Hw1.
  set (w1 := body_as_error w err).
  unfold bind at 1. rewrite (get_object _ _ _ Hu Hn).
  destruct (truthy (prop w1 err "statusCode")).
  - destruct (strict_eq (prop w1 err "statusCode") (VNum 404)); [reflexivity|].
    unfold bind at 1. rewrite (get_object _ _ _ Hu Hn).
    destruct (truthy (prop w1 err "error")) eqn:He; [|reflexivity].
    unfold bind at 1. unfold bind at 1. rewrite (get_truthy _ _ _ He).
    unfold bind at 1. rewrite (get_truthy _ _ _ He). reflexivity.
  - unfold bind at 1. rewrite (get_object _ _ _ Hu Hn).
    destruct (truthy (prop w1 err "error")) eqn:He.
    + unfold bind at 1. rewrite (get_truthy _ _ _ He).
      unfold bind at 1. rewrite (get_truthy _ _ _ He). reflexivity.
    + unfold bind at 1. rewrite (get_object _ _ _ Hu Hn). reflexivity.
Qed.

(** Whatever [handleRequestError] does, it is one of: a [TypeError] of the
    runtime (on [undefined] and [null]), the rethrow of its argument, or a
    newly built error of the client's class. *)
Lemma handleRequestError_cases {A} C err w :
  (@handleRequestError A C err w = (w, Throw NativeTypeError)) \/
  (prop w err "name" = VStr (class_name C) /\
   @handleRequestError A C err w = (w, Throw (Exn err))) \/
  (exists code message,
     throws_new C code message (body_as_error w err) (@handleRequestError A C err w)).
Proof.
  destruct (decide (err = VUndefined)) as [->|Hu]; [left; reflexivity|].
  destruct (decide (err = VNull)) as [->|Hn]; [left; reflexivity|].
  destruct (decide (prop w err "name" = VStr (class_name C))) as [Hname|Hname].
  - right; left. split; [assumption|].
    unfold handleRequestError, bind. rewrite (get_object _ _ _ Hu Hn).
    apply strict_eq_true in Hname. rewrite Hname. reflexivity.
  - right; right. rewrite (handleRequestError_rules C err w Hu Hn Hname). cbv zeta.
    repeat match goal with |- context [if ?b then _ else _] => destruct b end;
      eexists; eexists; apply throwRequestError_throws_new.
Qed.

Lemma throws_new_name {A} C code message w w' e :
  @throws_new A C code message w (w', Throw (Exn e)) ->
  prop w' e "name" = VStr (class_name C) /\
  prop w' e "code" = code /\ prop w' e "message" = message.
Proof.
  intros [l [Hl Heq]]. inversion Heq; subst; clear Heq.
  unfold prop, object_at, error_object; simpl.
  rewrite lookup_insert_eq; simpl.
  repeat split.
Qed.

(** C5. An error whose [name] is the name of the configured error class is
    rethrown as it is: the thrown value is the very same reference and the
    world (hence every field of every object) is unchanged. Consequently
    any error thrown by [handleRequestError], rethrown or newly built, is
    rethrown unchanged when it is handled again. *)
Theorem handleRequestError_rethrow_identity {A} (C : errorClass) (err : value) (w : world) :
  (prop w err "name" = VStr (class_name C) ->
   @handleRequestError A C err w = (w, Throw (Exn err))) /\
  (forall w' e, @handleRequestError A C err w = (w', Throw (Exn e)) ->
   @handleRequestError A C e w' = (w', Throw (Exn e))).
Proof.
  assert (Hre : forall (e : value) (w1 : world),
             prop w1 e "name" = VStr (class_name C) ->
             @handleRequestError A C e w1 = (w1, Throw (Exn e))).
  { intros e w1 Hname.
    destruct e; try (simpl in Hname; discriminate).
    unfold handleRequestError, bind. rewrite get_ref.
    apply strict_eq_true in Hname. rewrite Hname. reflexivity. }
  split.
  - apply Hre.
  - intros w' e H. apply Hre.
    destruct (handleRequestError_cases (A:=A) C err w) as [H1|[[Hn H1]|[c [m H1]]]].
    + rewrite H1 in H. discriminate.
    + rewrite H1 in H. inversion H; subst. exact Hn.
    + rewrite H in H1. apply throws_new_name in H1. tauto.
Qed.

Lemma handleRequestError_rethrow_identity_witness :
  (prop world_own_error (VRef 1) "name" = VStr (class_name FBJWTClientError) /\
   @handleRequestError unit FBJWTClientError (VRef 1) world_own_error
   = (world_own_error, Throw (Exn (VRef 1)))) /\
  (exists w' e,
     @handleRequestError unit FBJWTClientError (VRef 1) world_401 = (w', Throw (Exn e)) /\
     @handleRequestError unit FBJWTClientError e w' = (w', Throw (Exn e))).
Proof.
  split.
  - split; [reflexivity|].
    apply (proj1 (handleRequestError_rethrow_identity FBJWTClientError (VRef 1) world_own_error)).
    reflexivity.
  - destruct (@handleRequestError unit FBJWTClientError (VRef 1) world_401) as [w' [a|[e|]]] eqn:H;
      try (vm_compute in H; discriminate).
    exists w', e. split; [reflexivity|].
    apply (proj2 (handleRequestError_rethrow_identity FBJWTClientError (VRef 1) world_401)).
    exact H.
Defined.

(** C2 (amended). For every error object whose name is not that of the
    configured error class and whose [statusCode] is truthy,
    [handleRequestError] throws a new error of the configured class whose
    code is the status code and whose message is: 404 when the status code
    is 404; otherwise, when an error object is attached (the [body] when it
    is an object, else [err.error]), the first truthy of its [name], its
    [code] and ['EUNSPECIFIED']; and the status code itself when no error
    object is attached. *)
Theorem handleRequestError_statusCode {A} (C : errorClass) (l : positive) (w : world) :
  let err := VRef l in
  prop w err "name" <> VStr (class_name C) ->
  truthy (prop w err "statusCode") = true ->
  let statusCode := prop w err "statusCode" in
  let w1 := body_as_error w err in
  let error := prop w1 err "error" in
  throws_new C statusCode
    (if strict_eq statusCode (VNum 404) then VNum 404
     else if truthy error then error_message w1 error
     else statusCode)
    w1 (@handleRequestError A C err w).
Proof.
  intros err Hname Hsc statusCode w1 error.
  rewrite (handleRequestError_rules C err w) by (assumption || discriminate).
  cbv zeta. rewrite Hsc. fold statusCode w1 error.
  destruct (strict_eq statusCode (VNum 404)) eqn:H404.
  - apply strict_eq_true in H404. rewrite H404.
    apply (throwRequestError_throws_new C (VNum 404) VUndefined).
  - destruct (truthy error) eqn:He.
    + pose proof (throwRequestError_throws_new (A:=A) C statusCode (error_message w1 error) w1) as H.
      assert (Ht : truthy (error_message w1 error) = true).
      { unfold error_message, js_or.
        repeat match goal with |- context [if ?b then _ else _] => destruct b eqn:? end;
          try assumption; reflexivity. }
      unfold js_or at 1 in H. rewrite Ht in H. exact H.
    + pose proof (throwRequestError_throws_new (A:=A) C statusCode VUndefined w1) as H.
      exact H.
Qed.

Lemma handleRequestError_statusCode_witness :
  throws_new FBJWTClientError (VNum 400) (VNum 409) world_400_409
    (@handleRequestError unit FBJWTClientError (VRef 1) world_400_409).
Proof.
  apply (handleRequestError_statusCode (A:=unit) FBJWTClientError 1 world_400_409).
  - vm_compute. discriminate.
  - reflexivity.
Defined.

(** C2 as stated fails twice. With a status code and no error object the
    message is the status code, not ['EUNSPECIFIED'] (the rejection
    [{statusCode: 401}] of the unit tests); and an error that carries the
    client's error-class name is rethrown as it is, status code or not. *)
Lemma handleRequestError_statusCode_counterexample :
  (exists w' e,
     @handleRequestError unit FBJWTClientError (VRef 1) world_401 = (w', Throw (Exn e)) /\
     prop w' e "code" = VNum 401 /\
     prop w' e "message" = VNum 401 /\
     prop w' e "message" <> VStr "EUNSPECIFIED") /\
  (@handleRequestError unit FBJWTClientError (VRef 1) world_own_401
   = (world_own_401, Throw (Exn (VRef 1))) /\
   prop world_own_401 (VRef 1) "code" <> VNum 401).
Proof.
  split.
  - eexists. eexists. split; [vm_compute; reflexivity|].
    vm_compute. repeat split; discriminate.
  - split; [vm_compute; reflexivity|vm_compute; discriminate].
Qed.

(** C3 (amended). For every error object whose name is not that of the
    configured error class and that has no (or a falsy) [statusCode],
    [handleRequestError] throws a new error of the configured class whose
    message is the first truthy of [err.error.name], [err.error.code] and
    ['EUNSPECIFIED'] when an error object is attached (the [body] when it is
    an object, else [err.error]), and [err.code] or else ['ENOERROR'] when
    none is; its code is 502 for the message ['ENOTFOUND'], 503 for
    ['ECONNREFUSED'] and 500 for every other message. *)
Theorem handleRequestError_no_statusCode {A} (C : errorClass) (l : positive) (w : world) :
  let err := VRef l in
  prop w err "name" <> VStr (class_name C) ->
  truthy (prop w err "statusCode") = false ->
  let w1 := body_as_error w err in
  let error := prop w1 err "error" in
  let message :=
    if truthy error then error_message w1 error
    else js_or (prop w err "code") (VStr "ENOERROR") in
  let code :=
    match message with
    | VStr "ENOTFOUND" => VNum 502
    | VStr "ECONNREFUSED" => VNum 503
    | _ => VNum 500
    end in
  throws_new C code message w1 (@handleRequestError A C err w).
Proof.
  intros err Hname Hsc w1 error message code.
  assert (Hcode : code = getErrorStatusCode message).
  { unfold code, getErrorStatusCode.
    destruct (strict_eq message (VStr "ENOTFOUND")) eqn:H1.
    - apply strict_eq_true in H1. rewrite H1. reflexivity.
    - destruct (strict_eq message (VStr "ECONNREFUSED")) eqn:H2.
      + apply strict_eq_true in H2. rewrite H2. reflexivity.
      + apply strict_eq_false in H1. apply strict_eq_false in H2.
        destruct message as [| | | |s| |]; try reflexivity.
        repeat (match goal with
                | |- context [match ?s with EmptyString => _ | String _ _ => _ end] =>
                    destruct s as [|[[] [] [] [] [] [] [] []] ?]; try reflexivity
                end); congruence. }
  assert (Ht : truthy message = true).
  { unfold message, error_message, js_or.
    repeat match goal with |- context [if ?b then _ else _] => destruct b eqn:? end;
      try assumption; reflexivity. }
  rewrite Hcode.
  rewrite (handleRequestError_rules C err w) by (assumption || discriminate).
  cbv zeta. rewrite Hsc. fold w1 error.
  pose proof (throwRequestError_throws_new (A:=A) C (getErrorStatusCode message) message w1) as H.
  unfold js_or at 1 in H. rewrite Ht in H.
  unfold message in *. destruct (truthy error); exact H.
Qed.

Lemma handleRequestError_no_statusCode_witness :
  throws_new FBJWTClientError (VNum 503) (VStr "ECONNREFUSED")
    (body_as_error world_ECONNREFUSED (VRef 1))
    (@handleRequestError unit FBJWTClientError (VRef 1) world_ECONNREFUSED).
Proof.
  apply (handleRequestError_no_statusCode (A:=unit) FBJWTClientError 1 world_ECONNREFUSED).
  - vm_compute. discriminate.
  - reflexivity.
Defined.

(** C3 as stated fails on the errors of the client's own class: the error
    [decrypt] throws has no status code and no error object, and it is
    rethrown as it is, with its message ['EINVALIDPAYLOAD'], where the claim
    gives [err.code || 'ENOERROR'], that is 500, as the message of a new
    error. *)
Lemma handleRequestError_no_statusCode_counterexample :
  truthy (prop world_EINVALIDPAYLOAD (VRef 1) "statusCode") = false /\
  @handleRequestError unit FBJWTClientError (VRef 1) world_EINVALIDPAYLOAD
  = (world_EINVALIDPAYLOAD, Throw (Exn (VRef 1))) /\
  prop world_EINVALIDPAYLOAD (VRef 1) "message" = VStr "EINVALIDPAYLOAD" /\
  prop world_EINVALIDPAYLOAD (VRef 1) "message"
  <> js_or (prop world_EINVALIDPAYLOAD (VRef 1) "code") (VStr "ENOERROR").
Proof.
  repeat split; try (vm_compute; reflexivity).
  vm_compute. discriminate.
Qed.

(** ** The constructor *)

(** C9. The constructor throws, and so returns no client, as soon as one
    of the four required arguments is falsy, with code [ENOSERVICESECRET]
    for a missing service secret, [ENOSERVICETOKEN] for a missing service
    token, [ENOSERVICESLUG] for a missing service slug and
    [ENOMICROSERVICEURL] for a missing service url (the first missing one, in
    that order, decides); with four truthy arguments it returns the client
    that stores them, and the world is unchanged. *)
Theorem constructor_checks_arguments
    (serviceSecret serviceToken serviceSlug microserviceUrl : value)
    (errorClass : option errorClass) (w : world) :
  let C := default FBJWTClientError errorClass in
  let r := constructor serviceSecret serviceToken serviceSlug microserviceUrl errorClass w in
  (truthy serviceSecret = false ->
   throws_new C (VStr "ENOSERVICESECRET") (VStr "No service secret passed to client") w r) /\
  (truthy serviceSecret = true -> truthy serviceToken = false ->
   throws_new C (VStr "ENOSERVICETOKEN") (VStr "No service token passed to client") w r) /\
  (truthy serviceSecret = true -> truthy serviceToken = true -> truthy serviceSlug = false ->
   throws_new C (VStr "ENOSERVICESLUG") (VStr "No service slug passed to client") w r) /\
  (truthy serviceSecret = true -> truthy serviceToken = true -> truthy serviceSlug = true ->
   truthy microserviceUrl = false ->
   throws_new C (VStr "ENOMICROSERVICEURL") (VStr "No microservice url passed to client") w r) /\
  (truthy serviceSecret = true -> truthy serviceToken = true -> truthy serviceSlug = true ->
   truthy microserviceUrl = true ->
   r = (w, Normal {| ErrorClass := C;
                     serviceSecret := serviceSecret;
                     serviceToken := serviceToken;
                     serviceUrl := microserviceUrl;
                     serviceSlug := serviceSlug |})).
Proof.
  intros C r. subst r. unfold constructor.
  replace (match errorClass with Some C0 => C0 | None => FBJWTClientError end) with C
    by (destruct errorClass; reflexivity).
  repeat split; intros;
    repeat match goal with H : truthy _ = _ |- _ => unfold bind at 1; rewrite H; clear H; simpl negb; cbv iota end;
    try reflexivity;
    match goal with
    | |- throws_new _ ?c ?m _ _ => apply (throwRequestError_throws_new C c m)
    end.
Qed.

Lemma constructor_checks_arguments_witness :
  throws_new FBJWTClientError (VStr "ENOSERVICESECRET") (VStr "No service secret passed to client")
    (world_of ∅) (constructor VUndefined VUndefined VUndefined VUndefined None (world_of ∅)) /\
  throws_new FBJWTClientError (VStr "ENOSERVICETOKEN") (VStr "No service token passed to client")
    (world_of ∅)
    (constructor (VStr "testServiceSecret") VUndefined VUndefined VUndefined None (world_of ∅)) /\
  throws_new FBJWTClientError (VStr "ENOSERVICESLUG") (VStr "No service slug passed to client")
    (world_of ∅)
    (constructor (VStr "testServiceSecret") (VStr "testServiceToken") VUndefined VUndefined None
       (world_of ∅)) /\
  throws_new FBJWTClientError (VStr "ENOMICROSERVICEURL") (VStr "No microservice url passed to client")
    (world_of ∅)
    (constructor (VStr "testServiceSecret") (VStr "testServiceToken") (VStr "testServiceSlug")
       VUndefined None (world_of ∅)) /\
  constructor (VStr "testServiceSecret") (VStr "testServiceToken") (VStr "testServiceSlug")
    (VStr "https://microservice") None (world_of ∅)
  = (world_of ∅, Normal {| ErrorClass := FBJWTClientError;
                           serviceSecret := VStr "testServiceSecret";
                           serviceToken := VStr "testServiceToken";
                           serviceUrl := VStr "https://microservice";
                           serviceSlug := VStr "testServiceSlug" |}).
Proof.
  split; [|split; [|split; [|split]]].
  - apply (constructor_checks_arguments VUndefined VUndefined VUndefined VUndefined None (world_of ∅)).
    reflexivity.
  - apply (constructor_checks_arguments (VStr "testServiceSecret") VUndefined VUndefined VUndefined
             None (world_of ∅)); reflexivity.
  - apply (constructor_checks_arguments (VStr "testServiceSecret") (VStr "testServiceToken")
             VUndefined VUndefined None (world_of ∅)); reflexivity.
  - apply (constructor_checks_arguments (VStr "testServiceSecret") (VStr "testServiceToken")
             (VStr "testServiceSlug") VUndefined None (world_of ∅)); reflexivity.
  - apply (constructor_checks_arguments (VStr "testServiceSecret") (VStr "testServiceToken")
             (VStr "testServiceSlug") (VStr "https://microservice") None (world_of ∅));
      reflexivity.
Defined.

(** ** Base64 *)

Ltac n_div_mod := zify; Z.to_euclidean_division_equations; lia.

Lemma base64_index_char n : (n < 64)%N -> base64_index (base64_char n) = Some n.
Proof.
  intros Hn.
  assert (Hall : forallb (fun k => match base64_index (base64_char k) with
                                   | Some m => N.eqb m k
                                   | None => false
                                   end) (List.map N.of_nat (seq 0 64)) = true)
    by (vm_compute; reflexivity).
  rewrite forallb_forall in Hall.
  specialize (Hall n).
  destruct (base64_index (base64_char n)) as [m|].
  - f_equal. apply N.eqb_eq. apply Hall.
    apply in_map_iff. exists (N.to_nat n). split; [apply N2Nat.id|].
    apply in_seq. lia.
  - discriminate Hall.
    apply in_map_iff. exists (N.to_nat n). split; [apply N2Nat.id|].
    apply in_seq. lia.
Qed.

Lemma base64_groups_char n s :
  (n < 64)%N -> base64_groups (String (base64_char n) s) = n :: base64_groups s.
Proof.
  intros Hn.
  assert (Hall : forallb (fun k => negb (Ascii.eqb (base64_char k) "="))
                   (List.map N.of_nat (seq 0 64)) = true)
    by (vm_compute; reflexivity).
  rewrite forallb_forall in Hall.
  specialize (Hall n).
  cbn [base64_groups].
  rewrite (base64_index_char n Hn).
  destruct (Ascii.eqb (base64_char n) "="); [|reflexivity].
  discriminate Hall.
  apply in_map_iff. exists (N.to_nat n). split; [apply N2Nat.id|].
  apply in_seq. lia.
Qed.

Lemma list_ind3 {A} (P : list A -> Prop) :
  P [] -> (forall x, P [x]) -> (forall x y, P [x; y]) ->
  (forall x y z l, P l -> P (x :: y :: z :: l)) ->
  forall l, P l.
Proof.
  intros H0 H1 H2 H3 l.
  assert (H : P l /\ (forall x, P (x :: l)) /\ (forall x y, P (x :: y :: l))).
  { induction l as [|a l [IH0 [IH1 IH2]]].
    - auto.
    - split; [apply IH1|]. split; [intros; apply IH2|].
      intros x y. apply H3. exact IH0. }
  apply H.
Qed.

Lemma ascii_of_N_eq n a : n = N_of_ascii a -> ascii_of_N n = a.
Proof. intros ->. apply ascii_N_embedding. Qed.

(** Decoding what [toString ('base64')] wrote gives the bytes back. *)
Lemma base64_decode_encode (b : list ascii) : base64_decode (base64_encode b) = b.
Proof.
  unfold base64_decode.
  induction b as [|x|x y|x y z rest IH] using list_ind3.
  - reflexivity.
  - pose proof (N_ascii_bounded x) as Hx.
    cbn [base64_encode].
    rewrite !base64_groups_char by n_div_mod.
    cbn. f_equal. apply ascii_of_N_eq. n_div_mod.
  - pose proof (N_ascii_bounded x) as Hx. pose proof (N_ascii_bounded y) as Hy.
    cbn [base64_encode].
    rewrite !base64_groups_char by n_div_mod.
    cbn. f_equal; [|f_equal]; apply ascii_of_N_eq; n_div_mod.
  - pose proof (N_ascii_bounded x) as Hx. pose proof (N_ascii_bounded y) as Hy.
    pose proof (N_ascii_bounded z) as Hz.
    cbn [base64_encode].
    rewrite !base64_groups_char by n_div_mod.
    cbn [base64_bytes]. rewrite IH.
    f_equal; [|f_equal; [|f_equal]]; apply ascii_of_N_eq; n_div_mod.
Qed.

Example base64_encode_foob : base64_encode (Buffer_from "foob") = "Zm9vYg==".
Proof. reflexivity. Qed.

Example base64_encode_fooba : base64_encode (Buffer_from "fooba") = "Zm9vYmE=".
Proof. reflexivity. Qed.

Example base64_decode_lenient : base64_decode "Zm9v Ym_-" = base64_decode "Zm9vYm/+".
Proof. reflexivity. Qed.

Lemma base64_encode_nonempty b : b <> [] -> base64_encode b <> "".
Proof.
  destruct b as [|x [|y [|z rest]]]; [congruence| | |]; intros _; discriminate.
Qed.

(** ** The cipher *)

Lemma non_empty_string_check v :
  negb (String.eqb (typeof v) "string") || negb (truthy v) = false <-> non_empty_string v.
Proof.
  split.
  - intros H. destruct v as [| |b|n|s|l|]; try discriminate H.
    exists s. split; [reflexivity|]. simpl in H.
    destruct (String.eqb_spec s ""); [discriminate|assumption].
  - intros [s [-> Hs]]. simpl.
    destruct (String.eqb_spec s ""); [contradiction|reflexivity].
Qed.

Lemma not_non_empty_string_check v :
  ~ non_empty_string v -> negb (String.eqb (typeof v) "string") || negb (truthy v) = true.
Proof.
  intros H. destruct (negb (String.eqb (typeof v) "string") || negb (truthy v)) eqn:E;
    [reflexivity|]. apply non_empty_string_check in E. contradiction.
Qed.

(** C7. [encrypt] throws its cipher error with code [ENOENCRYPTKEY] when
    the key is not a non-empty string and with [ENOENCRYPTVALUE] when (the
    key being one) the plaintext is not a non-empty string; [decrypt] throws
    [ENODECRYPTKEY] and [ENODECRYPTVALUE] alike; and on a non-empty key and a
    non-empty text whose base64 decoding has fewer than 17 bytes [decrypt]
    throws a [TypeError], which is not an error of the cipher's class. *)
Theorem aes256_rejects_bad_input `{Crypto} `{Utf8} (randomBytes : list ascii)
    (key value : value) (ivSeed : option string) :
  (~ non_empty_string key ->
   exists message, aes256.encrypt randomBytes key value ivSeed
     = aes256.Threw (aes256.FBJWTAES256Error message "ENOENCRYPTKEY")) /\
  (non_empty_string key -> ~ non_empty_string value ->
   exists message, aes256.encrypt randomBytes key value ivSeed
     = aes256.Threw (aes256.FBJWTAES256Error message "ENOENCRYPTVALUE")) /\
  (~ non_empty_string key ->
   exists message, aes256.decrypt key value
     = aes256.Threw (aes256.FBJWTAES256Error message "ENODECRYPTKEY")) /\
  (non_empty_string key -> ~ non_empty_string value ->
   exists message, aes256.decrypt key value
     = aes256.Threw (aes256.FBJWTAES256Error message "ENODECRYPTVALUE")) /\
  (non_empty_string key -> non_empty_string value ->
   (List.length (base64_decode (aes256.string_of value)) < 17)%nat ->
   exists message, aes256.decrypt key value = aes256.Threw (aes256.TypeError message) /\
     forall m code, aes256.decrypt key value <> aes256.Threw (aes256.FBJWTAES256Error m code)).
Proof.
  split; [|split; [|split; [|split]]].
  - intros Hk. unfold aes256.encrypt.
    rewrite (not_non_empty_string_check key Hk). eexists. reflexivity.
  - intros Hk Hv. unfold aes256.encrypt.
    rewrite (proj2 (non_empty_string_check key) Hk).
    rewrite (not_non_empty_string_check value Hv). eexists. reflexivity.
  - intros Hk. unfold aes256.decrypt.
    rewrite (not_non_empty_string_check key Hk). eexists. reflexivity.
  - intros Hk Hv. unfold aes256.decrypt.
    rewrite (proj2 (non_empty_string_check key) Hk).
    rewrite (not_non_empty_string_check value Hv). eexists. reflexivity.
  - intros Hk Hv Hlen. unfold aes256.decrypt.
    rewrite (proj2 (non_empty_string_check key) Hk).
    rewrite (proj2 (non_empty_string_check value) Hv).
    apply Nat.ltb_lt in Hlen. rewrite Hlen.
    eexists. split; [reflexivity|]. intros m code. discriminate.
Qed.

Lemma aes256_rejects_bad_input_witness :
  (exists message, aes256.encrypt (H:=example_crypto) [] VUndefined (VStr "data") None
     = aes256.Threw (aes256.FBJWTAES256Error message "ENOENCRYPTKEY")) /\
  (exists message, aes256.encrypt (H:=example_crypto) [] (VStr "testUserToken") VUndefined None
     = aes256.Threw (aes256.FBJWTAES256Error message "ENOENCRYPTVALUE")) /\
  (exists message, aes256.decrypt (H:=example_crypto) (H0:=example_Utf8) VUndefined (VStr "data")
     = aes256.Threw (aes256.FBJWTAES256Error message "ENODECRYPTKEY")) /\
  (exists message, aes256.decrypt (H:=example_crypto) (H0:=example_Utf8) (VStr "testUserToken") VUndefined
     = aes256.Threw (aes256.FBJWTAES256Error message "ENODECRYPTVALUE")) /\
  (exists message,
     aes256.decrypt (H:=example_crypto) (H0:=example_Utf8) (VStr "testUserToken") (VStr "invalid")
     = aes256.Threw (aes256.TypeError message) /\
     forall m code,
       aes256.decrypt (H:=example_crypto) (H0:=example_Utf8) (VStr "testUserToken") (VStr "invalid")
       <> aes256.Threw (aes256.FBJWTAES256Error m code)).
Proof.
  assert (Hundef : ~ non_empty_string VUndefined) by (intros [s [Hs _]]; discriminate).
  assert (Hstr : forall s, s <> "" -> non_empty_string (VStr s)) by (intros s Hs; exists s; auto).
  split; [|split; [|split; [|split]]].
  - apply (aes256_rejects_bad_input (H:=example_crypto) (H0:=example_Utf8) [] VUndefined (VStr "data") None).
    exact Hundef.
  - apply (aes256_rejects_bad_input (H:=example_crypto) (H0:=example_Utf8) [] (VStr "testUserToken") VUndefined None).
    + apply Hstr. discriminate.
    + exact Hundef.
  - apply (aes256_rejects_bad_input (H:=example_crypto) (H0:=example_Utf8) [] VUndefined (VStr "data") None).
    exact Hundef.
  - apply (aes256_rejects_bad_input (H:=example_crypto) (H0:=example_Utf8) [] (VStr "testUserToken") VUndefined None).
    + apply Hstr. discriminate.
    + exact Hundef.
  - apply (aes256_rejects_bad_input (H:=example_crypto) (H0:=example_Utf8) [] (VStr "testUserToken") (VStr "invalid") None).
    + apply Hstr. discriminate.
    + apply Hstr. discriminate.
    + vm_compute. lia.
Defined.

Lemma xor_ascii_involutive a k : xor_ascii (xor_ascii a k) k = a.
Proof.
  destruct a as [a0 a1 a2 a3 a4 a5 a6 a7], k as [k0 k1 k2 k3 k4 k5 k6 k7]. simpl.
  assert (Hx : forall x y, xorb (xorb x y) y = x) by (intros [] []; reflexivity).
  rewrite !Hx. reflexivity.
Qed.

Lemma ctr_update_involutive keystream pos data :
  ctr_update keystream pos (ctr_update keystream pos data) = data.
Proof.
  revert pos. induction data as [|x data IH]; intros pos; simpl.
  - reflexivity.
  - rewrite xor_ascii_involutive, IH. reflexivity.
Qed.

Lemma ctr_update_length keystream pos data :
  List.length (ctr_update keystream pos data) = List.length data.
Proof.
  revert pos. induction data as [|x data IH]; intros pos; simpl; [reflexivity|].
  rewrite IH. reflexivity.
Qed.

Lemma firstn_16_app (iv rest : list ascii) :
  List.length iv = 16%nat -> firstn 16 (iv ++ rest) = iv.
Proof.
  intros Hlen. rewrite <- Hlen. rewrite firstn_app, Nat.sub_diag, firstn_all. simpl.
  apply app_nil_r.
Qed.

Lemma skipn_16_app (iv rest : list ascii) :
  List.length iv = 16%nat -> skipn 16 (iv ++ rest) = rest.
Proof.
  intros Hlen. rewrite <- Hlen. rewrite skipn_app, Nat.sub_diag, skipn_all. reflexivity.
Qed.

Lemma Buffer_from_nonempty s : s <> "" -> Buffer_from s <> [].
Proof. destruct s; [congruence|discriminate]. Qed.

Lemma string_append_empty (s : string) : String.append s "" = s.
Proof.
  induction s as [|c s IH]; [reflexivity|].
  change (String c (String.append s "") = String c s). f_equal. exact IH.
Qed.

(** The round trip, for whatever 16 bytes serve as vector. *)
Lemma aes256_round_trip `{Crypto} `{Utf8} (randomBytes : list ascii)
    (key m : string) (ivSeed : option string) :
  key <> "" -> m <> "" ->
  List.length (encrypt_iv randomBytes ivSeed) = 16%nat ->
  exists encrypted,
    aes256.encrypt randomBytes (VStr key) (VStr m) ivSeed = aes256.Returned encrypted /\
    aes256.decrypt (VStr key) (VStr encrypted) = aes256.Returned m.
Proof.
  intros Hkey Hm Hiv.
  assert (Hk : negb (String.eqb (typeof (VStr key)) "string") || negb (truthy (VStr key)) = false)
    by (apply non_empty_string_check; exists key; auto).
  assert (Hp : negb (String.eqb (typeof (VStr m)) "string") || negb (truthy (VStr m)) = false)
    by (apply non_empty_string_check; exists m; auto).
  unfold aes256.encrypt. rewrite Hk, Hp. cbv zeta. simpl aes256.string_of.
  fold (encrypt_iv randomBytes ivSeed).
  set (iv := encrypt_iv randomBytes ivSeed) in *.
  eexists. split; [reflexivity|].
  unfold aes256.decrypt. rewrite Hk.
  match goal with |- context [VStr (base64_encode ?b)] => set (bytes := b) end.
  assert (Hc : negb (String.eqb (typeof (VStr (base64_encode bytes))) "string")
               || negb (truthy (VStr (base64_encode bytes))) = false).
  { apply non_empty_string_check. eexists. split; [reflexivity|].
    apply base64_encode_nonempty. unfold bytes. destruct iv; [discriminate|discriminate]. }
  rewrite Hc. cbv zeta. simpl aes256.string_of.
  rewrite base64_decode_encode. unfold bytes. rewrite app_nil_r.
  assert (Hlen : (List.length (iv ++ ctr_update (aes_256_ctr_keystream (sha256 (Buffer_from key)) iv) 0
                                 (Buffer_from m)) <? 17)%nat = false).
  { apply Nat.ltb_ge. rewrite length_app, ctr_update_length, Hiv.
    pose proof (Buffer_from_nonempty m Hm) as Hne.
    destruct (Buffer_from m); [congruence|simpl; lia]. }
  rewrite Hlen.
  rewrite (firstn_16_app iv _ Hiv), (skipn_16_app iv _ Hiv).
  rewrite ctr_update_involutive.
  rewrite Buffer_toString_from.
  change (@nil ascii) with (Buffer_from ""). rewrite Buffer_toString_from.
  rewrite string_append_empty. reflexivity.
Qed.

(** With a non-empty seed the random bytes are not used. *)
Lemma aes256_encrypt_seeded `{Crypto} (randomBytes : list ascii) (key m seed : string) :
  key <> "" -> m <> "" -> seed <> "" ->
  aes256.encrypt randomBytes (VStr key) (VStr m) (Some seed)
  = aes256.Returned
      (base64_encode
         (md5 (Buffer_from seed)
          ++ ctr_update
               (aes_256_ctr_keystream (sha256 (Buffer_from key)) (md5 (Buffer_from seed)))
               0 (Buffer_from m))).
Proof.
  intros Hkey Hm Hseed.
  assert (Hk : negb (String.eqb (typeof (VStr key)) "string") || negb (truthy (VStr key)) = false)
    by (apply non_empty_string_check; exists key; auto).
  assert (Hp : negb (String.eqb (typeof (VStr m)) "string") || negb (truthy (VStr m)) = false)
    by (apply non_empty_string_check; exists m; auto).
  unfold aes256.encrypt. rewrite Hk, Hp. cbv zeta. simpl aes256.string_of.
  destruct (String.eqb_spec seed ""); [contradiction|]. simpl negb. cbv iota.
  rewrite app_nil_r. reflexivity.
Qed.

(** C6. For non-empty strings [key] and [m] and any seed (or none),
    [decrypt] gives [m] back from what [encrypt] returns. Without a seed
    (none, or the empty string, which the code takes for none) the output
    starts with the 16 random bytes drawn by the call, so two calls that draw
    different bytes return different texts; with a seed the vector is the MD5
    digest of the seed and the output is a function of key, seed and
    plaintext only: two calls return the same text. *)
Theorem aes256_decrypt_encrypt `{Crypto} `{Utf8} (randomBytes randomBytes' : list ascii)
    (key m : string) (ivSeed : option string) :
  key <> "" -> m <> "" ->
  List.length randomBytes = 16%nat -> List.length randomBytes' = 16%nat ->
  (exists encrypted,
     aes256.encrypt randomBytes (VStr key) (VStr m) ivSeed = aes256.Returned encrypted /\
     aes256.decrypt (VStr key) (VStr encrypted) = aes256.Returned m) /\
  (forall noSeed, noSeed = None \/ noSeed = Some "" ->
   randomBytes <> randomBytes' ->
   aes256.encrypt randomBytes (VStr key) (VStr m) noSeed
   <> aes256.encrypt randomBytes' (VStr key) (VStr m) noSeed) /\
  (forall seed, seed <> "" ->
   aes256.encrypt randomBytes (VStr key) (VStr m) (Some seed)
   = aes256.encrypt randomBytes' (VStr key) (VStr m) (Some seed) /\
   aes256.encrypt randomBytes (VStr key) (VStr m) (Some seed)
   = aes256.Returned
       (base64_encode
          (md5 (Buffer_from seed)
           ++ ctr_update
                (aes_256_ctr_keystream (sha256 (Buffer_from key)) (md5 (Buffer_from seed)))
                0 (Buffer_from m)))).
Proof.
  intros Hkey Hm Hrnd Hrnd'.
  split; [|split].
  - apply aes256_round_trip; try assumption.
    unfold encrypt_iv. destruct ivSeed as [seed|]; [|assumption].
    destruct (negb (String.eqb seed "")); [apply md5_digest_length|assumption].
  - intros noSeed HnoSeed Hne Heq.
    assert (Hk : negb (String.eqb (typeof (VStr key)) "string") || negb (truthy (VStr key)) = false)
      by (apply non_empty_string_check; exists key; auto).
    assert (Hp : negb (String.eqb (typeof (VStr m)) "string") || negb (truthy (VStr m)) = false)
      by (apply non_empty_string_check; exists m; auto).
    unfold aes256.encrypt in Heq. rewrite Hk, Hp in Heq. cbv zeta in Heq.
    simpl aes256.string_of in Heq.
    assert (Heq' : base64_encode (randomBytes ++ ctr_update
                     (aes_256_ctr_keystream (sha256 (Buffer_from key)) randomBytes) 0
                     (Buffer_from m) ++ [])
                   = base64_encode (randomBytes' ++ ctr_update
                     (aes_256_ctr_keystream (sha256 (Buffer_from key)) randomBytes') 0
                     (Buffer_from m) ++ [])).
    { destruct HnoSeed as [->| ->]; simpl in Heq; injection Heq as Heq; exact Heq. }
    clear Heq. rename Heq' into Heq.
    apply (f_equal base64_decode) in Heq. rewrite !base64_decode_encode in Heq.
    apply (f_equal (firstn 16)) in Heq.
    rewrite (firstn_16_app randomBytes _ Hrnd), (firstn_16_app randomBytes' _ Hrnd') in Heq.
    contradiction.
  - intros seed Hseed.
    rewrite !aes256_encrypt_seeded by assumption. split; reflexivity.
Qed.

Lemma aes256_decrypt_encrypt_witness :
  (exists encrypted,
     aes256.encrypt (H:=example_crypto) (repeat "a"%char 16) (VStr "testUserToken") (VStr "data")
       (Some "ivSeed") = aes256.Returned encrypted /\
     aes256.decrypt (H:=example_crypto) (H0:=example_Utf8) (VStr "testUserToken") (VStr encrypted)
     = aes256.Returned "data") /\
  aes256.encrypt (H:=example_crypto) (repeat "a"%char 16) (VStr "testUserToken") (VStr "data") None
  <> aes256.encrypt (H:=example_crypto) (repeat "b"%char 16) (VStr "testUserToken") (VStr "data") None.
Proof.
  pose proof (aes256_decrypt_encrypt (H:=example_crypto) (H0:=example_Utf8) (repeat "a"%char 16) (repeat "b"%char 16)
                "testUserToken" "data" (Some "ivSeed")) as [Hround [Hrandom _]];
    try reflexivity; try discriminate.
  split; [exact Hround|]. apply Hrandom; [left; reflexivity|discriminate].
Defined.

(** ** Request options *)

(** C8 (amended). [createRequestOptions] returns options for every
    pattern, context, payload and flag for which the endpoint url can be
    built (when the url templating throws, so does [createRequestOptions]).
    The options have [json: true] and as [x-access-token] header the token
    signed, with the service token, over the hex SHA-256 checksum of the
    serialized payload; with a payload of at least one key and no query
    flag, the body is the payload and there are no search parameters; with a
    payload of at least one key and the query flag, the one search parameter
    [payload] is the base64 of the serialized payload and there is no body;
    with a payload without keys there is neither; and never both. *)
Theorem createRequestOptions_payload `{Crypto} `{JSON} `{JWT} `{PathToRegexp}
    (this : FBJWTClient) (now : Z) (urlPattern : string) (context : option jsonValue)
    (data : option (list (string * jsonValue))) (useQueryParam : value) :
  let payload := default [] data in
  (createEndpointUrl this urlPattern context = None ->
   createRequestOptions this now urlPattern context data useQueryParam = Throw NativeTypeError) /\
  (forall endpointUrl,
   createEndpointUrl this urlPattern context = Some endpointUrl ->
   exists options,
    createRequestOptions this now urlPattern context data useQueryParam = Normal options /\
    url options = endpointUrl /\
    json options = true /\
    x_access_token (headers options)
    = jwt_sign (JObj [("checksum",
                       JStr (hex (sha256 (Buffer_from (JSON_stringify (JObj payload))))))])
        (serviceToken this) "HS256" now /\
    (payload <> [] -> truthy useQueryParam = false ->
     body options = Some (JObj payload) /\ searchParams options = None) /\
    (payload <> [] -> truthy useQueryParam = true ->
     body options = None /\
     searchParams options
     = Some {| payload := base64_encode (Buffer_from (JSON_stringify (JObj payload))) |}) /\
    (payload = [] -> body options = None /\ searchParams options = None) /\
    ~ (body options <> None /\ searchParams options <> None)).
Proof.
  intros payload. split.
  - intros Hurl. unfold createRequestOptions. rewrite Hurl. reflexivity.
  - intros endpointUrl Hurl. unfold createRequestOptions. rewrite Hurl. fold payload.
    eexists. split; [reflexivity|].
    rewrite length_map.
    destruct payload as [|kv rest]; simpl; destruct (truthy useQueryParam); simpl;
      repeat split; intros; try congruence; try tauto.
Qed.

(** ** The stand-in for JSON is an instance *)

Lemma append_String c s t : String.append (String c s) t = String c (String.append s t).
Proof. reflexivity. Qed.

Lemma append_assoc (s t u : string) :
  String.append (String.append s t) u = String.append s (String.append t u).
Proof.
  induction s as [|c s IH]; [reflexivity|].
  rewrite !append_String. f_equal. exact IH.
Qed.

Lemma length_append (s t : string) :
  String.length (String.append s t) = (String.length s + String.length t)%nat.
Proof.
  induction s as [|c s IH]; [reflexivity|].
  rewrite append_String. simpl. rewrite IH. reflexivity.
Qed.

Lemma parse_string_body_escape_char c rest :
  parse_string_body (String.append (escape_char c) rest)
  = cons_char c (parse_string_body rest).
Proof. destruct c as [[] [] [] [] [] [] [] []]; reflexivity. Qed.

Lemma parse_string_body_escape s rest :
  parse_string_body (String.append (escape s) (String dquote rest)) = Some (s, rest).
Proof.
  induction s as [|c s IH].
  - reflexivity.
  - change (escape (String c s)) with (String.append (escape_char c) (escape s)).
    rewrite append_assoc, parse_string_body_escape_char, IH. reflexivity.
Qed.

Lemma append_empty_l s : String.append "" s = s.
Proof. reflexivity. Qed.

Ltac normalize_append :=
  repeat (rewrite append_String || rewrite append_empty_l || rewrite append_assoc).

(** The text of one property whose value is the string [v]. *)
Lemma parse_member_text k v rest :
  parse_member (String.append (String.append (quote k) (String.append ":" (quote v))) rest)
  = Some ((k, JStr v), rest).
Proof.
  unfold quote. normalize_append.
  unfold parse_member. cbv beta iota.
  rewrite Ascii.eqb_refl, parse_string_body_escape.
  rewrite Ascii.eqb_refl, parse_string_body_escape. reflexivity.
Qed.

Lemma parse_members_text (fields : list (string * jsonValue)) :
  Forall (fun kv => exists s, snd kv = JStr s) fields ->
  fields <> [] ->
  forall fuel, (List.length fields <= fuel)%nat ->
  parse_members fuel
    (String.append
       (String.concat ","
          (List.map (fun kv => String.append (quote (fst kv))
                                 (String.append ":" (example_stringify (snd kv)))) fields))
       "}")
  = Some fields.
Proof.
  induction 1 as [|[k x] rest [v Hv] Hrest IH]; intros Hne fuel Hfuel; [congruence|].
  simpl in Hv. subst x.
  destruct fuel as [|fuel]; [simpl in Hfuel; lia|].
  destruct rest as [|kv' rest'].
  - cbn [List.map String.concat parse_members fst snd example_stringify].
    rewrite parse_member_text. reflexivity.
  - cbn [List.map String.concat parse_members fst snd example_stringify] in *.
    rewrite append_assoc, parse_member_text.
    rewrite append_assoc, append_String, append_empty_l.
    rewrite IH; [reflexivity|discriminate|simpl in *; lia].
Qed.

Lemma length_members_text (fields : list (string * jsonValue)) (print : string * jsonValue -> string) :
  (List.length fields <= String.length (String.append (String.concat "," (List.map print fields)) "}"))%nat.
Proof.
  induction fields as [|kv [|kv' rest] IH].
  - simpl. lia.
  - cbn [List.map String.concat]. rewrite length_append. simpl. lia.
  - cbn [List.map String.concat] in *. rewrite !append_assoc, length_append.
    rewrite append_String, append_empty_l. simpl String.length at 2.
    simpl List.length in *. lia.
Qed.

Lemma example_parse_stringify (fields : list (string * jsonValue)) :
  string_record fields ->
  example_parse (example_stringify (JObj fields)) = Some (JObj fields).
Proof.
  intros [_ Hvalues].
  assert (Hstr : Forall (fun kv => exists s, snd kv = JStr s) fields)
    by (eapply Forall_impl; [exact Hvalues|]; intros x [_ Hx]; exact Hx).
  destruct fields as [|kv rest]; [reflexivity|].
  cbn [example_stringify].
  set (print := fun kv0 : string * jsonValue =>
                  String.append (quote (fst kv0)) (String.append ":" (example_stringify (snd kv0)))).
  rewrite append_String, append_empty_l.
  assert (Hfirst : exists c t,
             String.append (String.concat "," (List.map print (kv :: rest))) "}" = String c t
             /\ c = dquote).
  { destruct rest; cbn [List.map String.concat]; unfold print at 1, quote;
      normalize_append; eauto. }
  destruct Hfirst as [c [t [Htext Hc]]].
  pose proof (parse_members_text (kv :: rest) Hstr ltac:(discriminate)
                (String.length (String.append (String.concat "," (List.map print (kv :: rest))) "}"))
                (length_members_text _ print)) as Hparse.
  fold print in Hparse.
  unfold example_parse. rewrite Htext in *. subst c.
  cbv beta iota. unfold dquote at 1. cbv beta iota.
  rewrite Hparse. reflexivity.
Qed.

Lemma example_stringify_object fields : example_stringify (JObj fields) <> "".
Proof. cbn [example_stringify]. rewrite append_String. discriminate. Qed.

Lemma example_JSON : JSON.
Proof.
  exact {| JSON_stringify := example_stringify;
           JSON_parse := example_parse;
           JSON_stringify_object := example_stringify_object;
           JSON_parse_stringify := example_parse_stringify |}.
Defined.

(** The query parameter of the unit test of [createRequestOptions]. *)
Example base64_of_foo_bar :
  base64_encode (Buffer_from (example_stringify (JObj [("foo", JStr "bar")])))
  = "eyJmb28iOiJiYXIifQ==".
Proof. reflexivity. Qed.

Lemma createRequestOptions_payload_witness :
  exists options,
    createRequestOptions (H:=example_crypto) (H0:=example_JSON) (H1:=example_JWT)
      (H2:=example_PathToRegexp) example_client 1483228800 "/foo" (Some (JObj []))
      (Some [("foo", JStr "bar")]) (VBool true) = Normal options /\
    url options = "http://testdomain/foo" /\
    json options = true /\
    x_access_token (headers options)
    = jwt_sign (JWT:=example_JWT)
        (JObj [("checksum",
                JStr (hex (sha256 (Crypto:=example_crypto)
                             (Buffer_from (example_stringify (JObj [("foo", JStr "bar")]))))))])
        (VStr "testServiceToken") "HS256" 1483228800 /\
    body options = None /\
    searchParams options = Some {| payload := "eyJmb28iOiJiYXIifQ==" |}.
Proof.
  destruct (createRequestOptions_payload (H:=example_crypto) (H0:=example_JSON) (H1:=example_JWT)
              (H2:=example_PathToRegexp) example_client 1483228800 "/foo" (Some (JObj []))
              (Some [("foo", JStr "bar")]) (VBool true)) as [_ Hreturns].
  destruct (Hreturns "http://testdomain/foo" eq_refl)
    as [options [Hcall [Hurl [Hjson [Htoken [_ [Hquery _]]]]]]].
  exists options. split; [exact Hcall|]. split; [exact Hurl|]. split; [exact Hjson|].
  split; [exact Htoken|].
  apply Hquery; [discriminate|reflexivity].
Defined.

(** C8 as stated fails on a pattern whose placeholder has no value in the
    context: the url templating throws, and [createRequestOptions] returns
    no options. *)
Lemma createRequestOptions_payload_counterexample :
  createRequestOptions (H:=example_crypto) (H0:=example_JSON) (H1:=example_JWT)
    (H2:=example_PathToRegexp) example_client 1483228800 "/user/:userId" (Some (JObj []))
    (Some [("foo", JStr "bar")]) (VBool true) = Throw NativeTypeError.
Proof. reflexivity. Qed.

(** ** The identity of the user *)

Lemma constructor_returns secret token slug microserviceUrl errorClass w w' this :
  constructor secret token slug microserviceUrl errorClass w = (w', Normal this) ->
  truthy secret = true /\ serviceSecret this = secret.
Proof.
  unfold constructor, bind.
  destruct (truthy secret); simpl; [|discriminate].
  destruct (truthy token); simpl; [|discriminate].
  destruct (truthy slug); simpl; [|discriminate].
  destruct (truthy microserviceUrl); simpl; [|discriminate].
  unfold ret. intros Heq. inversion Heq; subst. split; reflexivity.
Qed.

Lemma userId_userToken_record userId userToken :
  string_record [("userId", JStr userId); ("userToken", JStr userToken)].
Proof.
  split.
  - simpl. repeat constructor; simpl; intros Hin.
    + apply list_elem_of_In in Hin. destruct Hin as [Heq|[]]. discriminate.
    + apply list_elem_of_In in Hin. destruct Hin.
  - repeat constructor; simpl; eauto.
Qed.

(** C10. On a client built from four strings, and for non-empty strings
    [userId] and [userToken], the text [encryptUserIdAndToken] returns does
    not depend on the random bytes the call could draw (the seed
    [userId + userToken] is not empty, so the vector is its MD5 digest), and
    [decryptUserIdAndToken] returns the object [{userId, userToken}] from
    it, leaving the world as it is. *)
Theorem encryptUserIdAndToken_round_trip `{Crypto} `{JSON} `{Utf8}
    (serviceSecret serviceToken serviceSlug microserviceUrl : string)
    (errorClass : option errorClass) (w w' : world) (this : FBJWTClient)
    (randomBytes randomBytes' : list ascii) (userId userToken : string) :
  constructor (VStr serviceSecret) (VStr serviceToken) (VStr serviceSlug) (VStr microserviceUrl)
    errorClass w = (w', Normal this) ->
  userId <> "" -> userToken <> "" ->
  encryptUserIdAndToken this randomBytes userId userToken
  = encryptUserIdAndToken this randomBytes' userId userToken /\
  exists encrypted,
    encryptUserIdAndToken this randomBytes userId userToken = aes256.Returned encrypted /\
    forall w1, decryptUserIdAndToken this (VStr encrypted) w1
               = (w1, Normal (JObj [("userId", JStr userId); ("userToken", JStr userToken)])).
Proof.
  intros Hnew HuserId HuserToken.
  apply constructor_returns in Hnew. destruct Hnew as [Htruthy Hsecret].
  assert (Hkey : serviceSecret <> "").
  { simpl in Htruthy. destruct (String.eqb_spec serviceSecret ""); [discriminate|assumption]. }
  assert (Hseed : String.append userId userToken <> "").
  { destruct userId; [congruence|discriminate]. }
  set (data := JObj [("userId", JStr userId); ("userToken", JStr userToken)]).
  pose proof (JSON_stringify_object [("userId", JStr userId); ("userToken", JStr userToken)]) as Htext.
  fold data in Htext.
  unfold encryptUserIdAndToken, decryptUserIdAndToken, encrypt, decrypt.
  rewrite Hsecret. fold data.
  split.
  - rewrite !aes256_encrypt_seeded by assumption. reflexivity.
  - destruct (aes256_round_trip randomBytes serviceSecret (JSON_stringify data)
                (Some (String.append userId userToken)) Hkey Htext) as [encrypted [Henc Hdec]].
    { unfold encrypt_iv. destruct (String.eqb_spec (String.append userId userToken) "");
        [contradiction|]. apply md5_digest_length. }
    exists encrypted. split; [exact Henc|].
    intros w1. rewrite Hdec. unfold data.
    rewrite JSON_parse_stringify by apply userId_userToken_record.
    reflexivity.
Qed.

Lemma encryptUserIdAndToken_round_trip_witness :
  let this := {| ErrorClass := FBJWTClientError;
                 serviceSecret := VStr "testServiceSecret";
                 serviceToken := VStr "testServiceToken";
                 serviceUrl := VStr "https://microservice";
                 serviceSlug := VStr "testServiceSlug" |} in
  encryptUserIdAndToken (H:=example_crypto) (H0:=example_JSON) this (repeat "a"%char 16)
    "testUserId" "testUserToken"
  = encryptUserIdAndToken (H:=example_crypto) (H0:=example_JSON) this (repeat "b"%char 16)
      "testUserId" "testUserToken" /\
  exists encrypted,
    encryptUserIdAndToken (H:=example_crypto) (H0:=example_JSON) this (repeat "a"%char 16)
      "testUserId" "testUserToken" = aes256.Returned encrypted /\
    forall w1, decryptUserIdAndToken (H:=example_crypto) (H0:=example_JSON) (H1:=example_Utf8) this (VStr encrypted) w1
               = (w1, Normal (JObj [("userId", JStr "testUserId");
                                    ("userToken", JStr "testUserToken")])).
Proof.
  intros this.
  apply (encryptUserIdAndToken_round_trip (H:=example_crypto) (H0:=example_JSON) (H1:=example_Utf8)
           "testServiceSecret" "testServiceToken" "testServiceSlug" "https://microservice"
           None (world_of ∅) (world_of ∅) this).
  - reflexivity.
  - discriminate.
  - discriminate.
Defined.

(** ** The dispatch pipeline *)

(** C1, at the path of the white-space body: the transport receives a
    201 response whose body is one space, calls the request hook and the
    response hook, and rejects with a parse error that carries the response.
    [send] resolves to a new empty object, but the api timer it started
    (handle 0) is never ended, and the timer of the attempt (handle 1) is
    ended twice: by the response hook and again by the [catch] block, which
    calls [requestMetricsEnd] where the other two exits call
    [apiMetricsEnd]. *)
Theorem send_white_space_body_timers :
  let r := send (H:=example_crypto) (H0:=example_JSON) (H1:=example_JWT)
             (H2:=example_PathToRegexp)
             (H3:=example_Got (H:=example_JSON) 201 "Created" (VStr " "))
             example_client 1483228800 "get" (example_args "/spaces-body") false (world_of ∅) in
  snd r = Normal (VRef 3) /\
  object_at (fst r) 3 = ∅ /\
  started ApiMetrics 0 (metrics (fst r)) = true /\
  ended ApiMetrics 0 (metrics (fst r)) = 0%nat /\
  started RequestMetrics 1 (metrics (fst r)) = true /\
  ended RequestMetrics 1 (metrics (fst r)) = 2%nat.
Proof.
  cbv zeta. repeat split; vm_compute; reflexivity.
Qed.

Lemma bind_normal {A B} (m : js A) (k : A -> js B) w w' a :
  m w = (w', Normal a) -> bind m k w = k a w'.
Proof. intros Hm. unfold bind. rewrite Hm. reflexivity. Qed.

Lemma bind_throw {A B} (m : js A) (k : A -> js B) w w' e :
  m w = (w', Throw e) -> bind m k w = (w', Throw e).
Proof. intros Hm. unfold bind. rewrite Hm. reflexivity. Qed.

Lemma hooked_normal (hook : js unit) (next : js value) w w' u :
  hook w = (w', Normal u) -> hooked hook next w = next w'.
Proof. intros Hhook. unfold hooked. rewrite Hhook. reflexivity. Qed.

Lemma hooked_throw (hook : js unit) (next : js value) w w' e :
  hook w = (w', Throw e) -> hooked hook next w = emitError e w'.
Proof. intros Hhook. unfold hooked. rewrite Hhook. reflexivity. Qed.

Lemma getResponseLabels_object v w :
  v <> VUndefined -> v <> VNull ->
  getResponseLabels v w = (w, Normal (labels_of w v)).
Proof.
  intros Hu Hn. unfold getResponseLabels.
  rewrite (bind_normal _ _ _ _ _ (get_object v "statusCode" w Hu Hn)).
  rewrite (bind_normal _ _ _ _ _ (get_object v "statusMessage" w Hu Hn)).
  rewrite (bind_normal _ _ _ _ _ (get_object v "name" w Hu Hn)).
  reflexivity.
Qed.


Lemma prop_same_object w w' l f :
  heap w' !! l = heap w !! l -> prop w' (VRef l) f = prop w (VRef l) f.
Proof. intros Hl. unfold prop, object_at. rewrite Hl. reflexivity. Qed.




Section Send.
Context `{Crypto} `{JSON} `{JWT} `{PathToRegexp} `{Got}.
Variables (this : FBJWTClient) (now : Z) (method : string) (args : sendArgs) (logger : bool).

(** [send], once the options are built: the transport is awaited in the
    world [send_started] and the api timer has the next free handle. *)
Lemma send_awaits options w :
  createRequestOptions this now (args_url args) (Some (default (JObj []) (args_context args)))
    (args_payload args) (VBool (String.eqb method "get")) = Normal options ->
  let labels := send_labels this method args in
  let apiMetricsEnd := VEndTimer ApiMetrics (List.length (metrics w)) in
  send this now method args logger w
  = try_catch
      (response <- await labels logger (got method (args_sendOptions args) options) ;;
       l <- getResponseLabels response ;;
       call_end apiMetricsEnd l ;;;
       get response "body")
      (send_catch this labels logger apiMetricsEnd)
      (send_started labels w).
Proof.
  intros Hoptions labels apiMetricsEnd.
  unfold send. rewrite Hoptions. reflexivity.
Qed.

Lemma send_resolves options w w2 response :
  createRequestOptions this now (args_url args) (Some (default (JObj []) (args_context args)))
    (args_payload args) (VBool (String.eqb method "get")) = Normal options ->
  let labels := send_labels this method args in
  await labels logger (got method (args_sendOptions args) options) (send_started labels w)
  = (w2, Normal response) ->
  response <> VUndefined -> response <> VNull ->
  send this now method args logger w
  = (with_metrics w2 (metrics w2 ++ [EndTimer ApiMetrics (List.length (metrics w))
                                       (labels_of w2 response)]),
     Normal (prop w2 response "body")).
Proof.
  intros Hoptions labels Hawait Hu Hn.
  rewrite (send_awaits options w Hoptions). cbv zeta. fold labels.
  unfold try_catch.
  rewrite (bind_normal _ _ _ _ _ Hawait).
  rewrite (bind_normal _ _ _ _ _ (getResponseLabels_object response w2 Hu Hn)).
  set (w3 := with_metrics w2 (metrics w2 ++ [EndTimer ApiMetrics (List.length (metrics w))
                                               (labels_of w2 response)])).
  rewrite (bind_normal _ _ w2 w3 tt) by reflexivity.
  rewrite (get_object response "body" w3 Hu Hn). reflexivity.
Qed.

Lemma trim_start_white_space s : all_white_space s = true -> trim_start s = "".
Proof.
  assert (Hall : forall n s, (String.length s <= n)%nat ->
                             all_white_space s = true -> trim_start s = "").
  { clear s. induction n as [|n IH]; intros [|c1 s1] Hlen Hws; try reflexivity;
      cbn [String.length] in Hlen; [lia|].
    cbn [all_white_space trim_start] in *.
    destruct (is_white_space c1); [apply IH; [lia|exact Hws]|].
    destruct s1 as [|c2 s2]; [discriminate|]. cbn [String.length] in Hlen.
    destruct (is_white_space2 c1 c2); [apply IH; [lia|exact Hws]|].
    destruct s2 as [|c3 s3]; [discriminate|]. cbn [String.length] in Hlen.
    apply andb_true_iff in Hws. destruct Hws as [Hws3 Hws]. rewrite Hws3.
    apply IH; [lia|exact Hws]. }
  apply (Hall (String.length s)). lia.
Qed.


End Send.



Lemma await_Look labels logger next w :
  await labels logger (Look next) w = await labels logger (next (heap w)) w.
Proof. reflexivity. Qed.







(** On the two other exits the api timer is ended once, and so is the
    timer of the attempt: a 201 response with an empty body, and a 404
    response (with a logger). *)
Example send_resolved_timers :
  let r := send (H:=example_crypto) (H0:=example_JSON) (H1:=example_JWT)
             (H2:=example_PathToRegexp)
             (H3:=example_Got (H:=example_JSON) 201 "Created" (VStr ""))
             example_client 1483228800 "get" (example_args "/empty-string-body") false
             (world_of ∅) in
  ended ApiMetrics 0 (metrics (fst r)) = 1%nat /\
  ended RequestMetrics 1 (metrics (fst r)) = 1%nat.
Proof. cbv zeta. split; vm_compute; reflexivity. Qed.

Example send_failed_timers :
  let r := send (H:=example_crypto) (H0:=example_JSON) (H1:=example_JWT)
             (H2:=example_PathToRegexp)
             (H3:=example_Got (H:=example_JSON) 404 "Not Found" (VStr ""))
             example_client 1483228800 "get" (example_args "/notfound") true (world_of ∅) in
  ended ApiMetrics 0 (metrics (fst r)) = 1%nat /\
  ended RequestMetrics 1 (metrics (fst r)) = 1%nat.
Proof. cbv zeta. split; vm_compute; reflexivity. Qed.

(** Without a logger, the response hook calls [logError] all the same on an
    error status, and the [TypeError] on the missing logger leaves the hook
    before the timer of the attempt is ended: for a 404 response the timer
    with handle 1 is never ended, and [send] throws code 500 with message
    [ENOERROR] instead of code 404. *)
Example send_error_status_without_logger :
  let r := send (H:=example_crypto) (H0:=example_JSON) (H1:=example_JWT)
             (H2:=example_PathToRegexp)
             (H3:=example_Got (H:=example_JSON) 404 "Not Found" (VStr ""))
             example_client 1483228800 "get" (example_args "/notfound") false (world_of ∅) in
  started RequestMetrics 1 (metrics (fst r)) = true /\
  ended RequestMetrics 1 (metrics (fst r)) = 0%nat /\
  ended ApiMetrics 0 (metrics (fst r)) = 1%nat /\
  snd r = Throw (Exn (VRef 4)) /\
  prop (fst r) (VRef 4) "code" = VNum 500 /\
  prop (fst r) (VRef 4) "message" = VStr "ENOERROR".
Proof. cbv zeta. repeat split; vm_compute; reflexivity. Qed.

(** ** The api timer, for every transport *)

Lemma quiet_step_refl w : request_timer (requestMetricsEnd w) -> quiet_step w w.
Proof. intros Hw. split; [exact Hw|]. exists []. rewrite app_nil_r. split; reflexivity. Qed.

Lemma quiet_step_trans w1 w2 w3 : quiet_step w1 w2 -> quiet_step w2 w3 -> quiet_step w1 w3.
Proof.
  intros [_ [evs [Hm Hevs]]] [Hw3 [evs' [Hm' Hevs']]]. split; [exact Hw3|].
  exists (evs ++ evs')%list. split.
  - rewrite Hm', Hm, app_assoc. reflexivity.
  - rewrite existsb_app, Hevs, Hevs'. reflexivity.
Qed.

Lemma quiet_bind {A B} (P : A -> Prop) (Q : B -> Prop) (m : js A) (k : A -> js B) :
  quiet P m -> (forall a, P a -> quiet Q (k a)) -> quiet Q (bind m k).
Proof.
  intros Hm Hk w w' c Hw Hrun. unfold bind in Hrun.
  destruct (m w) as [w1 [a|e]] eqn:Hmw.
  - destruct (Hm w w1 (Normal a) Hw Hmw) as [Hstep Ha].
    destruct (Hk a (Ha a eq_refl) w1 w' c (proj1 Hstep) Hrun) as [Hstep' Hq].
    split; [eapply quiet_step_trans; eassumption|exact Hq].
  - inversion Hrun; subst. destruct (Hm w w' (Throw e) Hw Hmw) as [Hstep _].
    split; [exact Hstep|]. intros b Hb. discriminate.
Qed.

Lemma quiet_weaken {A} (P Q : A -> Prop) (m : js A) :
  (forall a, P a -> Q a) -> quiet P m -> quiet Q m.
Proof.
  intros HPQ Hm w w' c Hw Hrun. destruct (Hm w w' c Hw Hrun) as [Hstep Ha].
  split; [exact Hstep|]. intros a Hc. apply HPQ, Ha, Hc.
Qed.

(** A computation that leaves the metrics and the timer variable alone. *)
Lemma quiet_silent {A} (P : A -> Prop) (m : js A) :
  (forall w w' c, m w = (w', c) ->
     metrics w' = metrics w /\ requestMetricsEnd w' = requestMetricsEnd w /\
     forall a, c = Normal a -> P a) ->
  quiet P m.
Proof.
  intros Hm w w' c Hw Hrun. destruct (Hm w w' c Hrun) as [Hmet [Hrme Ha]].
  split; [|exact Ha]. split; [rewrite Hrme; exact Hw|].
  exists []. rewrite app_nil_r. split; [exact Hmet|reflexivity].
Qed.

Lemma quiet_ret {A} (P : A -> Prop) a : P a -> quiet P (ret a).
Proof.
  intros Ha. apply quiet_silent. intros w w' c Hrun. inversion Hrun; subst.
  repeat split. intros b Hb. inversion Hb; subst. exact Ha.
Qed.

Lemma quiet_throw {A} (P : A -> Prop) e : quiet P (throw e).
Proof.
  apply quiet_silent. intros w w' c Hrun. inversion Hrun; subst.
  repeat split. intros b Hb. discriminate.
Qed.

Lemma quiet_get v f : quiet any (get v f).
Proof.
  apply quiet_silent. intros w w' c Hrun.
  destruct v; inversion Hrun; subst; repeat split.
Qed.

Lemma quiet_set v f x : quiet any (set v f x).
Proof.
  apply quiet_silent. intros w w' c Hrun.
  destruct v; inversion Hrun; subst; repeat split.
Qed.

Lemma quiet_alloc o : quiet any (alloc o).
Proof.
  apply quiet_silent. intros w w' c Hrun. inversion Hrun; subst. repeat split.
Qed.

Lemma quiet_trim v : quiet any (trim v).
Proof.
  apply quiet_silent. intros w w' c Hrun.
  destruct v; inversion Hrun; subst; repeat split.
Qed.

Lemma quiet_read_requestMetricsEnd : quiet request_timer read_requestMetricsEnd.
Proof.
  intros w w' c Hw Hrun. inversion Hrun; subst.
  split; [apply quiet_step_refl; exact Hw|]. intros a Ha. inversion Ha; subst. exact Hw.
Qed.

Lemma quiet_write_requestMetricsEnd v :
  request_timer v -> quiet any (write_requestMetricsEnd v).
Proof.
  intros Hv w w' c Hw Hrun. inversion Hrun; subst.
  split; [|intros; exact I]. split; [exact Hv|].
  exists []. simpl. rewrite app_nil_r. split; reflexivity.
Qed.

Lemma quiet_read_retryCounter : quiet any read_retryCounter.
Proof. apply quiet_silent. intros w w' c Hrun. inversion Hrun; subst. repeat split. Qed.

Lemma quiet_write_retryCounter v : quiet any (write_retryCounter v).
Proof. apply quiet_silent. intros w w' c Hrun. inversion Hrun; subst. repeat split. Qed.

Lemma quiet_startTimer labels : quiet request_timer (startTimer RequestMetrics labels).
Proof.
  intros w w' c Hw Hrun. inversion Hrun; subst.
  split.
  - split; [exact Hw|]. eexists. split; reflexivity.
  - intros a Ha. inversion Ha; subst. right. eexists. reflexivity.
Qed.

Lemma quiet_call_end f l : request_timer f -> quiet any (call_end f l).
Proof.
  intros [->|[handle ->]] w w' c Hw Hrun; inversion Hrun; subst.
  - split; [apply quiet_step_refl; exact Hw|intros; exact I].
  - split; [|intros; exact I]. split; [exact Hw|]. eexists. split; reflexivity.
Qed.

Ltac quiet_tac :=
  repeat first
    [ apply quiet_ret; exact I
    | apply quiet_throw
    | apply quiet_get
    | apply quiet_set
    | apply quiet_alloc
    | apply quiet_trim
    | apply quiet_read_retryCounter
    | apply quiet_write_retryCounter
    | apply quiet_read_requestMetricsEnd
    | apply quiet_startTimer
    | apply quiet_write_requestMetricsEnd; assumption
    | apply quiet_call_end; assumption
    | eapply quiet_bind; [|intros ? ?]
    | match goal with |- quiet _ (if ?b then _ else _) => destruct b end
    | match goal with |- quiet _ (fun w => _) => fail 1 end ].

Lemma quiet_getResponseLabels v : quiet any (getResponseLabels v).
Proof. unfold getResponseLabels. quiet_tac. Qed.

Lemma quiet_send_logError labels logger type e : quiet any (send_logError labels logger type e).
Proof.
  unfold send_logError, logError.
  eapply quiet_bind; [apply quiet_get|intros ? _].
  eapply quiet_bind; [apply quiet_get|intros ? _].
  eapply quiet_bind; [apply quiet_get|intros ? _].
  eapply quiet_bind.
  - match goal with |- quiet _ (if ?b then _ else _) => destruct b end.
    + eapply quiet_bind; [apply quiet_get|intros ? _]. apply quiet_set.
    + apply (quiet_ret any tt I).
  - intros ? _. destruct logger; [|apply quiet_throw].
    apply quiet_silent. intros w w' c Hrun. inversion Hrun; subst. repeat split.
Qed.

Lemma quiet_beforeRequest labels : quiet any (beforeRequest labels).
Proof.
  unfold beforeRequest.
  eapply quiet_bind; [apply quiet_startTimer|intros e He].
  apply quiet_write_requestMetricsEnd. exact He.
Qed.

Lemma quiet_end_request_timer v :
  quiet any (requestMetricsEnd <- read_requestMetricsEnd ;;
             l <- getResponseLabels v ;;
             call_end requestMetricsEnd l).
Proof.
  eapply quiet_bind; [apply quiet_read_requestMetricsEnd|intros f Hf].
  eapply quiet_bind; [apply quiet_getResponseLabels|intros l _].
  apply quiet_call_end. exact Hf.
Qed.

Lemma quiet_beforeRetry labels logger error retryCount :
  quiet any (beforeRetry labels logger error retryCount).
Proof.
  unfold beforeRetry.
  eapply quiet_bind; [apply quiet_set|intros ? _].
  eapply quiet_bind; [apply quiet_write_retryCounter|intros ? _].
  eapply quiet_bind; [apply quiet_send_logError|intros ? _].
  eapply quiet_bind.
  - eapply quiet_bind; [apply quiet_read_requestMetricsEnd|intros f Hf].
    destruct (truthy f); [|apply (quiet_ret any tt I)].
    eapply quiet_bind; [apply quiet_getResponseLabels|intros l _].
    apply quiet_call_end. exact Hf.
  - intros ? _. apply quiet_beforeRequest.
Qed.

Lemma quiet_beforeError error : quiet any (beforeError error).
Proof.
  unfold beforeError.
  eapply quiet_bind; [apply quiet_read_retryCounter|intros ? _].
  eapply quiet_bind; [apply quiet_set|intros ? _].
  eapply quiet_bind; [apply quiet_read_requestMetricsEnd|intros f Hf].
  eapply quiet_bind; [apply quiet_getResponseLabels|intros l _].
  eapply quiet_bind; [apply quiet_call_end; exact Hf|intros ? _].
  apply (quiet_ret any error I).
Qed.

Lemma quiet_afterResponse labels logger response :
  quiet any (afterResponse labels logger response).
Proof.
  unfold afterResponse.
  eapply quiet_bind; [apply quiet_get|intros statusCode _].
  eapply quiet_bind.
  - destruct (js_ge statusCode 400); [|apply (quiet_ret any tt I)].
    eapply quiet_bind; [apply quiet_get|intros ? _].
    eapply quiet_bind; [apply quiet_get|intros ? _].
    eapply quiet_bind; [apply quiet_get|intros ? _].
    eapply quiet_bind; [apply quiet_alloc|intros ? _].
    apply quiet_send_logError.
  - intros ? _.
    eapply quiet_bind; [apply quiet_read_requestMetricsEnd|intros f Hf].
    eapply quiet_bind; [apply quiet_getResponseLabels|intros l _].
    eapply quiet_bind; [apply quiet_call_end; exact Hf|intros ? _].
    eapply quiet_bind; [apply quiet_get|intros ? _].
    eapply quiet_bind; [apply quiet_set|intros ? _].
    apply (quiet_ret any response I).
Qed.

Lemma quiet_emitError e : quiet any (emitError e).
Proof.
  unfold emitError.
  eapply quiet_bind.
  - instantiate (1 := any). destruct e; [apply (quiet_ret any v I)|apply quiet_alloc].
  - intros error _.
    eapply quiet_bind; [apply quiet_beforeError|intros error' _; apply quiet_throw].
Qed.

Lemma quiet_hooked (hook : js unit) (next : js value) :
  quiet any hook -> quiet any next -> quiet any (hooked hook next).
Proof.
  intros Hhook Hnext w w' c Hw Hrun. unfold hooked in Hrun.
  destruct (hook w) as [w1 [u|e]] eqn:Hh.
  - destruct (Hhook w w1 (Normal u) Hw Hh) as [Hstep _].
    destruct (Hnext w1 w' c (proj1 Hstep) Hrun) as [Hstep' _].
    split; [exact (quiet_step_trans _ _ _ Hstep Hstep')|intros; exact I].
  - destruct (Hhook w w1 (Throw e) Hw Hh) as [Hstep _].
    destruct (quiet_emitError e w1 w' c (proj1 Hstep) Hrun) as [Hstep' _].
    split; [exact (quiet_step_trans _ _ _ Hstep Hstep')|intros; exact I].
Qed.

(** Whatever the transport does, the hooks only start and end timers of
    attempts. *)
Lemma quiet_await labels logger (t : transport) : quiet any (await labels logger t).
Proof.
  induction t as [response|error|next IH|error retryCount next IH|error next IH
                 |response next IH|f next IH|next IH]; simpl.
  - apply (quiet_ret any response I).
  - apply quiet_throw.
  - apply quiet_hooked; [apply quiet_beforeRequest|exact IH].
  - apply quiet_hooked; [apply quiet_beforeRetry|exact IH].
  - eapply quiet_bind; [apply quiet_beforeError|intros e _; apply IH].
  - eapply quiet_bind; [apply quiet_afterResponse|intros r _; apply IH].
  - eapply quiet_bind; [|intros ? _; exact IH].
    apply (quiet_silent any). intros w w' c Hrun. inversion Hrun; subst. repeat split.
  - intros w w' c Hw Hrun. exact (IH (heap w) w w' c Hw Hrun).
Qed.

Lemma ended_app hg handle (m1 m2 : list metric_event) :
  ended hg handle (m1 ++ m2) = (ended hg handle m1 + ended hg handle m2)%nat.
Proof. unfold ended. rewrite List.filter_app, length_app. reflexivity. Qed.

Lemma ended_no_api_end handle (evs : list metric_event) :
  existsb api_end evs = false -> ended ApiMetrics handle evs = 0%nat.
Proof.
  induction evs as [|ev evs IH]; [reflexivity|].
  simpl. intros Hex. apply orb_false_iff in Hex. destruct Hex as [Hev Hevs].
  unfold ended in *. simpl.
  destruct ev as [hg h l|hg h l]; [apply IH; exact Hevs|].
  destruct hg; [discriminate|]. simpl. apply IH. exact Hevs.
Qed.

Lemma started_app hg handle (m1 m2 : list metric_event) :
  started hg handle (m1 ++ m2) = started hg handle m1 || started hg handle m2.
Proof. unfold started. apply existsb_app. Qed.

Lemma quiet_step_ended w w' handle :
  quiet_step w w' -> ended ApiMetrics handle (metrics w') = ended ApiMetrics handle (metrics w).
Proof.
  intros [_ [evs [Hm Hevs]]]. rewrite Hm, ended_app, (ended_no_api_end handle evs Hevs). lia.
Qed.

Lemma quiet_step_started w w' hg handle :
  quiet_step w w' -> started hg handle (metrics w) = true -> started hg handle (metrics w') = true.
Proof.
  intros [_ [evs [Hm _]]] Hs. rewrite Hm, started_app, Hs. reflexivity.
Qed.

Lemma quiet_handleRequestError {A} C err : quiet any (@handleRequestError A C err).
Proof.
  unfold handleRequestError, throwRequestError, new_ErrorClass.
  eapply quiet_bind; [apply quiet_get|intros name _].
  destruct (strict_eq name (VStr (class_name C))); [apply quiet_throw|].
  eapply quiet_bind; [apply quiet_get|intros body _].
  eapply quiet_bind.
  { destruct (truthy body); [|apply (quiet_ret any tt I)].
    destruct (String.eqb (typeof body) "object"); [apply quiet_set|apply (quiet_ret any tt I)]. }
  intros ? _.
  eapply quiet_bind; [apply quiet_get|intros statusCode _].
  destruct (truthy statusCode).
  - destruct (strict_eq statusCode (VNum 404)).
    + eapply quiet_bind; [apply quiet_alloc|intros ? _; apply quiet_throw].
    + eapply quiet_bind; [apply quiet_get|intros error _].
      eapply quiet_bind.
      { destruct (truthy error); [|apply (quiet_ret any VUndefined I)].
        eapply quiet_bind; [apply quiet_get|intros ? _].
        eapply quiet_bind; [apply quiet_get|intros ? _].
        apply quiet_ret. exact I. }
      intros ? _. eapply quiet_bind; [apply quiet_alloc|intros ? _; apply quiet_throw].
  - eapply quiet_bind; [apply quiet_get|intros error _].
    destruct (truthy error).
    + eapply quiet_bind; [apply quiet_get|intros ? _].
      eapply quiet_bind; [apply quiet_get|intros ? _].
      eapply quiet_bind; [apply quiet_alloc|intros ? _; apply quiet_throw].
    + eapply quiet_bind; [apply quiet_get|intros ? _].
      eapply quiet_bind; [apply quiet_alloc|intros ? _; apply quiet_throw].
Qed.

(** The start of [send] on a free handle. *)
Lemma send_started_timers labels w :
  let handle := List.length (metrics w) in
  ended ApiMetrics handle (metrics w) = 0%nat ->
  request_timer (requestMetricsEnd (send_started labels w)) /\
  started ApiMetrics handle (metrics (send_started labels w)) = true /\
  ended ApiMetrics handle (metrics (send_started labels w)) = 0%nat.
Proof.
  intros handle Hfree. unfold send_started. simpl. split; [left; reflexivity|]. split.
  - rewrite started_app. simpl.
    subst handle. rewrite Nat.eqb_refl. simpl. apply orb_true_r.
  - rewrite ended_app, Hfree. reflexivity.
Qed.

Section Timers.
Context `{Crypto} `{JSON} `{JWT} `{PathToRegexp} `{Got}.
Variables (this : FBJWTClient) (now : Z) (method : string) (args : sendArgs) (logger : bool).
Variables (options : RequestOptions) (w : world).
Hypothesis Hoptions :
  createRequestOptions this now (args_url args) (Some (default (JObj []) (args_context args)))
    (args_payload args) (VBool (String.eqb method "get")) = Normal options.
Hypothesis Hfree : ended ApiMetrics (List.length (metrics w)) (metrics w) = 0%nat.

(** When the transport resolves, the api timer is ended once. *)
Lemma send_resolved_ends_api_timer w2 response :
  await (send_labels this method args) logger (got method (args_sendOptions args) options)
    (send_started (send_labels this method args) w) = (w2, Normal response) ->
  response <> VUndefined -> response <> VNull ->
  exists w3 body,
    send this now method args logger w = (w3, Normal body) /\
    started ApiMetrics (List.length (metrics w)) (metrics w3) = true /\
    ended ApiMetrics (List.length (metrics w)) (metrics w3) = 1%nat.
Proof.
  intros Hawait Hu Hn.
  destruct (send_started_timers (send_labels this method args) w Hfree)
    as [Hvar [Hstarted Hended]].
  destruct (quiet_await _ logger _ _ _ _ Hvar Hawait) as [Hstep _].
  rewrite (send_resolves this now method args logger options w w2 response Hoptions Hawait Hu Hn).
  eexists. eexists. split; [reflexivity|]. simpl. split.
  - rewrite started_app, (quiet_step_started _ _ _ _ Hstep Hstarted). reflexivity.
  - rewrite ended_app, (quiet_step_ended _ _ _ Hstep), Hended.
    unfold ended. simpl. rewrite Nat.eqb_refl. reflexivity.
Qed.

(** The branch of the white-space body, whatever the variable
    [requestMetricsEnd] holds. *)
Lemma send_white_space_branch w2 error (r : positive) s :
  await (send_labels this method args) logger (got method (args_sendOptions args) options)
    (send_started (send_labels this method args) w) = (w2, Throw (Exn error)) ->
  prop w2 error "response" = VRef r ->
  js_lt (prop w2 (VRef r) "statusCode") 300 = true ->
  prop w2 (VRef r) "body" = VStr s -> s <> "" -> all_white_space s = true ->
  send this now method args logger w
  = (requestMetricsEnd <- read_requestMetricsEnd ;;
     l <- getResponseLabels (VRef r) ;;
     call_end requestMetricsEnd l ;;;
     alloc ∅) w2.
Proof.
  intros Hawait Hresponse Hstatus Hbody Hs Hwhite.
  assert (Herr : error <> VUndefined /\ error <> VNull).
  { destruct error; simpl in Hresponse; try discriminate; split; discriminate. }
  destruct Herr as [Hu Hn].
  rewrite (send_awaits this now method args logger options w Hoptions). cbv zeta.
  unfold try_catch.
  rewrite (bind_throw _ _ _ _ _ Hawait).
  unfold send_catch.
  rewrite (bind_normal _ _ w2 w2 error) by reflexivity.
  rewrite (bind_normal _ _ _ _ _ (get_object error "response" w2 Hu Hn)).
  rewrite Hresponse.
  rewrite (bind_normal _ _ w2 w2 true); [reflexivity|].
  change (truthy (VRef r)) with true. cbv iota.
  rewrite (bind_normal _ _ _ _ _ (get_ref r "statusCode" w2)). rewrite Hstatus.
  rewrite (bind_normal _ _ _ _ _ (get_ref r "body" w2)). rewrite Hbody.
  assert (Ht : truthy (VStr s) = true).
  { simpl. destruct (String.eqb_spec s ""); [contradiction|reflexivity]. }
  rewrite Ht.
  unfold trim. rewrite (trim_start_white_space s Hwhite).
  reflexivity.
Qed.

(** When the transport rejects with an error that carries a response with
    a status below 300 and a non-empty body of white space, the api timer is
    not ended, whether [send] resolves or (no timer of an attempt having been
    started) throws. *)
Lemma send_white_space_leaves_api_timer w2 error (r : positive) s :
  await (send_labels this method args) logger (got method (args_sendOptions args) options)
    (send_started (send_labels this method args) w) = (w2, Throw (Exn error)) ->
  prop w2 error "response" = VRef r ->
  js_lt (prop w2 (VRef r) "statusCode") 300 = true ->
  prop w2 (VRef r) "body" = VStr s -> s <> "" -> all_white_space s = true ->
  exists w3 c,
    send this now method args logger w = (w3, c) /\
    started ApiMetrics (List.length (metrics w)) (metrics w3) = true /\
    ended ApiMetrics (List.length (metrics w)) (metrics w3) = 0%nat.
Proof.
  intros Hawait Hresponse Hstatus Hbody Hs Hwhite.
  destruct (send_started_timers (send_labels this method args) w Hfree)
    as [Hvar [Hstarted Hended]].
  destruct (quiet_await _ logger _ _ _ _ Hvar Hawait) as [Hstep _].
  rewrite (send_white_space_branch w2 error r s Hawait Hresponse Hstatus Hbody Hs Hwhite).
  assert (Hquiet : quiet any (requestMetricsEnd <- read_requestMetricsEnd ;;
                              l <- getResponseLabels (VRef r) ;;
                              call_end requestMetricsEnd l ;;;
                              alloc ∅)).
  { eapply quiet_bind; [apply quiet_read_requestMetricsEnd|intros f Hf].
    eapply quiet_bind; [apply quiet_getResponseLabels|intros l _].
    eapply quiet_bind; [apply quiet_call_end; exact Hf|intros ? _].
    apply quiet_alloc. }
  match goal with |- exists w3 c, ?m w2 = _ /\ _ => destruct (m w2) as [w3 c] eqn:Hrun end.
  destruct (Hquiet w2 w3 c (proj1 Hstep) Hrun) as [Hstep' _].
  exists w3, c. split; [reflexivity|]. split.
  - apply (quiet_step_started _ _ _ _ Hstep'). apply (quiet_step_started _ _ _ _ Hstep).
    exact Hstarted.
  - rewrite (quiet_step_ended _ _ _ Hstep'), (quiet_step_ended _ _ _ Hstep). exact Hended.
Qed.

(** When the transport rejects with an error that carries no response, or
    a response whose status is not below 300, the api timer is ended once
    before the error is classified. *)
Lemma send_failed_ends_api_timer w2 (e : positive) :
  await (send_labels this method args) logger (got method (args_sendOptions args) options)
    (send_started (send_labels this method args) w) = (w2, Throw (Exn (VRef e))) ->
  truthy (prop w2 (VRef e) "response") = false \/
  js_lt (prop w2 (prop w2 (VRef e) "response") "statusCode") 300 = false ->
  exists w3 c,
    send this now method args logger w = (w3, c) /\
    started ApiMetrics (List.length (metrics w)) (metrics w3) = true /\
    ended ApiMetrics (List.length (metrics w)) (metrics w3) = 1%nat.
Proof.
  intros Hawait Hnot.
  destruct (send_started_timers (send_labels this method args) w Hfree)
    as [Hvar [Hstarted Hended]].
  destruct (quiet_await _ logger _ _ _ _ Hvar Hawait) as [Hstep _].
  rewrite (send_awaits this now method args logger options w Hoptions). cbv zeta.
  unfold try_catch.
  rewrite (bind_throw _ _ _ _ _ Hawait).
  unfold send_catch.
  rewrite (bind_normal _ _ w2 w2 (VRef e)) by reflexivity.
  rewrite (bind_normal _ _ _ _ _ (get_ref e "response" w2)).
  rewrite (bind_normal _ _ w2 w2 false).
  2:{ destruct (truthy (prop w2 (VRef e) "response")) eqn:Hresponse; [|reflexivity].
      destruct Hnot as [Hnot|Hnot]; [discriminate|].
      rewrite (bind_normal _ _ _ _ _ (get_truthy _ "statusCode" w2 Hresponse)).
      rewrite Hnot. reflexivity. }
  cbv iota.
  rewrite (bind_normal _ _ _ _ _ (getResponseLabels_object (VRef e) w2 ltac:(discriminate) ltac:(discriminate))).
  set (w2' := with_metrics w2 (metrics w2 ++ [EndTimer ApiMetrics (List.length (metrics w))
                                                (labels_of w2 (VRef e))])).
  rewrite (bind_normal _ _ w2 w2' tt) by reflexivity.
  assert (Hquiet : quiet (@any value)
            ((if logger then send_logError (send_labels this method args) logger "API" (VRef e)
              else ret tt) ;;; handleRequestError (ErrorClass this) (VRef e))).
  { eapply quiet_bind; [|intros ? _; apply quiet_handleRequestError].
    destruct logger; [apply quiet_send_logError|apply (quiet_ret any tt I)]. }
  match goal with |- exists w3 c, ?m w2' = _ /\ _ => destruct (m w2') as [w3 c] eqn:Hrun end.
  destruct (Hquiet w2' w3 c (proj1 Hstep) Hrun) as [Hstep' _].
  exists w3, c. split; [reflexivity|]. split.
  - apply (quiet_step_started _ _ _ _ Hstep'). unfold w2'. simpl.
    rewrite started_app, (quiet_step_started _ _ _ _ Hstep Hstarted). reflexivity.
  - rewrite (quiet_step_ended _ _ _ Hstep'). unfold w2'. simpl.
    rewrite ended_app, (quiet_step_ended _ _ _ Hstep), Hended.
    unfold ended. simpl. rewrite Nat.eqb_refl. reflexivity.
Qed.

End Timers.

(** * Further properties *)

(** ** More on the cipher *)

Lemma xor_ascii_cancel x y k : xor_ascii (xor_ascii x k) (xor_ascii y k) = xor_ascii x y.
Proof.
  destruct x as [x0 x1 x2 x3 x4 x5 x6 x7], y as [y0 y1 y2 y3 y4 y5 y6 y7],
    k as [k0 k1 k2 k3 k4 k5 k6 k7]. simpl.
  assert (Hx : forall a b c, xorb (xorb a c) (xorb b c) = xorb a b) by (intros [] [] []; reflexivity).
  rewrite !Hx. reflexivity.
Qed.

Lemma xor_bytes_ctr_update keystream pos a b :
  xor_bytes (ctr_update keystream pos a) (ctr_update keystream pos b) = xor_bytes a b.
Proof.
  revert pos b. induction a as [|x a IH]; intros pos [|y b]; simpl; try reflexivity.
  rewrite xor_ascii_cancel, IH. reflexivity.
Qed.

Lemma aes256_encrypt_returns `{Crypto} (randomBytes : list ascii) (key m : string)
    (ivSeed : option string) :
  key <> "" -> m <> "" ->
  aes256.encrypt randomBytes (VStr key) (VStr m) ivSeed
  = aes256.Returned
      (base64_encode
         (encrypt_iv randomBytes ivSeed
          ++ ctr_update
               (aes_256_ctr_keystream (sha256 (Buffer_from key)) (encrypt_iv randomBytes ivSeed))
               0 (Buffer_from m))).
Proof.
  intros Hkey Hm.
  assert (Hk : negb (String.eqb (typeof (VStr key)) "string") || negb (truthy (VStr key)) = false)
    by (apply non_empty_string_check; exists key; auto).
  assert (Hp : negb (String.eqb (typeof (VStr m)) "string") || negb (truthy (VStr m)) = false)
    by (apply non_empty_string_check; exists m; auto).
  unfold aes256.encrypt. rewrite Hk, Hp. cbv zeta. simpl aes256.string_of.
  fold (encrypt_iv randomBytes ivSeed). rewrite app_nil_r. reflexivity.
Qed.

Lemma encrypt_iv_length `{Crypto} (randomBytes : list ascii) (ivSeed : option string) :
  List.length randomBytes = 16%nat -> List.length (encrypt_iv randomBytes ivSeed) = 16%nat.
Proof.
  intros Hrnd. unfold encrypt_iv. destruct ivSeed as [seed|]; [|assumption].
  destruct (negb (String.eqb seed "")); [apply md5_digest_length|assumption].
Qed.

Lemma length_Buffer_from s : List.length (Buffer_from s) = String.length s.
Proof. induction s as [|c s IH]; simpl; [reflexivity|]. f_equal. exact IH. Qed.

(** X1. For a non-empty key and a non-empty plaintext, the text [encrypt]
    returns decodes (base64) to the initialization vector, in clear, in its
    first 16 bytes (the MD5 digest of a non-empty seed, else the 16 random
    bytes drawn), followed by a ciphertext that has exactly as many bytes as
    the plaintext. *)
Theorem aes256_encrypt_layout `{Crypto} (randomBytes : list ascii) (key m : string)
    (ivSeed : option string) :
  key <> "" -> m <> "" -> List.length randomBytes = 16%nat ->
  exists encrypted,
    aes256.encrypt randomBytes (VStr key) (VStr m) ivSeed = aes256.Returned encrypted /\
    firstn 16 (base64_decode encrypted) = encrypt_iv randomBytes ivSeed /\
    List.length (skipn 16 (base64_decode encrypted)) = String.length m.
Proof.
  intros Hkey Hm Hrnd.
  pose proof (encrypt_iv_length randomBytes ivSeed Hrnd) as Hiv.
  rewrite (aes256_encrypt_returns randomBytes key m ivSeed Hkey Hm).
  eexists. split; [reflexivity|].
  rewrite base64_decode_encode.
  rewrite (firstn_16_app _ _ Hiv), (skipn_16_app _ _ Hiv).
  split; [reflexivity|].
  rewrite ctr_update_length. apply length_Buffer_from.
Qed.

Lemma aes256_encrypt_layout_witness :
  exists encrypted,
    aes256.encrypt (H:=example_crypto) (repeat "a"%char 16) (VStr "testUserToken") (VStr "data")
      None = aes256.Returned encrypted /\
    firstn 16 (base64_decode encrypted) = repeat "a"%char 16 /\
    List.length (skipn 16 (base64_decode encrypted)) = 4%nat.
Proof.
  apply (aes256_encrypt_layout (H:=example_crypto) (repeat "a"%char 16) "testUserToken" "data"
           None); [discriminate|discriminate|reflexivity].
Defined.

(** X2. Two plaintexts encrypted with the same key and the same non-empty
    seed get the same initialization vector, hence the same key stream:
    combining the two ciphertexts byte by byte gives the two plaintexts
    combined byte by byte (as far as both go). *)
Theorem aes256_seed_reuse `{Crypto} (randomBytes randomBytes' : list ascii)
    (key m1 m2 seed : string) :
  key <> "" -> m1 <> "" -> m2 <> "" -> seed <> "" ->
  exists e1 e2,
    aes256.encrypt randomBytes (VStr key) (VStr m1) (Some seed) = aes256.Returned e1 /\
    aes256.encrypt randomBytes' (VStr key) (VStr m2) (Some seed) = aes256.Returned e2 /\
    firstn 16 (base64_decode e1) = firstn 16 (base64_decode e2) /\
    xor_bytes (skipn 16 (base64_decode e1)) (skipn 16 (base64_decode e2))
    = xor_bytes (Buffer_from m1) (Buffer_from m2).
Proof.
  intros Hkey Hm1 Hm2 Hseed.
  rewrite (aes256_encrypt_returns randomBytes key m1 (Some seed) Hkey Hm1).
  rewrite (aes256_encrypt_returns randomBytes' key m2 (Some seed) Hkey Hm2).
  assert (Hiv : forall rb, encrypt_iv rb (Some seed) = md5 (Buffer_from seed)).
  { intros rb. unfold encrypt_iv. destruct (String.eqb_spec seed ""); [contradiction|reflexivity]. }
  rewrite !Hiv.
  eexists. eexists. split; [reflexivity|]. split; [reflexivity|].
  rewrite !base64_decode_encode.
  rewrite !(firstn_16_app _ _ (md5_digest_length _)), !(skipn_16_app _ _ (md5_digest_length _)).
  split; [reflexivity|]. apply xor_bytes_ctr_update.
Qed.

Lemma aes256_seed_reuse_witness :
  exists e1 e2,
    aes256.encrypt (H:=example_crypto) (repeat "a"%char 16) (VStr "testUserToken")
      (VStr "attack at dawn") (Some "ivSeed") = aes256.Returned e1 /\
    aes256.encrypt (H:=example_crypto) (repeat "b"%char 16) (VStr "testUserToken")
      (VStr "attack at dusk") (Some "ivSeed") = aes256.Returned e2 /\
    firstn 16 (base64_decode e1) = firstn 16 (base64_decode e2) /\
    xor_bytes (skipn 16 (base64_decode e1)) (skipn 16 (base64_decode e2))
    = xor_bytes (Buffer_from "attack at dawn") (Buffer_from "attack at dusk").
Proof.
  apply (aes256_seed_reuse (H:=example_crypto) (repeat "a"%char 16) (repeat "b"%char 16)
           "testUserToken" "attack at dawn" "attack at dusk" "ivSeed"); discriminate.
Defined.




(** ** More on the client's methods on data *)

(** X4. For a non-empty token, an object of strings as data, any seed and
    any 16 random bytes, the client's [decrypt] gives the data back from what
    its [encrypt] returned, and leaves the world as it is. *)
Theorem decrypt_encrypt `{Crypto} `{JSON} `{Utf8} (this : FBJWTClient) (randomBytes : list ascii)
    (token : string) (fields : list (string * jsonValue)) (ivSeed : option string) (w : world) :
  token <> "" -> string_record fields -> List.length randomBytes = 16%nat ->
  exists encryptedData,
    encrypt randomBytes (VStr token) (JObj fields) ivSeed = aes256.Returned encryptedData /\
    decrypt this (VStr token) (VStr encryptedData) w = (w, Normal (JObj fields)).
Proof.
  intros Htoken Hfields Hrnd.
  pose proof (JSON_stringify_object fields) as Htext.
  destruct (aes256_round_trip randomBytes token (JSON_stringify (JObj fields)) ivSeed Htoken Htext
              (encrypt_iv_length randomBytes ivSeed Hrnd)) as [encrypted [Henc Hdec]].
  exists encrypted. split; [exact Henc|].
  unfold decrypt. rewrite Hdec, (JSON_parse_stringify fields Hfields). reflexivity.
Qed.

Lemma decrypt_encrypt_witness :
  exists encryptedData,
    encrypt (H:=example_crypto) (H0:=example_JSON) (repeat "a"%char 16) (VStr "testUserToken")
      (JObj [("foo", JStr "bar")]) None = aes256.Returned encryptedData /\
    decrypt (H:=example_crypto) (H0:=example_JSON) (H1:=example_Utf8) example_client (VStr "testUserToken")
      (VStr encryptedData) (world_of ∅) = (world_of ∅, Normal (JObj [("foo", JStr "bar")])).
Proof.
  apply (decrypt_encrypt (H:=example_crypto) (H0:=example_JSON) (H1:=example_Utf8) example_client
           (repeat "a"%char 16) "testUserToken" [("foo", JStr "bar")] None (world_of ∅)).
  - discriminate.
  - split.
    + simpl. repeat constructor. intros Hin. apply list_elem_of_In in Hin. destruct Hin.
    + repeat constructor; simpl; eauto.
  - reflexivity.
Defined.

(** Decoding stops at the padding: what follows it is not read, and a
    text that goes on after the padding decrypts as the text before it. *)
Example base64_decode_stops_at_padding :
  base64_decode "YQ==YWJj" = Buffer_from "a".
Proof. reflexivity. Qed.

Example decrypt_stops_at_padding :
  exists encrypted,
    encrypt (H:=example_crypto) (H0:=example_JSON) (repeat "a"%char 16) (VStr "testUserToken")
      (JObj [("a", JStr "b")]) None = aes256.Returned encrypted /\
    decrypt (H:=example_crypto) (H0:=example_JSON) (H1:=example_Utf8) example_client
      (VStr "testUserToken") (VStr (String.append encrypted "AAAA")) (world_of ∅)
    = (world_of ∅, Normal (JObj [("a", JStr "b")])).
Proof. eexists. split; [reflexivity|]. vm_compute. reflexivity. Qed.

(** X5. Whatever its arguments, the client's [decrypt] either returns the
    parsed data, leaving the world as it is, or throws a new error of the
    client's error class with code 500 and message [EINVALIDPAYLOAD]. It
    throws that error when the token or the text is not a non-empty string,
    when the text decodes to fewer than 17 bytes, and when the decrypted text
    is not JSON: no error of the cipher and no [SyntaxError] leaves it. *)
Theorem decrypt_throws_EINVALIDPAYLOAD `{Crypto} `{JSON} `{Utf8} (this : FBJWTClient)
    (token encryptedData : value) (w : world) :
  ((exists data, decrypt this token encryptedData w = (w, Normal data)) \/
   throws_new (ErrorClass this) (VNum 500) (VStr "EINVALIDPAYLOAD") w
     (decrypt this token encryptedData w)) /\
  (~ non_empty_string token \/ ~ non_empty_string encryptedData \/
   (List.length (base64_decode (aes256.string_of encryptedData)) < 17)%nat \/
   (exists text, aes256.decrypt token encryptedData = aes256.Returned text /\
                 JSON_parse text = None) ->
   throws_new (ErrorClass this) (VNum 500) (VStr "EINVALIDPAYLOAD") w
     (decrypt this token encryptedData w)).
Proof.
  assert (Hthrow : forall A, throws_new (ErrorClass this) (VNum 500) (VStr "EINVALIDPAYLOAD") w
            (@throwRequestError A (ErrorClass this) (VNum 500) (VStr "EINVALIDPAYLOAD") w)).
  { intros A. apply (throwRequestError_throws_new (ErrorClass this) (VNum 500) (VStr "EINVALIDPAYLOAD")). }
  split.
  - unfold decrypt. destruct (aes256.decrypt token encryptedData) as [text|t].
    + destruct (JSON_parse text) as [data|]; [left; exists data; reflexivity|right; apply Hthrow].
    + right. apply Hthrow.
  - intros Hbad. unfold decrypt.
    assert (Hnone : match aes256.decrypt token encryptedData with
                    | aes256.Returned data => JSON_parse data
                    | aes256.Threw _ => None
                    end = None).
    { destruct Hbad as [Hk|[Hv|[Hlen|[text [Hdec Hparse]]]]].
      - unfold aes256.decrypt. rewrite (not_non_empty_string_check token Hk). reflexivity.
      - unfold aes256.decrypt.
        destruct (negb (String.eqb (typeof token) "string") || negb (truthy token)); [reflexivity|].
        rewrite (not_non_empty_string_check encryptedData Hv). reflexivity.
      - unfold aes256.decrypt.
        destruct (negb (String.eqb (typeof token) "string") || negb (truthy token)); [reflexivity|].
        destruct (negb (String.eqb (typeof encryptedData) "string") || negb (truthy encryptedData));
          [reflexivity|].
        apply Nat.ltb_lt in Hlen. rewrite Hlen. reflexivity.
      - rewrite Hdec. exact Hparse. }
    rewrite Hnone. apply Hthrow.
Qed.

Lemma decrypt_throws_EINVALIDPAYLOAD_witness :
  throws_new FBJWTClientError (VNum 500) (VStr "EINVALIDPAYLOAD") (world_of ∅)
    (decrypt (H:=example_crypto) (H0:=example_JSON) (H1:=example_Utf8) example_client (VStr "testUserToken")
       (VStr "invalid") (world_of ∅)) /\
  throws_new FBJWTClientError (VNum 500) (VStr "EINVALIDPAYLOAD") (world_of ∅)
    (decrypt (H:=example_crypto) (H0:=example_JSON) (H1:=example_Utf8) example_client VUndefined
       (VStr "Rm9vYmFyRm9vYmFyRm9vYmFyRm9vYmFy") (world_of ∅)).
Proof.
  split.
  - apply (decrypt_throws_EINVALIDPAYLOAD (H:=example_crypto) (H0:=example_JSON) (H1:=example_Utf8) example_client
             (VStr "testUserToken") (VStr "invalid") (world_of ∅)).
    right. right. left. vm_compute. lia.
  - apply (decrypt_throws_EINVALIDPAYLOAD (H:=example_crypto) (H0:=example_JSON) (H1:=example_Utf8) example_client
             VUndefined (VStr "Rm9vYmFyRm9vYmFyRm9vYmFyRm9vYmFy") (world_of ∅)).
    left. intros [s [Hs _]]. discriminate.
Defined.

(** X6. The client's [encrypt] does not wrap the errors of the cipher:
    with a token that is not a non-empty string it throws the cipher's error
    with code [ENOENCRYPTKEY]; with a non-empty token it returns for every
    object, as the text of an object is never empty (the cipher's
    [ENOENCRYPTVALUE] cannot occur). *)
Theorem encrypt_throws_cipher_error `{Crypto} `{JSON}
    (randomBytes : list ascii) (token : value) (fields : list (string * jsonValue))
    (ivSeed : option string) :
  (~ non_empty_string token ->
   encrypt randomBytes token (JObj fields) ivSeed
   = aes256.Threw (aes256.FBJWTAES256Error "Key must be a non-empty string" "ENOENCRYPTKEY")) /\
  (non_empty_string token ->
   exists encryptedData,
     encrypt randomBytes token (JObj fields) ivSeed = aes256.Returned encryptedData).
Proof.
  split.
  - intros Hk. unfold encrypt, aes256.encrypt.
    rewrite (not_non_empty_string_check token Hk). reflexivity.
  - intros [s [-> Hs]]. unfold encrypt.
    rewrite (aes256_encrypt_returns randomBytes s _ ivSeed Hs (JSON_stringify_object fields)).
    eexists. reflexivity.
Qed.

Lemma encrypt_throws_cipher_error_witness :
  encrypt (H:=example_crypto) (H0:=example_JSON) (repeat "a"%char 16) VUndefined
    (JObj [("foo", JStr "bar")]) None
  = aes256.Threw (aes256.FBJWTAES256Error "Key must be a non-empty string" "ENOENCRYPTKEY") /\
  exists encryptedData,
    encrypt (H:=example_crypto) (H0:=example_JSON) (repeat "a"%char 16) (VStr "testUserToken")
      (JObj []) None = aes256.Returned encryptedData.
Proof.
  split.
  - apply (encrypt_throws_cipher_error (H:=example_crypto) (H0:=example_JSON)
             (repeat "a"%char 16) VUndefined [("foo", JStr "bar")] None).
    intros [s [Hs _]]. discriminate.
  - apply (encrypt_throws_cipher_error (H:=example_crypto) (H0:=example_JSON)
             (repeat "a"%char 16) (VStr "testUserToken") [] None).
    exists "testUserToken". split; [reflexivity|discriminate].
Defined.

Lemma encryptUserIdAndToken_returns `{Crypto} `{JSON} (this : FBJWTClient) (secret : string)
    (randomBytes : list ascii) (userId userToken : string) :
  serviceSecret this = VStr secret -> secret <> "" ->
  encryptUserIdAndToken this randomBytes userId userToken
  = aes256.Returned
      (base64_encode
         (encrypt_iv randomBytes (Some (String.append userId userToken))
          ++ ctr_update
               (aes_256_ctr_keystream (sha256 (Buffer_from secret))
                  (encrypt_iv randomBytes (Some (String.append userId userToken))))
               0 (Buffer_from (JSON_stringify
                                 (JObj [("userId", JStr userId); ("userToken", JStr userToken)]))))).
Proof.
  intros Hsecret Hne. unfold encryptUserIdAndToken, encrypt. rewrite Hsecret.
  apply aes256_encrypt_returns; [exact Hne|apply JSON_stringify_object].
Qed.

(** X7. On a client whose secret is a non-empty string,
    [encryptUserIdAndToken] returns the same text whatever random bytes are
    drawn as soon as the user id or the user token is not empty. When both
    are empty the seed is the empty string, which the cipher takes for no
    seed: two calls that draw different random bytes return different
    texts. *)
Theorem encryptUserIdAndToken_same_value `{Crypto} `{JSON} (this : FBJWTClient) (secret : string)
    (randomBytes randomBytes' : list ascii) :
  serviceSecret this = VStr secret -> secret <> "" ->
  List.length randomBytes = 16%nat -> List.length randomBytes' = 16%nat ->
  randomBytes <> randomBytes' ->
  (forall userId userToken, String.append userId userToken <> "" ->
     encryptUserIdAndToken this randomBytes userId userToken
     = encryptUserIdAndToken this randomBytes' userId userToken) /\
  encryptUserIdAndToken this randomBytes "" "" <> encryptUserIdAndToken this randomBytes' "" "".
Proof.
  intros Hsecret Hne Hrnd Hrnd' Hdiff. split.
  - intros userId userToken Hseed.
    rewrite !(encryptUserIdAndToken_returns this secret) by assumption.
    unfold encrypt_iv. destruct (String.eqb_spec (String.append userId userToken) "");
      [contradiction|reflexivity].
  - rewrite !(encryptUserIdAndToken_returns this secret) by assumption.
    change (encrypt_iv randomBytes (Some (String.append "" ""))) with randomBytes.
    change (encrypt_iv randomBytes' (Some (String.append "" ""))) with randomBytes'.
    intros Heq. injection Heq as Heq.
    apply (f_equal base64_decode) in Heq. rewrite !base64_decode_encode in Heq.
    apply (f_equal (firstn 16)) in Heq.
    rewrite (firstn_16_app randomBytes _ Hrnd), (firstn_16_app randomBytes' _ Hrnd') in Heq.
    contradiction.
Qed.

Lemma encryptUserIdAndToken_same_value_witness :
  encryptUserIdAndToken (H:=example_crypto) (H0:=example_JSON) example_client (repeat "a"%char 16)
    "testUserId" ""
  = encryptUserIdAndToken (H:=example_crypto) (H0:=example_JSON) example_client (repeat "b"%char 16)
      "testUserId" "" /\
  encryptUserIdAndToken (H:=example_crypto) (H0:=example_JSON) example_client (repeat "a"%char 16)
    "" ""
  <> encryptUserIdAndToken (H:=example_crypto) (H0:=example_JSON) example_client (repeat "b"%char 16)
       "" "".
Proof.
  destruct (encryptUserIdAndToken_same_value (H:=example_crypto) (H0:=example_JSON) example_client
              "testServiceSecret" (repeat "a"%char 16) (repeat "b"%char 16))
    as [Hsame Hrandom]; try reflexivity; try discriminate.
  split; [apply Hsame; discriminate|exact Hrandom].
Defined.

(** X8. On a client whose secret is a non-empty string, two different pairs
    of user id and user token never get the same text from
    [encryptUserIdAndToken], also when their seeds (the concatenations)
    coincide. *)
Theorem encryptUserIdAndToken_injective `{Crypto} `{JSON} (this : FBJWTClient) (secret : string)
    (randomBytes randomBytes' : list ascii) (userId userToken userId' userToken' : string) :
  serviceSecret this = VStr secret -> secret <> "" ->
  List.length randomBytes = 16%nat -> List.length randomBytes' = 16%nat ->
  userId <> userId' \/ userToken <> userToken' ->
  encryptUserIdAndToken this randomBytes userId userToken
  <> encryptUserIdAndToken this randomBytes' userId' userToken'.
Proof.
  intros Hsecret Hne Hrnd Hrnd' Hdiff Heq.
  set (data := [("userId", JStr userId); ("userToken", JStr userToken)]).
  set (data' := [("userId", JStr userId'); ("userToken", JStr userToken')]).
  destruct (aes256_round_trip (H0:=example_Utf8) randomBytes secret (JSON_stringify (JObj data))
              (Some (String.append userId userToken)) Hne (JSON_stringify_object data)
              (encrypt_iv_length randomBytes _ Hrnd)) as [e [Henc Hdec]].
  destruct (aes256_round_trip (H0:=example_Utf8) randomBytes' secret
              (JSON_stringify (JObj data'))
              (Some (String.append userId' userToken')) Hne (JSON_stringify_object data')
              (encrypt_iv_length randomBytes' _ Hrnd')) as [e' [Henc' Hdec']].
  unfold encryptUserIdAndToken, encrypt in Heq. rewrite Hsecret in Heq.
  fold data data' in Heq. rewrite Henc, Henc' in Heq. injection Heq as Heq. subst e'.
  rewrite Hdec in Hdec'. injection Hdec' as Htext.
  apply (f_equal JSON_parse) in Htext.
  rewrite !JSON_parse_stringify in Htext by apply userId_userToken_record.
  unfold data, data' in Htext. injection Htext as Hu Ht.
  destruct Hdiff; contradiction.
Qed.

Lemma encryptUserIdAndToken_injective_witness :
  encryptUserIdAndToken (H:=example_crypto) (H0:=example_JSON) example_client (repeat "a"%char 16)
    "ab" "c"
  <> encryptUserIdAndToken (H:=example_crypto) (H0:=example_JSON) example_client (repeat "a"%char 16)
       "a" "bc".
Proof.
  apply (encryptUserIdAndToken_injective (H:=example_crypto) (H0:=example_JSON) example_client
           "testServiceSecret" (repeat "a"%char 16) (repeat "a"%char 16) "ab" "c" "a" "bc");
    try reflexivity; try discriminate.
  left. discriminate.
Defined.

(** X9. The constructor checks that its arguments are truthy, not that they
    are strings: with a truthy secret that is not a string (a number, say) it
    returns a client and leaves the world as it is; on that client
    [encryptUserIdAndToken] throws the cipher's error [ENOENCRYPTKEY] and
    [decryptUserIdAndToken] throws the client's error 500
    [EINVALIDPAYLOAD], whatever they are given. *)
Theorem constructor_accepts_non_string_secret `{Crypto} `{JSON} `{Utf8}
    (secret token slug microserviceUrl : value) (errorClass : option errorClass) (w : world)
    (randomBytes : list ascii) (userId userToken : string) (encryptedData : value) :
  truthy secret = true -> truthy token = true -> truthy slug = true ->
  truthy microserviceUrl = true ->
  typeof secret <> "string" ->
  exists this,
    constructor secret token slug microserviceUrl errorClass w = (w, Normal this) /\
    encryptUserIdAndToken this randomBytes userId userToken
    = aes256.Threw (aes256.FBJWTAES256Error "Key must be a non-empty string" "ENOENCRYPTKEY") /\
    throws_new (ErrorClass this) (VNum 500) (VStr "EINVALIDPAYLOAD") w
      (decryptUserIdAndToken this encryptedData w).
Proof.
  intros Hs Ht Hl Hu Htype.
  eexists. split.
  - unfold constructor, bind. rewrite Hs, Ht, Hl, Hu. reflexivity.
  - assert (Hk : negb (String.eqb (typeof secret) "string") || negb (truthy secret) = true).
    { destruct (String.eqb_spec (typeof secret) "string"); [contradiction|reflexivity]. }
    split.
    + unfold encryptUserIdAndToken, encrypt, aes256.encrypt. cbn [serviceSecret].
      rewrite Hk. reflexivity.
    + unfold decryptUserIdAndToken, decrypt, aes256.decrypt. cbn [serviceSecret].
      rewrite Hk.
      apply (throwRequestError_throws_new _ (VNum 500) (VStr "EINVALIDPAYLOAD")).
Qed.

Lemma constructor_accepts_non_string_secret_witness :
  exists this,
    constructor (VNum 12345) (VStr "testServiceToken") (VStr "testServiceSlug")
      (VStr "https://microservice") None (world_of ∅) = (world_of ∅, Normal this) /\
    encryptUserIdAndToken (H:=example_crypto) (H0:=example_JSON) this (repeat "a"%char 16)
      "testUserId" "testUserToken"
    = aes256.Threw (aes256.FBJWTAES256Error "Key must be a non-empty string" "ENOENCRYPTKEY") /\
    throws_new (ErrorClass this) (VNum 500) (VStr "EINVALIDPAYLOAD") (world_of ∅)
      (decryptUserIdAndToken (H:=example_crypto) (H0:=example_JSON) (H1:=example_Utf8) this
         (VStr "Rm9vYmFyRm9vYmFyRm9vYmFyRm9vYmFy") (world_of ∅)).
Proof.
  apply (constructor_accepts_non_string_secret (H:=example_crypto) (H0:=example_JSON) (H1:=example_Utf8)
           (VNum 12345) (VStr "testServiceToken") (VStr "testServiceSlug")
           (VStr "https://microservice") None (world_of ∅) (repeat "a"%char 16)
           "testUserId" "testUserToken" (VStr "Rm9vYmFyRm9vYmFyRm9vYmFyRm9vYmFy"));
    try reflexivity. discriminate.
Defined.

(** X10. When the payload, an object of strings with at least one property,
    is sent as query, decoding the search parameter [payload] of the options
    from base64 and parsing the text gives the payload back. *)
Theorem createRequestOptions_query_decodes `{Crypto} `{JSON} `{JWT} `{PathToRegexp} `{Utf8}
    (this : FBJWTClient) (now : Z) (urlPattern : string) (context : option jsonValue)
    (fields : list (string * jsonValue)) (useQueryParam : value) (options : RequestOptions) :
  createRequestOptions this now urlPattern context (Some fields) useQueryParam = Normal options ->
  fields <> [] -> truthy useQueryParam = true -> string_record fields ->
  exists sp,
    searchParams options = Some sp /\
    JSON_parse (Buffer_toString (base64_decode (payload sp))) = Some (JObj fields).
Proof.
  intros Hcall Hne Hflag Hrecord.
  unfold createRequestOptions in Hcall.
  destruct (createEndpointUrl this urlPattern context) as [endpointUrl|]; [|discriminate].
  simpl default in Hcall. rewrite length_map, Hflag in Hcall.
  destruct fields as [|kv rest]; [congruence|].
  simpl in Hcall. injection Hcall as <-. simpl.
  eexists. split; [reflexivity|]. simpl.
  rewrite base64_decode_encode, Buffer_toString_from.
  apply JSON_parse_stringify. exact Hrecord.
Qed.

Lemma createRequestOptions_query_decodes_witness :
  exists options sp,
    createRequestOptions (H:=example_crypto) (H0:=example_JSON) (H1:=example_JWT)
      (H2:=example_PathToRegexp) example_client 1483228800 "/foo" (Some (JObj []))
      (Some [("foo", JStr "bar")]) (VBool true) = Normal options /\
    searchParams options = Some sp /\
    payload sp = "eyJmb28iOiJiYXIifQ==" /\
    JSON_parse (JSON:=example_JSON)
      (Buffer_toString (Utf8:=example_Utf8) (base64_decode (payload sp)))
    = Some (JObj [("foo", JStr "bar")]).
Proof.
  destruct (createRequestOptions (H:=example_crypto) (H0:=example_JSON) (H1:=example_JWT)
              (H2:=example_PathToRegexp) example_client 1483228800 "/foo" (Some (JObj []))
              (Some [("foo", JStr "bar")]) (VBool true)) as [options|e] eqn:Hcall;
    [|vm_compute in Hcall; discriminate].
  destruct (createRequestOptions_query_decodes (H:=example_crypto) (H0:=example_JSON)
              (H1:=example_JWT) (H2:=example_PathToRegexp) (H3:=example_Utf8) example_client 1483228800 "/foo"
              (Some (JObj [])) [("foo", JStr "bar")] (VBool true) options Hcall)
    as [sp [Hsp Hparse]].
  - discriminate.
  - reflexivity.
  - split.
    + simpl. repeat constructor. intros Hin. apply list_elem_of_In in Hin. destruct Hin.
    + repeat constructor; simpl; eauto.
  - exists options, sp. split; [reflexivity|]. split; [exact Hsp|]. split; [|exact Hparse].
    vm_compute in Hcall. injection Hcall as <-. simpl in Hsp. injection Hsp as <-. reflexivity.
Defined.

(** ** The error classifier never returns *)

Lemma truthy_js_or a b : truthy b = true -> truthy (js_or a b) = true.
Proof. intros Hb. unfold js_or. destruct (truthy a) eqn:Ha; assumption. Qed.

Lemma truthy_getErrorStatusCode message : truthy (getErrorStatusCode message) = true.
Proof.
  unfold getErrorStatusCode.
  destruct (strict_eq message (VStr "ENOTFOUND")); [reflexivity|].
  destruct (strict_eq message (VStr "ECONNREFUSED")); reflexivity.
Qed.

Lemma body_as_error_keeps w err :
  metrics (body_as_error w err) = metrics w /\ logged (body_as_error w err) = logged w.
Proof.
  unfold body_as_error. destruct err; try (split; reflexivity).
  destruct (prop w (VRef l) "body"); split; reflexivity.
Qed.

Lemma throwRequestError_truthy {A} C code message w :
  truthy code = true ->
  exists w' l,
    @throwRequestError A C code message w = (w', Throw (Exn (VRef l))) /\
    metrics w' = metrics w /\ logged w' = logged w /\
    prop w' (VRef l) "name" = VStr (class_name C) /\
    truthy (prop w' (VRef l) "code") = true /\
    truthy (prop w' (VRef l) "message") = true.
Proof.
  intros Hcode.
  destruct (throwRequestError_throws_new (A:=A) C code message w) as [l [Hl Heq]].
  eexists. exists l. split; [exact Heq|]. split; [reflexivity|]. split; [reflexivity|].
  assert (Hnew : @throws_new A C code (js_or message code) w
                   (with_heap w (<[l := error_object C code (js_or message code)]> (heap w)),
                    Throw (Exn (VRef l)))) by (exists l; split; [exact Hl|reflexivity]).
  apply throws_new_name in Hnew. destruct Hnew as [Hn [Hc Hm]].
  rewrite Hn, Hc, Hm. repeat split; [exact Hcode|apply truthy_js_or; exact Hcode].
Qed.

(** What [handleRequestError] throws on anything but [undefined] and
    [null]. *)
Lemma handleRequestError_throws {A} (C : errorClass) (err : value) (w : world) :
  err <> VUndefined -> err <> VNull ->
  exists w' e,
    @handleRequestError A C err w = (w', Throw (Exn e)) /\
    metrics w' = metrics w /\ logged w' = logged w /\
    prop w' e "name" = VStr (class_name C) /\
    (prop w err "name" <> VStr (class_name C) ->
     truthy (prop w' e "code") = true /\
     truthy (prop w' e "message") = true).
Proof.
  intros Hu Hn.
  destruct (decide (prop w err "name" = VStr (class_name C))) as [Hname|Hname].
  - exists w, err. split; [|repeat split; [exact Hname|contradiction|contradiction]].
    unfold handleRequestError, bind. rewrite (get_object _ _ _ Hu Hn).
    apply strict_eq_true in Hname. rewrite Hname. reflexivity.
  - rewrite (handleRequestError_rules C err w Hu Hn Hname). cbv zeta.
    set (w1 := body_as_error w err).
    assert (Hgoal : forall code message, truthy code = true ->
              exists w' e, @throwRequestError A C code message w1 = (w', Throw (Exn e)) /\
                metrics w' = metrics w /\ logged w' = logged w /\
                prop w' e "name" = VStr (class_name C) /\
                (prop w err "name" <> VStr (class_name C) ->
                 truthy (prop w' e "code") = true /\
                 truthy (prop w' e "message") = true)).
    { intros code message Hcode.
      destruct (throwRequestError_truthy (A:=A) C code message w1 Hcode)
        as [w' [l [Heq [Hmet [Hlog [Hn' [Hc Hm]]]]]]].
      destruct (body_as_error_keeps w err) as [Hmet1 Hlog1].
      exists w', (VRef l). split; [exact Heq|].
      split; [rewrite Hmet; exact Hmet1|]. split; [rewrite Hlog; exact Hlog1|].
      split; [exact Hn'|]. intros _. split; assumption. }
    destruct (truthy (prop w err "statusCode")) eqn:Hsc.
    + destruct (strict_eq (prop w err "statusCode") (VNum 404)); apply Hgoal;
        [reflexivity|exact Hsc].
    + destruct (truthy (prop w1 err "error")); apply Hgoal; apply truthy_getErrorStatusCode.
Qed.

(** X11. [handleRequestError] never returns. On [undefined] and [null] it
    throws the [TypeError] of the runtime and leaves the world as it is; on
    anything else (functions apart, whose properties are not modelled) it
    throws an error that carries the name of the configured error class: the
    argument itself, or a new error, whose code and message are then both
    truthy. *)
Theorem handleRequestError_never_returns {A} (C : errorClass) (err : value) (w : world) :
  typeof err <> "function" ->
  (err = VUndefined \/ err = VNull ->
   @handleRequestError A C err w = (w, Throw NativeTypeError)) /\
  (err <> VUndefined -> err <> VNull ->
   exists w' e,
     @handleRequestError A C err w = (w', Throw (Exn e)) /\
     prop w' e "name" = VStr (class_name C) /\
     (prop w err "name" <> VStr (class_name C) ->
      truthy (prop w' e "code") = true /\
      truthy (prop w' e "message") = true)).
Proof.
  intros _. split.
  - intros [->| ->]; reflexivity.
  - intros Hu Hn.
    destruct (handleRequestError_throws (A:=A) C err w Hu Hn) as [w' [e [Hrun [_ [_ [Hname Hnew]]]]]].
    exists w', e. split; [exact Hrun|]. split; [exact Hname|exact Hnew].
Qed.

Lemma handleRequestError_never_returns_witness :
  @handleRequestError unit FBJWTClientError VUndefined (world_of ∅)
  = (world_of ∅, Throw NativeTypeError) /\
  exists w' e,
    @handleRequestError unit FBJWTClientError (VRef 1) world_ECONNREFUSED = (w', Throw (Exn e)) /\
    prop w' e "name" = VStr "FBJWTClientError" /\
    truthy (prop w' e "code") = true /\
    truthy (prop w' e "message") = true.
Proof.
  split.
  - apply (handleRequestError_never_returns (A:=unit) FBJWTClientError VUndefined (world_of ∅));
      [discriminate|left; reflexivity].
  - destruct (handleRequestError_never_returns (A:=unit) FBJWTClientError (VRef 1)
                world_ECONNREFUSED) as [_ Hobject]; [discriminate|].
    destruct Hobject as [w' [e [Hrun [Hname Hnew]]]]; try discriminate.
    exists w', e. split; [exact Hrun|]. split; [exact Hname|].
    apply Hnew. vm_compute. discriminate.
Defined.

(** ** More on the dispatch pipeline *)

(** X12. When the url pattern cannot be filled with the context, [send]
    throws the error of the url library as it is (it is not turned into an
    error of the client's error class) and nothing else happens: no timer is
    started and nothing is logged. *)
Theorem send_url_failure `{Crypto} `{JSON} `{JWT} `{PathToRegexp} `{Got}
    (this : FBJWTClient) (now : Z) (method : string) (args : sendArgs) (logger : bool)
    (w : world) :
  createEndpointUrl this (args_url args) (Some (default (JObj []) (args_context args))) = None ->
  send this now method args logger w = (w, Throw NativeTypeError).
Proof.
  intros Hurl. unfold send, createRequestOptions. rewrite Hurl. reflexivity.
Qed.

Lemma send_url_failure_witness :
  send (H:=example_crypto) (H0:=example_JSON) (H1:=example_JWT) (H2:=example_PathToRegexp)
    (H3:=example_Got (H:=example_JSON) 200 "OK" (VStr ""))
    example_client 1483228800 "get" (example_args "/user/:userId") true (world_of ∅)
  = (world_of ∅, Throw NativeTypeError).
Proof.
  apply (send_url_failure (H:=example_crypto) (H0:=example_JSON) (H1:=example_JWT)
           (H2:=example_PathToRegexp) (H3:=example_Got (H:=example_JSON) 200 "OK" (VStr ""))
           example_client 1483228800 "get" (example_args "/user/:userId") true (world_of ∅)).
  reflexivity.
Defined.

(** X13. Whatever the transport does (whichever hooks it calls, in
    whatever order, however often), awaiting it keeps the calls to the metrics
    recorded so far, ends no timer of the api histogram, and leaves in the
    variable [requestMetricsEnd] nothing but [undefined] or the function that
    ends a timer of an attempt. *)
Theorem await_ends_no_api_timer (labels : requestLabels) (logger : bool) (t : transport)
    (w w' : world) (c : completion value) :
  request_timer (requestMetricsEnd w) ->
  await labels logger t w = (w', c) ->
  request_timer (requestMetricsEnd w') /\
  exists evs,
    metrics w' = (metrics w ++ evs)%list /\
    forall handle, ended ApiMetrics handle evs = 0%nat.
Proof.
  intros Hw Hrun.
  destruct (quiet_await labels logger t w w' c Hw Hrun) as [[Hw' [evs [Hm Hevs]]] _].
  split; [exact Hw'|]. exists evs. split; [exact Hm|].
  intros handle. apply ended_no_api_end. exact Hevs.
Qed.

Lemma await_ends_no_api_timer_witness :
  let labels := send_labels example_client "get" (example_args "/route") in
  let r := await labels false (example_attempt (H:=example_JSON) 201 "Created" (VStr ""))
             (send_started labels (world_of ∅)) in
  request_timer (requestMetricsEnd (fst r)) /\
  exists evs,
    metrics (fst r) = (metrics (send_started labels (world_of ∅)) ++ evs)%list /\
    forall handle, ended ApiMetrics handle evs = 0%nat.
Proof.
  intros labels r.
  apply (await_ends_no_api_timer labels false
           (example_attempt (H:=example_JSON) 201 "Created" (VStr ""))
           (send_started labels (world_of ∅)) (fst r) (snd r)).
  - left. reflexivity.
  - apply surjective_pairing.
Defined.

Lemma bind_inv {A B} (m : js A) (k : A -> js B) w w' c :
  bind m k w = (w', c) ->
  (exists w1 a, m w = (w1, Normal a) /\ k a w1 = (w', c)) \/
  (exists e, m w = (w', Throw e) /\ c = Throw e).
Proof.
  unfold bind. destruct (m w) as [w1 [a|e]]; intros Hrun.
  - left. exists w1, a. split; [reflexivity|exact Hrun].
  - right. exists e. inversion Hrun; subst. split; reflexivity.
Qed.

(** The test of the white-space body in the [catch] block. *)
Lemma quiet_tolerated (response : value) :
  quiet (@any bool)
    (if truthy response then
       statusCode <- get response "statusCode" ;;
       if js_lt statusCode 300 then
         body <- get response "body" ;;
         if truthy body then
           trimmed <- trim body ;;
           ret (negb (truthy trimmed))
         else ret false
       else ret false
     else ret false).
Proof.
  destruct (truthy response); [|apply quiet_ret; exact I].
  eapply quiet_bind; [apply quiet_get|intros statusCode _].
  destruct (js_lt statusCode 300); [|apply quiet_ret; exact I].
  eapply quiet_bind; [apply quiet_get|intros body _].
  destruct (truthy body); [|apply quiet_ret; exact I].
  eapply quiet_bind; [apply quiet_trim|intros trimmed _].
  apply quiet_ret. exact I.
Qed.

Lemma quiet_caught e : quiet (@any value) (caught e).
Proof. destruct e; [apply quiet_ret; exact I|apply quiet_alloc]. Qed.

Lemma quiet_api_step handle w w' : quiet_step w w' -> api_step handle 0 w w'.
Proof.
  intros [Hw' [evs [Hm Hevs]]]. split; [exact Hw'|]. exists evs. split; [exact Hm|].
  split; [|intros h _]; apply ended_no_api_end; exact Hevs.
Qed.

Lemma api_step_trans handle n1 n2 w1 w2 w3 :
  api_step handle n1 w1 w2 -> api_step handle n2 w2 w3 -> api_step handle (n1 + n2) w1 w3.
Proof.
  intros [_ [evs [Hm [Hn Ho]]]] [Hw3 [evs' [Hm' [Hn' Ho']]]]. split; [exact Hw3|].
  exists (evs ++ evs')%list. split; [rewrite Hm', Hm, app_assoc; reflexivity|].
  split.
  - rewrite ended_app, Hn, Hn'. reflexivity.
  - intros h Hh. rewrite ended_app, (Ho h Hh), (Ho' h Hh). reflexivity.
Qed.

Lemma api_step_call_end handle l w :
  request_timer (requestMetricsEnd w) ->
  api_step handle 1 w (with_metrics w (metrics w ++ [EndTimer ApiMetrics handle l])).
Proof.
  intros Hw. split; [exact Hw|]. eexists. split; [reflexivity|]. split.
  - unfold ended. simpl. rewrite Nat.eqb_refl. reflexivity.
  - intros h Hh. unfold ended. simpl.
    destruct (Nat.eqb_spec handle h); [congruence|reflexivity].
Qed.

Lemma quiet_run {A} (P : A -> Prop) (m : js A) w w' c :
  quiet P m -> request_timer (requestMetricsEnd w) -> m w = (w', c) -> quiet_step w w'.
Proof. intros Hq Hw Hrun. exact (proj1 (Hq w w' c Hw Hrun)). Qed.

(** The [catch] block ends the api timer at most once. *)
Lemma send_catch_api_step (this : FBJWTClient) (labels : requestLabels) (logger : bool)
    (handle : nat) (e : exn) (w2 w3 : world) (c : completion value) :
  request_timer (requestMetricsEnd w2) ->
  send_catch this labels logger (VEndTimer ApiMetrics handle) e w2 = (w3, c) ->
  api_step handle 0 w2 w3 \/ api_step handle 1 w2 w3.
Proof.
  intros Hw2 Hrun. unfold send_catch in Hrun.
  apply bind_inv in Hrun. destruct Hrun as [[wa [error [Hcaught Hrun]]]|[ex [Hcaught _]]].
  2:{ left. apply quiet_api_step. exact (quiet_run _ _ _ _ _ (quiet_caught e) Hw2 Hcaught). }
  pose proof (quiet_run _ _ _ _ _ (quiet_caught e) Hw2 Hcaught) as Hstep1.
  apply bind_inv in Hrun. destruct Hrun as [[wb [response [Hget Hrun]]]|[ex [Hget _]]].
  2:{ left. apply quiet_api_step. eapply quiet_step_trans; [exact Hstep1|].
      exact (quiet_run _ _ _ _ _ (quiet_get error "response") (proj1 Hstep1) Hget). }
  pose proof (quiet_run _ _ _ _ _ (quiet_get error "response") (proj1 Hstep1) Hget) as Hstep2.
  pose proof (quiet_step_trans _ _ _ Hstep1 Hstep2) as Hstep12.
  apply bind_inv in Hrun. destruct Hrun as [[wc [tolerated [Htol Hrun]]]|[ex [Htol _]]].
  2:{ left. apply quiet_api_step. eapply quiet_step_trans; [exact Hstep12|].
      exact (quiet_run _ _ _ _ _ (quiet_tolerated response) (proj1 Hstep12) Htol). }
  pose proof (quiet_run _ _ _ _ _ (quiet_tolerated response) (proj1 Hstep12) Htol) as Hstep3.
  pose proof (quiet_step_trans _ _ _ Hstep12 Hstep3) as Hstep123.
  destruct tolerated.
  - left. apply quiet_api_step. eapply quiet_step_trans; [exact Hstep123|].
    refine (quiet_run any _ _ _ _ _ (proj1 Hstep123) Hrun).
    eapply quiet_bind; [apply quiet_read_requestMetricsEnd|intros f Hf].
    eapply quiet_bind; [apply quiet_getResponseLabels|intros l _].
    eapply quiet_bind; [apply quiet_call_end; exact Hf|intros ? _].
    apply quiet_alloc.
  - apply bind_inv in Hrun. destruct Hrun as [[wd [l [Hlab Hrun]]]|[ex [Hlab _]]].
    2:{ left. apply quiet_api_step. eapply quiet_step_trans; [exact Hstep123|].
        exact (quiet_run _ _ _ _ _ (quiet_getResponseLabels error) (proj1 Hstep123) Hlab). }
    pose proof (quiet_run _ _ _ _ _ (quiet_getResponseLabels error) (proj1 Hstep123) Hlab) as Hstep4.
    pose proof (quiet_step_trans _ _ _ Hstep123 Hstep4) as Hstep1234.
    right.
    apply bind_inv in Hrun. destruct Hrun as [[we [[] [Hend Hrun]]]|[ex [Hend _]]];
      [|discriminate Hend].
    unfold call_end in Hend. inversion Hend; subst we; clear Hend.
    change 1%nat with (0 + (1 + 0))%nat.
    eapply api_step_trans; [apply quiet_api_step; exact Hstep1234|].
    eapply api_step_trans; [apply api_step_call_end; exact (proj1 Hstep1234)|].
    apply quiet_api_step.
    eapply (quiet_run any _ (with_metrics wd (metrics wd ++ [EndTimer ApiMetrics handle l])) w3 c);
      [|exact (proj1 Hstep1234)|exact Hrun].
    eapply quiet_bind; [|intros ? _; apply quiet_handleRequestError].
    destruct logger; [apply quiet_send_logError|apply (quiet_ret any tt I)].
Qed.

(** X14. Whatever the transport does and however the call ends, [send]
    keeps the calls to the metrics recorded so far, ends the api timer it
    started at most once and ends no other api timer. *)
Theorem send_ends_api_timer_at_most_once `{Crypto} `{JSON} `{JWT} `{PathToRegexp} `{Got}
    (this : FBJWTClient) (now : Z) (method : string) (args : sendArgs) (logger : bool)
    (w : world) :
  let w3 := fst (send this now method args logger w) in
  exists evs,
    metrics w3 = (metrics w ++ evs)%list /\
    (ended ApiMetrics (List.length (metrics w)) evs <= 1)%nat /\
    forall h, h <> List.length (metrics w) -> ended ApiMetrics h evs = 0%nat.
Proof.
  cbv zeta.
  destruct (createRequestOptions this now (args_url args)
              (Some (default (JObj []) (args_context args))) (args_payload args)
              (VBool (String.eqb method "get"))) as [options|e] eqn:Hoptions.
  2:{ unfold send. rewrite Hoptions. exists []. simpl. rewrite app_nil_r.
      split; [reflexivity|]. split; [unfold ended; simpl; lia|reflexivity]. }
  rewrite (send_awaits this now method args logger options w Hoptions). cbv zeta.
  set (labels := send_labels this method args).
  set (h0 := List.length (metrics w)).
  assert (Hstart : request_timer (requestMetricsEnd (send_started labels w))) by (left; reflexivity).
  assert (Hfinish : forall w3 n, (n <= 1)%nat -> api_step h0 n (send_started labels w) w3 ->
            exists evs, metrics w3 = (metrics w ++ evs)%list /\
              (ended ApiMetrics h0 evs <= 1)%nat /\
              forall h, h <> h0 -> ended ApiMetrics h evs = 0%nat).
  { intros w3 n Hn [_ [evs [Hm [He Ho]]]].
    exists (StartTimer ApiMetrics h0 labels :: evs). split.
    - rewrite Hm. unfold send_started. simpl. rewrite <- app_assoc. reflexivity.
    - split.
      + change (ended ApiMetrics h0 (StartTimer ApiMetrics h0 labels :: evs))
          with (ended ApiMetrics h0 evs). lia.
      + intros h Hh. change (ended ApiMetrics h (StartTimer ApiMetrics h0 labels :: evs))
          with (ended ApiMetrics h evs). apply Ho. exact Hh. }
  unfold try_catch.
  match goal with |- context [bind ?m ?k (send_started labels w)] =>
    destruct (bind m k (send_started labels w)) as [w2 [body|e]] eqn:Htry end.
  - (* the [try] block returns: the timer was ended once *)
    simpl fst. apply (Hfinish w2 1%nat); [lia|].
    apply bind_inv in Htry. destruct Htry as [[wa [response [Hawait Hrun]]]|[ex [_ Hc]]];
      [|discriminate Hc].
    pose proof (quiet_run _ _ _ _ _ (quiet_await labels logger _) Hstart Hawait) as Hstep1.
    apply bind_inv in Hrun. destruct Hrun as [[wb [l [Hlab Hrun]]]|[ex [_ Hc]]];
      [|discriminate Hc].
    pose proof (quiet_run _ _ _ _ _ (quiet_getResponseLabels response) (proj1 Hstep1) Hlab) as Hstep2.
    pose proof (quiet_step_trans _ _ _ Hstep1 Hstep2) as Hstep12.
    apply bind_inv in Hrun. destruct Hrun as [[wc [[] [Hend Hrun]]]|[ex [_ Hc]]];
      [|discriminate Hc].
    unfold call_end in Hend. inversion Hend; subst wc; clear Hend.
    change 1%nat with (0 + (1 + 0))%nat.
    eapply api_step_trans; [apply quiet_api_step; exact Hstep12|].
    eapply api_step_trans; [apply api_step_call_end; exact (proj1 Hstep12)|].
    apply quiet_api_step.
    eapply (quiet_run any _ (with_metrics wb (metrics wb ++ [EndTimer ApiMetrics h0 l])) w2
              (Normal body)); [apply quiet_get|exact (proj1 Hstep12)|exact Hrun].
  - (* the [try] block throws before the timer is ended *)
    assert (Hquiet : quiet_step (send_started labels w) w2).
    { apply bind_inv in Htry. destruct Htry as [[wa [response [Hawait Hrun]]]|[ex [Hawait _]]].
      2:{ exact (quiet_run _ _ _ _ _ (quiet_await labels logger _) Hstart Hawait). }
      pose proof (quiet_run _ _ _ _ _ (quiet_await labels logger _) Hstart Hawait) as Hstep1.
      apply bind_inv in Hrun. destruct Hrun as [[wb [l [Hlab Hrun]]]|[ex [Hlab _]]].
      2:{ eapply quiet_step_trans; [exact Hstep1|].
          exact (quiet_run _ _ _ _ _ (quiet_getResponseLabels response) (proj1 Hstep1) Hlab). }
      exfalso.
      (* the labels were read, so the response is an object and its body can be read *)
      assert (Hobj : response <> VUndefined /\ response <> VNull).
      { split; intros ->; discriminate Hlab. }
      apply bind_inv in Hrun. destruct Hrun as [[wc [[] [Hend Hrun]]]|[ex [Hend _]]];
        [|discriminate Hend].
      rewrite (get_object response "body" wc (proj1 Hobj) (proj2 Hobj)) in Hrun.
      discriminate Hrun. }
    destruct (send_catch this labels logger (VEndTimer ApiMetrics h0) e w2) as [w3 c] eqn:Hcatch.
    simpl fst.
    destruct (send_catch_api_step this labels logger h0 e w2 w3 c (proj1 Hquiet) Hcatch)
      as [Hstep|Hstep].
    + apply (Hfinish w3 0%nat); [lia|].
      change 0%nat with (0 + 0)%nat.
      eapply api_step_trans; [apply quiet_api_step; exact Hquiet|exact Hstep].
    + apply (Hfinish w3 1%nat); [lia|].
      change 1%nat with (0 + 1)%nat.
      eapply api_step_trans; [apply quiet_api_step; exact Hquiet|exact Hstep].
Qed.





(** ** Retried calls *)







Lemma length_retry_events labels running ends :
  List.length (retry_events labels running ends) = (2 * List.length ends)%nat.
Proof.
  revert running. induction ends as [|l ends IH]; intros running; simpl; [reflexivity|].
  rewrite IH. lia.
Qed.












Section Retried.
Context `{Crypto} `{JSON} `{JWT} `{PathToRegexp} `{Got}.
Variables (this : FBJWTClient) (now : Z) (method : string) (args : sendArgs) (logger : bool).
Variables (options : RequestOptions) (w : world) (errors : list positive).
Hypothesis Hoptions :
  createRequestOptions this now (args_url args) (Some (default (JObj []) (args_context args)))
    (args_payload args) (VBool (String.eqb method "get")) = Normal options.
Hypothesis Hlogger : errors <> [] -> logger = true.


End Retried.







(** A retry without a logger: the retry hook throws a [TypeError] on the
    missing logger, which the transport hands to the error hook; that hook
    sets the retry count on it and ends the timer of the attempt, the call
    rejects with the [TypeError], and [send] throws code 500 with message
    [ENOERROR]. Both timers are ended once. *)
Example send_retry_without_logger :
  let r := send (H:=example_crypto) (H0:=example_JSON) (H1:=example_JWT)
             (H2:=example_PathToRegexp)
             (H3:=example_Got_of
                    (CallBeforeRequest (retrying [1%positive] 1 (Resolve (VRef 3)))))
             example_client 1483228800 "get" (example_args "/route") false world_retried in
  prop (fst r) (VRef 4) "name" = VStr "TypeError" /\
  prop (fst r) (VRef 4) "retryCount" = VNum 1 /\
  ended RequestMetrics 1 (metrics (fst r)) = 1%nat /\
  ended ApiMetrics 0 (metrics (fst r)) = 1%nat /\
  snd r = Throw (Exn (VRef 5)) /\
  prop (fst r) (VRef 5) "code" = VNum 500 /\
  prop (fst r) (VRef 5) "message" = VStr "ENOERROR".
Proof. cbv zeta. repeat split; vm_compute; reflexivity. Qed.

(** ** Hooks that fail *)

(** The [catch] block on a [TypeError] of the runtime. *)
Lemma send_catch_TypeError (this : FBJWTClient) (labels : requestLabels) (logger : bool)
    (handle : nat) (w2 : world) :
  class_name (ErrorClass this) <> "TypeError" ->
  let l := fresh (dom (heap w2)) in
  exists w3 x,
    send_catch this labels logger (VEndTimer ApiMetrics handle) NativeTypeError w2
    = (w3, Throw (Exn (VRef x))) /\
    x <> l /\ heap w2 !! x = None /\
    heap w3 = <[x := error_object (ErrorClass this) (VNum 500) (VStr "ENOERROR")]>
                (<[l := native_TypeError]> (heap w2)) /\
    metrics w3 = (metrics w2 ++ [EndTimer ApiMetrics handle
                                   {| status_code := VUndefined; status_message := None;
                                      error_name := Some (VStr "TypeError") |}])%list /\
    logged w3 = (logged w2 ++ if logger then [log_entry_of labels "api" (VRef l)] else [])%list.
Proof.
  intros Hclass l.
  set (w2a := with_heap w2 (<[l := native_TypeError]> (heap w2))).
  assert (Hfresh : heap w2 !! l = None) by (apply not_elem_of_dom, is_fresh).
  assert (Hobj : forall wx, heap wx = heap w2a -> forall f,
            prop wx (VRef l) f = if decide (f = "name") then VStr "TypeError" else VUndefined).
  { intros wx Hwx f. unfold prop, object_at. rewrite Hwx. unfold w2a. simpl.
    rewrite lookup_insert_eq. simpl. unfold native_TypeError.
    destruct (decide (f = "name")) as [->|Hf].
    - rewrite lookup_singleton_eq. reflexivity.
    - rewrite lookup_singleton_ne by congruence. reflexivity. }
  unfold send_catch.
  rewrite (bind_normal _ _ w2 w2a (VRef l)) by reflexivity.
  rewrite (bind_normal _ _ _ _ _ (get_ref l "response" w2a)).
  rewrite (Hobj w2a eq_refl "response"), decide_False by discriminate.
  change (truthy VUndefined) with false. cbv iota.
  rewrite (bind_normal _ _ w2a w2a false) by reflexivity. cbv iota.
  rewrite (bind_normal _ _ _ _ _ (getResponseLabels_object (VRef l) w2a ltac:(discriminate) ltac:(discriminate))).
  assert (Hlabels : labels_of w2a (VRef l)
                    = {| status_code := VUndefined; status_message := None;
                         error_name := Some (VStr "TypeError") |}).
  { unfold labels_of. rewrite !(Hobj w2a eq_refl).
    rewrite !decide_False by discriminate. rewrite decide_True by reflexivity. reflexivity. }
  rewrite Hlabels.
  set (w2b := with_metrics w2a (metrics w2a ++ [EndTimer ApiMetrics handle
                {| status_code := VUndefined; status_message := None;
                   error_name := Some (VStr "TypeError") |}])).
  rewrite (bind_normal _ _ w2a w2b tt) by reflexivity.
  set (w2c := with_logged w2b (logged w2b ++ if logger then [log_entry_of labels "api" (VRef l)]
                                             else [])).
  assert (Hlog : (if logger then send_logError labels logger "API" (VRef l) else ret tt) w2b
                 = (if logger then w2c else w2b, Normal tt)).
  { destruct logger; [|reflexivity].
    unfold send_logError, logError.
    rewrite (bind_normal _ _ _ _ _ (get_ref l "error" w2b)).
    rewrite (bind_normal _ _ _ _ _ (get_ref l "body" w2b)).
    rewrite (bind_normal _ _ _ _ _ (get_ref l "gotOptions" w2b)).
    rewrite (Hobj w2b eq_refl "gotOptions"), decide_False by discriminate.
    change (truthy VUndefined) with false. cbv iota.
    rewrite (bind_normal _ _ w2b w2b tt) by reflexivity. reflexivity. }
  rewrite (bind_normal _ _ _ _ _ Hlog).
  set (w2d := if logger then w2c else w2b).
  assert (Hheap : heap w2d = heap w2a) by (unfold w2d; destruct logger; reflexivity).
  assert (Hmet : metrics w2d = metrics w2b) by (unfold w2d; destruct logger; reflexivity).
  assert (Hlogged : logged w2d = (logged w2 ++ if logger then [log_entry_of labels "api" (VRef l)]
                                               else [])%list).
  { unfold w2d. destruct logger; [reflexivity|]. simpl. rewrite app_nil_r. reflexivity. }
  rewrite (handleRequestError_rules (ErrorClass this) (VRef l) w2d)
    by (try discriminate; rewrite (Hobj w2d Hheap "name"), decide_True by reflexivity; congruence).
  cbv zeta.
  assert (Hsame : body_as_error w2d (VRef l) = w2d).
  { unfold body_as_error. rewrite (Hobj w2d Hheap "body"), decide_False by discriminate.
    reflexivity. }
  rewrite Hsame.
  rewrite (Hobj w2d Hheap "statusCode"), decide_False by discriminate.
  change (truthy VUndefined) with false. cbv iota.
  rewrite (Hobj w2d Hheap "error"), decide_False by discriminate.
  change (truthy VUndefined) with false. cbv iota.
  rewrite (Hobj w2d Hheap "code"), decide_False by discriminate.
  change (js_or VUndefined (VStr "ENOERROR")) with (VStr "ENOERROR").
  change (getErrorStatusCode (VStr "ENOERROR")) with (VNum 500).
  set (x := fresh (dom (heap w2d))).
  assert (Hx : heap w2d !! x = None) by (apply not_elem_of_dom, is_fresh).
  exists (with_heap w2d (<[x := error_object (ErrorClass this) (VNum 500) (VStr "ENOERROR")]>
                           (heap w2d))), x.
  split; [reflexivity|].
  rewrite Hheap in Hx. unfold w2a in Hx. simpl in Hx.
  apply lookup_insert_None in Hx. destruct Hx as [Hx Hne].
  split; [congruence|]. split; [exact Hx|]. split.
  - simpl. rewrite Hheap. reflexivity.
  - simpl. rewrite Hmet, Hlogged. split; reflexivity.
Qed.

(** X18. When the transport calls the error hook before any request hook
    (the request failed before it was sent), the hook stamps [retryCount] 1
    on the error and then fails on calling [requestMetricsEnd], which is
    still [undefined] (the retry hook tests the variable, the error hook
    does not). [send] then throws a new error with code 500 and message
    [ENOERROR], whatever the error was, and has started and ended the api
    timer and no other. (The client's error class is not named
    [TypeError].) *)
Theorem send_error_hook_without_attempt `{Crypto} `{JSON} `{JWT} `{PathToRegexp} `{Got}
    (this : FBJWTClient) (now : Z) (method : string) (args : sendArgs) (logger : bool)
    (options : RequestOptions) (w : world) (e : positive) (next : value -> transport) :
  createRequestOptions this now (args_url args) (Some (default (JObj []) (args_context args)))
    (args_payload args) (VBool (String.eqb method "get")) = Normal options ->
  got method (args_sendOptions args) options = CallBeforeError (VRef e) next ->
  class_name (ErrorClass this) <> "TypeError" ->
  let labels := send_labels this method args in
  let handle0 := List.length (metrics w) in
  exists w3 x,
    send this now method args logger w = (w3, Throw (Exn (VRef x))) /\
    object_at w3 x = error_object (ErrorClass this) (VNum 500) (VStr "ENOERROR") /\
    x <> e /\
    prop w3 (VRef e) "retryCount" = VNum 1 /\
    metrics w3 = (metrics w ++ [StartTimer ApiMetrics handle0 labels;
                                EndTimer ApiMetrics handle0
                                  {| status_code := VUndefined; status_message := None;
                                     error_name := Some (VStr "TypeError") |}])%list.
Proof.
  intros Hoptions Hshape Hclass labels handle0.
  rewrite (send_awaits this now method args logger options w Hoptions). cbv zeta. fold labels.
  rewrite Hshape.
  set (w0 := send_started labels w).
  set (w1 := with_heap w0 (<[e := <["retryCount" := VNum 1]> (object_at w0 e)]> (heap w0))).
  assert (Hhook : beforeError (VRef e) w0 = (w1, Throw NativeTypeError)).
  { unfold beforeError.
    rewrite (bind_normal _ _ w0 w0 (VNum 1)) by reflexivity.
    rewrite (bind_normal _ _ w0 w1 tt) by reflexivity.
    rewrite (bind_normal _ _ w1 w1 VUndefined) by reflexivity.
    rewrite (bind_normal _ _ _ _ _ (getResponseLabels_object (VRef e) w1 ltac:(discriminate) ltac:(discriminate))).
    reflexivity. }
  assert (Hrun : await labels logger (CallBeforeError (VRef e) next) w0
                 = (w1, Throw NativeTypeError)).
  { cbn [await]. rewrite (bind_throw _ _ _ _ _ Hhook). reflexivity. }
  unfold try_catch. rewrite (bind_throw _ _ _ _ _ Hrun).
  destruct (send_catch_TypeError this labels logger handle0 w1 Hclass)
    as [w3 [x [Hcatch [Hxl [Hx [Hheap [Hmet _]]]]]]].
  exists w3, x. split; [exact Hcatch|].
  assert (He : is_Some (heap w1 !! e)).
  { unfold w1. simpl. rewrite lookup_insert_eq. eauto. }
  assert (Hxe : x <> e) by (intros ->; rewrite Hx in He; destruct He; discriminate).
  assert (Hle : fresh (dom (heap w1)) <> e).
  { intros Heq. apply (is_fresh (dom (heap w1))). rewrite Heq. apply elem_of_dom. exact He. }
  split; [|split; [exact Hxe|split]].
  - unfold object_at. rewrite Hheap, lookup_insert_eq. reflexivity.
  - unfold prop, object_at. rewrite Hheap.
    rewrite lookup_insert_ne by congruence. rewrite lookup_insert_ne by congruence.
    unfold w1. simpl. rewrite lookup_insert_eq. simpl. rewrite lookup_insert_eq. reflexivity.
  - rewrite Hmet. unfold w1, w0, send_started. simpl. rewrite <- app_assoc. reflexivity.
Qed.

Lemma send_error_hook_without_attempt_witness :
  exists w3 x,
    send (H:=example_crypto) (H0:=example_JSON) (H1:=example_JWT) (H2:=example_PathToRegexp)
      (H3:=example_Got_of (CallBeforeError (VRef 1) Reject))
      example_client 1483228800 "get" (example_args "/missing") false world_retried
    = (w3, Throw (Exn (VRef x))) /\
    object_at w3 x = error_object FBJWTClientError (VNum 500) (VStr "ENOERROR") /\
    prop w3 (VRef 1) "code" = VStr "ECONNREFUSED".
Proof.
  destruct (createRequestOptions (H:=example_crypto) (H0:=example_JSON) (H1:=example_JWT)
              (H2:=example_PathToRegexp) example_client 1483228800 "/missing"
              (Some (JObj [])) None (VBool true)) as [options|e] eqn:Hoptions;
    [|vm_compute in Hoptions; discriminate].
  destruct (send_error_hook_without_attempt (H:=example_crypto) (H0:=example_JSON)
              (H1:=example_JWT) (H2:=example_PathToRegexp)
              (H3:=example_Got_of (CallBeforeError (VRef 1) Reject))
              example_client 1483228800 "get" (example_args "/missing") false options
              world_retried 1%positive Reject Hoptions eq_refl)
    as [w3 [x [Hsend [Hobj _]]]]; [discriminate|].
  exists w3, x. split; [exact Hsend|]. split; [exact Hobj|].
  apply (f_equal fst) in Hsend. simpl in Hsend. rewrite <- Hsend. vm_compute. reflexivity.
Defined.

Lemma prop_is_Some w (l : positive) f : prop w (VRef l) f <> VUndefined -> is_Some (heap w !! l).
Proof.
  unfold prop, object_at. destruct (heap w !! l); [eauto|].
  simpl. rewrite lookup_empty. simpl. congruence.
Qed.

(** X19. Without a logger, a response with a status of 400 or more makes
    the response hook fail where it logs the error, before the timer of the
    attempt is ended and before the body is looked at: [send] throws a new
    error with code 500 and message [ENOERROR] instead of the status, the
    timer of the attempt is started and never ended, the body is left as it
    is and nothing is logged. (The client's error class is not named
    [TypeError].) *)
Theorem send_error_status_needs_logger `{Crypto} `{JSON} `{JWT} `{PathToRegexp} `{Got}
    (this : FBJWTClient) (now : Z) (method : string) (args : sendArgs)
    (options : RequestOptions) (w : world) (r : positive) (next : value -> transport) :
  createRequestOptions this now (args_url args) (Some (default (JObj []) (args_context args)))
    (args_payload args) (VBool (String.eqb method "get")) = Normal options ->
  got method (args_sendOptions args) options
  = CallBeforeRequest (CallAfterResponse (VRef r) next) ->
  js_ge (prop w (VRef r) "statusCode") 400 = true ->
  class_name (ErrorClass this) <> "TypeError" ->
  let labels := send_labels this method args in
  let handle0 := List.length (metrics w) in
  exists w3 x,
    send this now method args false w = (w3, Throw (Exn (VRef x))) /\
    object_at w3 x = error_object (ErrorClass this) (VNum 500) (VStr "ENOERROR") /\
    prop w3 (VRef r) "body" = prop w (VRef r) "body" /\
    logged w3 = logged w /\
    metrics w3 = (metrics w ++ [StartTimer ApiMetrics handle0 labels;
                                StartTimer RequestMetrics (S handle0) labels;
                                EndTimer ApiMetrics handle0
                                  {| status_code := VUndefined; status_message := None;
                                     error_name := Some (VStr "TypeError") |}])%list.
Proof.
  intros Hoptions Hshape Hstatus Hclass labels handle0.
  assert (Hr : is_Some (heap w !! r)).
  { apply (prop_is_Some w r "statusCode"). intros Heq. rewrite Heq in Hstatus. discriminate. }
  rewrite (send_awaits this now method args false options w Hoptions). cbv zeta. fold labels.
  rewrite Hshape.
  set (w0 := send_started labels w).
  assert (Hlen0 : List.length (metrics w0) = S handle0).
  { unfold w0, send_started. simpl. rewrite length_app. simpl. unfold handle0. lia. }
  set (w1 := with_requestMetricsEnd
               (with_metrics w0 (metrics w0 ++ [StartTimer RequestMetrics (S handle0) labels]))
               (VEndTimer RequestMetrics (S handle0))).
  assert (Hrequest : beforeRequest labels w0 = (w1, Normal tt)).
  { unfold beforeRequest, bind, startTimer, write_requestMetricsEnd. rewrite Hlen0. reflexivity. }
  set (le := fresh (dom (heap w1))).
  set (error := {[ "statusCode" := prop w1 (VRef r) "statusCode";
                   "statusMessage" := prop w1 (VRef r) "statusMessage";
                   "body" := prop w1 (VRef r) "body";
                   "retryCount" := prop w1 (VRef r) "retryCount" ]} : gmap string value).
  set (w2 := with_heap w1 (<[le := error]> (heap w1))).
  assert (Hresponse : afterResponse labels false (VRef r) w1 = (w2, Throw NativeTypeError)).
  { unfold afterResponse.
    rewrite (bind_normal _ _ _ _ _ (get_ref r "statusCode" w1)).
    change (prop w1 (VRef r) "statusCode") with (prop w (VRef r) "statusCode") at 1.
    rewrite Hstatus.
    apply bind_throw.
    rewrite (bind_normal _ _ _ _ _ (get_ref r "statusMessage" w1)).
    rewrite (bind_normal _ _ _ _ _ (get_ref r "body" w1)).
    rewrite (bind_normal _ _ _ _ _ (get_ref r "retryCount" w1)).
    rewrite (bind_normal _ _ w1 w2 (VRef le)) by reflexivity.
    unfold send_logError, logError.
    rewrite (bind_normal _ _ _ _ _ (get_ref le "error" w2)).
    rewrite (bind_normal _ _ _ _ _ (get_ref le "body" w2)).
    rewrite (bind_normal _ _ _ _ _ (get_ref le "gotOptions" w2)).
    assert (Hgo : prop w2 (VRef le) "gotOptions" = VUndefined).
    { unfold prop, object_at, w2. simpl. rewrite lookup_insert_eq. simpl. unfold error.
      rewrite !lookup_insert_ne by discriminate.
      rewrite lookup_singleton_ne by discriminate. reflexivity. }
    rewrite Hgo. change (truthy VUndefined) with false. cbv iota.
    rewrite (bind_normal _ _ w2 w2 tt) by reflexivity. reflexivity. }
  assert (Hrun : await labels false (CallBeforeRequest (CallAfterResponse (VRef r) next)) w0
                 = (w2, Throw NativeTypeError)).
  { cbn [await]. rewrite (hooked_normal _ _ _ _ _ Hrequest).
    rewrite (bind_throw _ _ _ _ _ Hresponse). reflexivity. }
  unfold try_catch. rewrite (bind_throw _ _ _ _ _ Hrun).
  destruct (send_catch_TypeError this labels false handle0 w2 Hclass)
    as [w3 [x [Hcatch [Hxl [Hx [Hheap [Hmet Hlog]]]]]]].
  exists w3, x. split; [exact Hcatch|].
  assert (Hr1 : is_Some (heap w1 !! r)) by exact Hr.
  assert (Hler : le <> r).
  { intros Heq. apply (is_fresh (dom (heap w1))). fold le. rewrite Heq.
    apply elem_of_dom. exact Hr1. }
  assert (Hr2 : heap w2 !! r = heap w !! r).
  { unfold w2. simpl. rewrite lookup_insert_ne by exact Hler. reflexivity. }
  assert (Hxr : x <> r).
  { intros ->. rewrite Hr2 in Hx. rewrite Hx in Hr. destruct Hr; discriminate. }
  assert (Hlr : fresh (dom (heap w2)) <> r).
  { intros Heq. apply (is_fresh (dom (heap w2))). rewrite Heq. apply elem_of_dom.
    rewrite Hr2. exact Hr. }
  split; [|split; [|split]].
  - unfold object_at. rewrite Hheap, lookup_insert_eq. reflexivity.
  - apply prop_same_object. rewrite Hheap.
    rewrite lookup_insert_ne by congruence. rewrite lookup_insert_ne by congruence.
    exact Hr2.
  - rewrite Hlog. simpl. rewrite app_nil_r. reflexivity.
  - rewrite Hmet. unfold w2, w1, w0, send_started. simpl. rewrite <- !app_assoc. reflexivity.
Qed.

Lemma send_error_status_needs_logger_witness :
  exists w3 x,
    send (H:=example_crypto) (H0:=example_JSON) (H1:=example_JWT) (H2:=example_PathToRegexp)
      (H3:=example_Got_of (CallBeforeRequest (CallAfterResponse (VRef 1) Resolve)))
      example_client 1483228800 "get" (example_args "/notfound") false world_404_response
    = (w3, Throw (Exn (VRef x))) /\
    object_at w3 x = error_object FBJWTClientError (VNum 500) (VStr "ENOERROR") /\
    ended RequestMetrics 1 (metrics w3) = 0%nat.
Proof.
  destruct (createRequestOptions (H:=example_crypto) (H0:=example_JSON) (H1:=example_JWT)
              (H2:=example_PathToRegexp) example_client 1483228800 "/notfound"
              (Some (JObj [])) None (VBool true)) as [options|e] eqn:Hoptions;
    [|vm_compute in Hoptions; discriminate].
  destruct (send_error_status_needs_logger (H:=example_crypto) (H0:=example_JSON)
              (H1:=example_JWT) (H2:=example_PathToRegexp)
              (H3:=example_Got_of (CallBeforeRequest (CallAfterResponse (VRef 1) Resolve)))
              example_client 1483228800 "get" (example_args "/notfound") options
              world_404_response 1%positive Resolve Hoptions eq_refl)
    as [w3 [x [Hsend [Hobj [_ [_ Hmet]]]]]]; [reflexivity|discriminate|].
  exists w3, x. split; [exact Hsend|]. split; [exact Hobj|].
  rewrite Hmet. reflexivity.
Defined.
